(** * Structural extraction engine of the document QA agent (ingest.py)

    A shallow embedding of the text side of [src/src/ingest.py]: the block
    normalizer ([extract_text_blocks]), the header/footer repetition detector
    ([detect_repeated_headers], [remove_repeated_headers_from_blocks]), the
    heading and section segmenter ([detect_headings_and_sections]), the
    reference locator ([find_references]), the scanned-document heuristic
    ([needs_ocr_check]) and the batch driver ([batch_process]).
    Around them: the file-name sanitizer ([sanitize_filename]), what
    [process_pdf] assembles from these parts, the table and image
    extractors ([extract_tables], [extract_images]), the upload path of
    [src/src/pdf_ingest.py] ([process_uploaded_pdfs]) and the text chunker
    of [src/src/index_documents.py] ([chunk_text]).

    Conventions of the embedding.
    - A Python [str] is a list of Unicode code points ([pystr]); [len] counts
      code points, as Python does.
    - Python integers are [Z]; [//] is [Z.div] (both round towards minus
      infinity).
    - Font sizes are exact rationals ([Q]); every binary64 value is one, and
      comparing two of them is exact.  Where the code computes with them,
      the embedding follows it into binary64 through [SpecFloat]:
      [int(0.3 * n)] and [sum(font_sizes) / len(font_sizes)].  The one
      exception is [numpy.percentile], whose interpolation is taken over the
      rationals: the threshold of the embedding is the exact value that the
      program's threshold approximates to within rounding.
    - [list(fonts)] lists a set in an order the interpreter chooses; the
      embedding lists it in insertion order, and only membership and
      distinctness are to be read off it.
    - [uuid.uuid4()] identifiers ([section_id], [doc_id]) are random and are
      left out of the records where nothing depends on them. *)

From Stdlib Require Import ZArith QArith Qround List Bool Lia String Ascii.
From Stdlib Require Import Sorting.Sorted.
From Stdlib Require Import Floats.SpecFloat.
From Stdlib Require Import Lqa.
From Stdlib Require DecimalZ.
Import ListNotations.

Local Open Scope Z_scope.

(* ------------------------------------------------------------------ *)
(** ** Python strings *)

Module PyStr.

(** A Python string: the sequence of its code points. *)
Definition pystr := list N.

(** An ASCII literal of the source, as a [pystr]. *)
Definition lit (s : string) : pystr :=
  map N_of_ascii (list_ascii_of_string s).

(** [len(s)]. *)
Definition len (s : pystr) : Z := Z.of_nat (List.length s).

(** [c.isspace()] for a single code point: CPython's
    [_PyUnicode_IsWhitespace] table. *)
Definition isspace (c : N) : bool :=
  ((9 <=? c) && (c <=? 13) || (28 <=? c) && (c <=? 32)
   || (c =? 133) || (c =? 160) || (c =? 5760)
   || (8192 <=? c) && (c <=? 8202)
   || (c =? 8232) || (c =? 8233) || (c =? 8239) || (c =? 8287)
   || (c =? 12288))%N.

(** [s.lstrip()]. *)
Fixpoint lstrip (s : pystr) : pystr :=
  match s with
  | [] => []
  | c :: r => if isspace c then lstrip r else s
  end.

(** [s.rstrip()]. *)
Definition rstrip (s : pystr) : pystr := rev (lstrip (rev s)).

(** [s.strip()]. *)
Definition strip (s : pystr) : pystr := rstrip (lstrip s).

(** A string that [strip] leaves alone: no blank at either end. *)
Definition trimmed (s : pystr) : Prop :=
  lstrip s = s /\ lstrip (rev s) = rev s.

(** Equality of strings, [s == t]. *)
Definition eqb (s t : pystr) : bool :=
  if list_eq_dec N.eq_dec s t then true else false.

(** [s in xs] for a list or tuple of strings. *)
Definition mem (s : pystr) (xs : list pystr) : bool :=
  existsb (eqb s) xs.

(** [sep.join(xs)]. *)
Fixpoint join (sep : pystr) (xs : list pystr) : pystr :=
  match xs with
  | [] => []
  | [x] => x
  | x :: r => x ++ sep ++ join sep r
  end.

(** Truth value of a string: non-empty. *)
Definition truthy (s : pystr) : bool :=
  match s with [] => false | _ => true end.

(** The blank-line separator ["\n\n"]. *)
Definition nl2 : pystr := [10%N; 10%N].

Fixpoint uint_codes (u : Decimal.uint) : pystr :=
  match u with
  | Decimal.Nil => []
  | Decimal.D0 r => 48%N :: uint_codes r
  | Decimal.D1 r => 49%N :: uint_codes r
  | Decimal.D2 r => 50%N :: uint_codes r
  | Decimal.D3 r => 51%N :: uint_codes r
  | Decimal.D4 r => 52%N :: uint_codes r
  | Decimal.D5 r => 53%N :: uint_codes r
  | Decimal.D6 r => 54%N :: uint_codes r
  | Decimal.D7 r => 55%N :: uint_codes r
  | Decimal.D8 r => 56%N :: uint_codes r
  | Decimal.D9 r => 57%N :: uint_codes r
  end.

(** [str(n)] for an integer: its decimal numeral. *)
Definition str_of_int (n : Z) : pystr :=
  match Z.to_int n with
  | Decimal.Pos u => uint_codes u
  | Decimal.Neg u => 45%N :: uint_codes u
  end.

End PyStr.

Import PyStr.

(* ------------------------------------------------------------------ *)
(** ** Scanned-document heuristic *)

Module Ocr.

(** The opened document as [needs_ocr_check] sees it: per page, the result
    of [doc[i].get_text("text")]. *)
Definition PlainDoc := list pystr.

(** The loop body: [if len(text) < 50: empty_pages += 1] on the trimmed
    page text. *)
Definition count_page (empty_pages : Z) (raw : pystr) : Z :=
  if len (strip raw) <? 50 then empty_pages + 1 else empty_pages.

(** [needs_ocr_check(path, page_sample_count)]; [for i in range(sample)]
    visits [doc[0] .. doc[sample-1]], the first [sample] pages. *)
Definition needs_ocr_check (doc : PlainDoc) (page_sample_count : Z) : bool :=
  let sample := Z.min page_sample_count (Z.of_nat (List.length doc)) in
  let empty_pages := fold_left count_page (firstn (Z.to_nat sample) doc) 0 in
  Z.max 1 (sample / 2) <=? empty_pages.

(** A page whose trimmed text is shorter than 50 characters. *)
Definition near_empty (raw : pystr) : bool := len (strip raw) <? 50.

End Ocr.

(* ------------------------------------------------------------------ *)
(** ** Data model *)

(** [len(xs)] of a list. *)
Definition len_nat {A} (xs : list A) : Z := Z.of_nat (List.length xs).

(** Rational comparisons as booleans. *)
Definition Qltb (a b : Q) : bool := negb (Qle_bool b a).
Definition Qnonzero (a : Q) : bool := negb (Qeq_bool a 0).

(** What the page-layout collaborator hands over: [page.get_text("dict")].
    A key that may be missing from a dict is an [option] field; a missing
    ["lines"], ["spans"] or ["blocks"] list reads as [[]], its [.get]
    default. *)
Module Layout.

Definition BBox : Type := Q * Q * Q * Q.

Record Span := mkSpan {
  span_text : option pystr;
  span_size : option Q;
  span_font : option pystr
}.

Record Line := mkLine { spans : list Span }.

Record RawBlock := mkRawBlock {
  type : option Z;
  lines : list Line;
  raw_bbox : option BBox
}.

(** One page of the source file: its layout dict and, for the scanned
    heuristic, its plain text. *)
Record RawPage := mkRawPage {
  page_dict_blocks : list RawBlock;
  plain_text : pystr
}.

Definition Document := list RawPage.

End Layout.

(** The plain texts [needs_ocr_check] reads from a source document. *)
Definition plain_texts (doc : Layout.Document) : Ocr.PlainDoc :=
  map Layout.plain_text doc.

Module Block.
Record t := mk {
  text : pystr;
  bbox : option Layout.BBox;
  font_sizes : list Q;
  max_font_size : option Q;
  avg_font_size : option spec_float;
  fonts : list pystr
}.
End Block.

Module Page.
Record t := mk {
  page_number : Z;
  blocks : list Block.t
}.
End Page.

(** A section; [section_id] (a fresh [uuid4]) is not modelled.  The page
    fields are copied from the accumulator, where they start as [None]. *)
Module Sec.
Record t := mk {
  heading : pystr;
  text : pystr;
  start_page : option Z;
  end_page : option Z
}.
End Sec.

(* ------------------------------------------------------------------ *)
(** ** binary64 arithmetic on font sizes *)

Module Float64.

(** [float(n)]: round to nearest, ties to even. *)
Definition of_int (n : Z) : spec_float := binary_normalize 53 1024 n 0 false.

(** The binary64 number whose value is the rational [q], for a [q] that is
    the value of one: numerator and denominator are then binary64 numbers
    themselves and their quotient is exact. *)
Definition of_Q (q : Q) : spec_float :=
  SFdiv 53 1024 (of_int (Qnum q)) (of_int (Zpos (Qden q))).

(** [x + y] and [x / y]. *)
Definition add : spec_float -> spec_float -> spec_float := SFadd 53 1024.
Definition div : spec_float -> spec_float -> spec_float := SFdiv 53 1024.

(** [sum(xs)]: the running total starts at 0 and takes the items from left
    to right, each addition rounded.  (From CPython 3.12 on the loop also
    carries a correction term; it is zero whenever the additions are
    exact.) *)
Definition sum (xs : list spec_float) : spec_float :=
  fold_left add xs (of_int 0).

(** [sum(xs) / len(xs)]. *)
Definition mean (xs : list Q) : spec_float :=
  div (sum (map of_Q xs)) (of_int (len_nat xs)).

End Float64.

(* ------------------------------------------------------------------ *)
(** ** Block normalizer: [extract_text_blocks] *)

Module Normalizer.
Import Layout.

(** [max(xs)] on a non-empty list: the first maximal element. *)
Fixpoint max_from (m : Q) (xs : list Q) : Q :=
  match xs with
  | [] => m
  | x :: r => max_from (if Qltb m x then x else m) r
  end.

Definition py_max (xs : list Q) : option Q :=
  match xs with
  | [] => None
  | x :: r => Some (max_from x r)
  end.

(** [fonts.add(f)]; the set is listed in insertion order, which stands for
    whatever order [list(fonts)] gives it. *)
Definition set_add (f : pystr) (fonts : list pystr) : list pystr :=
  if mem f fonts then fonts else fonts ++ [f].

(** The accumulators of the span loop: [block_text], [font_sizes],
    [fonts]. *)
Record acc := mkAcc {
  block_text : pystr;
  acc_sizes : list Q;
  acc_fonts : list pystr
}.

(** [d.get(key, default)] on a key that may be missing. *)
Definition opt_get {A} (o : option A) (d : A) : A :=
  match o with Some a => a | None => d end.

(** Body of [for span in line.get("spans", [])]. *)
Definition span_step (a : acc) (sp : Span) : acc :=
  {| block_text := block_text a ++ opt_get (span_text sp) [];
     acc_sizes := acc_sizes a ++ [opt_get (span_size sp) 0%Q];
     acc_fonts := set_add (opt_get (span_font sp) []) (acc_fonts a) |}.

Definition line_step (a : acc) (l : Line) : acc :=
  fold_left span_step (spans l) a.

Definition scan_block (b : RawBlock) : acc :=
  fold_left line_step (lines b) (mkAcc [] [] []).

(** One iteration of [for b in page_dict.get("blocks", [])]: [None] when
    the primitive is skipped ([continue]). *)
Definition normalize_block (b : RawBlock) : option Block.t :=
  match type b with
  | Some 0 =>
      let a := scan_block b in
      if truthy (strip (block_text a)) then
        Some {| Block.text := strip (block_text a);
                Block.bbox := raw_bbox b;
                Block.font_sizes := acc_sizes a;
                Block.max_font_size :=
                  match acc_sizes a with
                  | [] => None
                  | _ => py_max (acc_sizes a)
                  end;
                Block.avg_font_size :=
                  match acc_sizes a with
                  | [] => None
                  | _ => Some (Float64.mean (acc_sizes a))
                  end;
                Block.fonts := acc_fonts a |}
      else None
  | _ => None
  end.

Fixpoint normalize_blocks (bs : list RawBlock) : list Block.t :=
  match bs with
  | [] => []
  | b :: r =>
      match normalize_block b with
      | Some blk => blk :: normalize_blocks r
      | None => normalize_blocks r
      end
  end.

(** Every span of a primitive, in reading order. *)
Definition all_spans (b : RawBlock) : list Span := flat_map spans (lines b).



(** [for p in range(doc.page_count)], from page index [p] on. *)
Fixpoint pages_from (p : Z) (doc : Document) : list Page.t :=
  match doc with
  | [] => []
  | page :: r =>
      {| Page.page_number := p + 1;
         Page.blocks := normalize_blocks (page_dict_blocks page) |}
      :: pages_from (p + 1) r
  end.

(** [extract_text_blocks(path)["pages"]] on the opened document. *)
Definition extract_text_blocks (doc : Document) : list Page.t :=
  pages_from 0 doc.

End Normalizer.

(* ------------------------------------------------------------------ *)
(** ** Header/footer repetition detector *)

Module Headers.

(** *** binary64 arithmetic of [int(0.3 * len(pages_blocks))] *)

Definition prec : Z := 53.
Definition emax : Z := 1024.

(** [float(n)] for a Python integer: round to nearest, ties to even; an
    integer too large for binary64 comes out as an infinity here (CPython
    raises [OverflowError] at this point). *)
Definition float_of_int (n : Z) : spec_float :=
  binary_normalize prec emax n 0 false.

(** The literal [0.3]: 5404319552844595 * 2^-54. *)
Definition f03 : spec_float := S754_finite false 5404319552844595 (-54).

(** [int(x)]: truncation towards zero; [None] where CPython raises
    ([OverflowError] on an infinity, [ValueError] on a NaN). *)
Definition int_of_float (x : spec_float) : option Z :=
  match x with
  | S754_zero _ => Some 0
  | S754_finite s m e =>
      Some (cond_Zopp s
              (if 0 <=? e then Zpos m * 2 ^ e else Zpos m / 2 ^ (- e)))
  | S754_infinity _ | S754_nan => None
  end.

(** The mantissa of [0.3]; [10 * M03 = 3 * 2^54 - 2]. *)
Definition M03 : Z := 5404319552844595.

(** A bit as a number. *)
Definition b2z (b : bool) : Z := if b then 1 else 0.

(** [max(2, int(0.3 * n))]. *)
Definition header_threshold (n : Z) : option Z :=
  match int_of_float (SFmul prec emax f03 (float_of_int n)) with
  | Some k => Some (Z.max 2 k)
  | None => None
  end.

(** *** [collections.Counter], keys in insertion order *)

Definition Counter := list (pystr * Z).

(** [counter[k] += 1]. *)
Fixpoint incr (k : pystr) (c : Counter) : Counter :=
  match c with
  | [] => [(k, 1)]
  | (k', n) :: r => if eqb k' k then (k', n + 1) :: r else (k', n) :: incr k r
  end.

(** [counter[k]] (0 for a missing key). *)
Fixpoint count_of (k : pystr) (c : Counter) : Z :=
  match c with
  | [] => 0
  | (k', n) :: r => if eqb k' k then n else count_of k r
  end.

(** The keys of a counter are distinct and every count is positive. *)
Definition well_formed (c : Counter) : Prop :=
  NoDup (map fst c) /\ Forall (fun kn => 1 <= snd kn) c.

(** Body of [for block in page["blocks"]]. *)
Definition block_step (c : Counter) (b : Block.t) : Counter :=
  let text := strip (Block.text b) in
  if len text <? 120 then incr text c else c.

Definition page_step (c : Counter) (p : Page.t) : Counter :=
  fold_left block_step (Page.blocks p) c.

Definition phrase_counter (pages_blocks : list Page.t) : Counter :=
  fold_left page_step pages_blocks [].

(** [[p for p, c in phrase_counter.items() if c >= threshold]]. *)
Definition select (threshold : Z) (c : Counter) : list pystr :=
  map fst (filter (fun pc => threshold <=? snd pc) c).

(** The blocks of a document whose trimmed text is [t] and short enough to
    be counted. *)
Definition occurrences (t : pystr) (pages_blocks : list Page.t) : Z :=
  len_nat
    (filter (fun b => eqb (strip (Block.text b)) t
                      && (len (strip (Block.text b)) <? 120))
            (flat_map Page.blocks pages_blocks)).

(** The pages of a document on which some block is counted for [t]. *)
Definition pages_with (t : pystr) (pages_blocks : list Page.t) : Z :=
  len_nat
    (filter (fun p => existsb (fun b => eqb (strip (Block.text b)) t
                                        && (len (strip (Block.text b)) <? 120))
                              (Page.blocks p))
            pages_blocks).






(** [detect_repeated_headers(pages_blocks)]; [None] stands for the
    exception of a page count beyond binary64. *)
Definition detect_repeated_headers (pages_blocks : list Page.t)
  : option (list pystr) :=
  match header_threshold (len_nat pages_blocks) with
  | Some threshold => Some (select threshold (phrase_counter pages_blocks))
  | None => None
  end.

(** The inner loop of [remove_repeated_headers_from_blocks]. *)
Definition filter_page (repeated : list pystr) (p : Page.t) : Page.t :=
  {| Page.page_number := Page.page_number p;
     Page.blocks :=
       filter (fun b => negb (mem (strip (Block.text b)) repeated))
              (Page.blocks p) |}.

(** [remove_repeated_headers_from_blocks(pages_blocks, repeated)]. *)
Definition remove_repeated_headers_from_blocks
    (pages_blocks : list Page.t) (repeated : list pystr) : list Page.t :=
  match repeated with
  | [] => pages_blocks
  | _ => map (filter_page repeated) pages_blocks
  end.

(** The first steps of [process_pdf]: the filtered block stream that the
    segmenter and the reference locator read. *)
Definition filtered_pages (doc : Layout.Document) : option (list Page.t) :=
  let pages_blocks := Normalizer.extract_text_blocks doc in
  match detect_repeated_headers pages_blocks with
  | Some repeated =>
      Some (match repeated with
            | [] => pages_blocks
            | _ => remove_repeated_headers_from_blocks pages_blocks repeated
            end)
  | None => None
  end.

End Headers.

(* ------------------------------------------------------------------ *)
(** ** Heading and section segmenter *)

Module Segmenter.

(** Truth value of [b.get("max_font_size")]: present and non-zero. *)
Definition has_font_size (b : Block.t) : bool :=
  match Block.max_font_size b with
  | Some q => Qnonzero q
  | None => false
  end.

(** The first loop: every truthy [max_font_size], in document order. *)
Definition block_sizes (bs : list Block.t) : list Q :=
  flat_map (fun b =>
              if has_font_size b
              then [Normalizer.opt_get (Block.max_font_size b) 0%Q]
              else []) bs.

Definition all_font_sizes (pages_blocks : list Page.t) : list Q :=
  flat_map (fun p => block_sizes (Page.blocks p)) pages_blocks.

(** *** [numpy.percentile] (default linear interpolation), over [Q] *)

Fixpoint insert_sorted (x : Q) (xs : list Q) : list Q :=
  match xs with
  | [] => [x]
  | y :: r => if Qle_bool x y then x :: xs else y :: insert_sorted x r
  end.

Definition sort (xs : list Q) : list Q := fold_right insert_sorted [] xs.

(** [percentile(a, q)] for a non-empty [a]: with the sorted data and the
    virtual index [(n - 1) * q / 100], interpolate between the two
    neighbouring order statistics. *)
Definition percentile (a : list Q) (q : Q) : Q :=
  let s := sort a in
  let n := len_nat s in
  let virtual := (inject_Z (n - 1) * (q / 100))%Q in
  let lo := Qfloor virtual in
  let hi := Z.min (lo + 1) (n - 1) in
  let gamma := (virtual - inject_Z lo)%Q in
  let x := nth (Z.to_nat lo) s 0%Q in
  let y := nth (Z.to_nat hi) s 0%Q in
  (x + (y - x) * gamma)%Q.

(** The heading test of the main loop:
    [b.get("max_font_size") and b["max_font_size"] >= threshold]. *)
Definition is_heading (threshold : Q) (b : Block.t) : bool :=
  has_font_size b
  && Qle_bool threshold (Normalizer.opt_get (Block.max_font_size b) 0%Q).

(** The accumulator [current]. *)
Record current := mkCurrent {
  cur_heading : option pystr;
  cur_text : pystr;
  cur_start_page : option Z;
  cur_end_page : option Z
}.

Definition current0 : current := mkCurrent None [] None None.

(** [current["heading"] or current["text"]]. *)
Definition nonempty_current (c : current) : bool :=
  match cur_heading c with
  | Some h => truthy h || truthy (cur_text c)
  | None => truthy (cur_text c)
  end.

(** The section appended from [current]; [default] is the heading used
    when [current["heading"]] is falsy. *)
Definition finalize (default : pystr) (c : current) : Sec.t :=
  {| Sec.heading :=
       match cur_heading c with
       | Some h => if truthy h then h else default
       | None => default
       end;
     Sec.text := strip (cur_text c);
     Sec.start_page := cur_start_page c;
     Sec.end_page := cur_end_page c |}.

(** Loop state: the sections appended so far and [current]. *)
Definition state : Type := list Sec.t * current.

(** Body of [for b in p["blocks"]] on page number [pn]. *)
Definition block_step (threshold : Q) (pn : Z) (st : state) (b : Block.t)
  : state :=
  let '(sections, cur) := st in
  if is_heading threshold b then
    (if nonempty_current cur
     then sections ++ [finalize (lit "Untitled") cur]
     else sections,
     {| cur_heading := Some (strip (Block.text b));
        cur_text := [];
        cur_start_page := Some pn;
        cur_end_page := Some pn |})
  else
    (sections,
     {| cur_heading := cur_heading cur;
        cur_text := cur_text cur ++ (nl2 ++ strip (Block.text b));
        cur_start_page :=
          match cur_start_page cur with
          | None => Some pn
          | Some s => Some s
          end;
        cur_end_page := Some pn |}).

Definition page_step (threshold : Q) (st : state) (p : Page.t) : state :=
  fold_left (block_step threshold (Page.page_number p)) (Page.blocks p) st.

(** The part after the loops: push the last section. *)
Definition push_last (st : state) : list Sec.t :=
  let '(sections, cur) := st in
  if nonempty_current cur
  then sections ++ [finalize (lit "Introduction") cur]
  else sections.

(** The fallback: one section per page. *)
Definition page_section (p : Page.t) : Sec.t :=
  {| Sec.heading := lit "Page " ++ str_of_int (Page.page_number p);
     Sec.text := join nl2 (map Block.text (Page.blocks p));
     Sec.start_page := Some (Page.page_number p);
     Sec.end_page := Some (Page.page_number p) |}.

(** The heading threshold, [float(np.percentile(all_font_sizes, 90))]. *)
Definition heading_threshold (pages_blocks : list Page.t) : Q :=
  percentile (all_font_sizes pages_blocks) 90.

(** [detect_headings_and_sections(pages_blocks)]. *)
Definition detect_headings_and_sections (pages_blocks : list Page.t)
  : list Sec.t :=
  match all_font_sizes pages_blocks with
  | [] => map page_section pages_blocks
  | _ =>
      let threshold := heading_threshold pages_blocks in
      push_last (fold_left (page_step threshold) pages_blocks ([], current0))
  end.

(** The entry a [max_font_size] contributes to [all_font_sizes]. *)
Definition size_entry (o : option Q) : list Q :=
  match o with
  | Some q => if Qnonzero q then [q] else []
  | None => []
  end.

(** The heading test as a function of [max_font_size]. *)
Definition heading_size (threshold : Q) (o : option Q) : bool :=
  match o with
  | Some q => Qnonzero q && Qle_bool threshold q
  | None => false
  end.

(** *** The block stream and what a section consumes of it *)

(** A block as the loops meet it: with the number of its page. *)
Definition item : Type := Z * Block.t.

Definition item_text (it : item) : pystr := Block.text (snd it).

(** The blocks of a document in reading order. *)
Definition stream (pages_blocks : list Page.t) : list item :=
  flat_map (fun p => map (pair (Page.page_number p)) (Page.blocks p))
           pages_blocks.

(** The loop body on an item of the stream. *)
Definition item_step (threshold : Q) (st : state) (it : item) : state :=
  block_step threshold (fst it) st (snd it).

(** What the accumulator's text holds after the non-heading blocks
    [body]. *)
Definition body_text (body : list item) : pystr :=
  List.concat (map (fun it => nl2 ++ strip (item_text it)) body).

(** Section [s] consumes the run [g] of the stream: at most one leading
    block gives the heading, the texts of the others, joined by blank
    lines, are the section text, and the section spans the pages from the
    first block of the run to its last. *)
Definition covers (g : list item) (s : Sec.t) : Prop :=
  exists hd body,
    g = hd ++ body /\
    (List.length hd <= 1)%nat /\
    (forall it, In it hd -> Sec.heading s = item_text it) /\
    Sec.text s = join nl2 (map item_text body) /\
    (forall it rest, g = it :: rest ->
       Sec.start_page s = Some (fst it) /\
       Sec.end_page s = Some (fst (last g it))).

(** The accumulator after the run [g] read since the last section was
    closed: its pages are those of the first and last block of [g], its
    text is that of the non-heading blocks, and its heading, if any, is the
    block that opened the run. *)
Definition tracks (g : list item) (cur : current) : Prop :=
  match g with
  | [] => cur = current0
  | it0 :: _ =>
      cur_start_page cur = Some (fst it0) /\
      cur_end_page cur = Some (fst (last g it0)) /\
      exists hd body,
        g = hd ++ body /\
        cur_text cur = body_text body /\
        ((hd = [] /\ body <> [] /\ cur_heading cur = None) \/
         (exists h, hd = [h] /\ cur_heading cur = Some (strip (item_text h))))
  end.

(** The loop invariant after the prefix [pre] of the stream: the closed
    sections consume consecutive non-empty runs of [pre], and the
    accumulator tracks what is left of it. *)
Definition loop_inv (pre : list item) (st : state) : Prop :=
  exists groups g,
    List.concat groups ++ g = pre /\
    Forall (fun g' => g' <> []) groups /\
    Forall2 covers groups (fst st) /\
    tracks g (snd st).

(** The main loop over a stream, from the initial state. *)
Definition run (threshold : Q) (l : list item) : state :=
  fold_left (item_step threshold) l ([], current0).

(** A section whose page range is set and in order. *)
Definition pages_in_order (s : Sec.t) : Prop :=
  exists a b, Sec.start_page s = Some a /\ Sec.end_page s = Some b /\ a <= b.

(** What the normalizer guarantees of a block: trimmed, non-empty text. *)
Definition clean_block (b : Block.t) : Prop :=
  trimmed (Block.text b) /\ Block.text b <> [].

Definition clean_item (it : item) : Prop := clean_block (snd it).

(** What the normalizer guarantees of the pages: clean blocks and page
    numbers in ascending order. *)
Definition clean_pages (pages_blocks : list Page.t) : Prop :=
  Forall (fun p => Forall clean_block (Page.blocks p)) pages_blocks /\
  StronglySorted Z.le (map Page.page_number pages_blocks).

End Segmenter.

(* ------------------------------------------------------------------ *)
(** ** Reference locator *)

Module References.

Section Locator.

(** [str.lower], the Unicode lower-casing of the interpreter. *)
Variable lower : pystr -> pystr.

(** The marker tuple. *)
Definition markers : list pystr :=
  [lit "references"; lit "reference"; lit "bibliography"; lit "works cited"].

(** Loop state: [found] and [ref_texts]. *)
Definition state : Type := bool * list pystr.

(** Body of [for b in page["blocks"]]. *)
Definition block_step (st : state) (b : Block.t) : state :=
  let '(found, ref_texts) := st in
  let t := strip (Block.text b) in
  if negb found && mem (lower t) markers then (true, ref_texts)
  else if found then (found, ref_texts ++ [t])
  else (found, ref_texts).

(** Body of [for page in pages_blocks]; the trailing
    [if found and page["blocks"] == []: continue] changes nothing. *)
Definition page_step (st : state) (p : Page.t) : state :=
  fold_left block_step (Page.blocks p) st.

(** [find_references(pages_blocks)]. *)
Definition find_references (pages_blocks : list Page.t) : pystr :=
  strip (join nl2 (snd (fold_left page_step pages_blocks (false, [])))).

(** The marker test on a block: its trimmed, lower-cased text is one of
    the markers. *)
Definition is_marker (b : Block.t) : bool :=
  mem (lower (strip (Block.text b))) markers.

(** The blocks strictly after the first marker block; none when there is
    no marker. *)
Fixpoint after_marker (bs : list Block.t) : list Block.t :=
  match bs with
  | [] => []
  | b :: r => if is_marker b then r else after_marker r
  end.

End Locator.

End References.

(* ------------------------------------------------------------------ *)
(** ** Batch driver *)

Module Batch.

(** The fields of the record returned by [process_pdf] that come from the
    components above, and the two that [batch_process] reads. *)
Record ProcessedDocument := mkDoc {
  doc_id : pystr;
  filename : pystr;
  sections : list Sec.t;
  references : pystr;
  raw_text : pystr;
  needs_ocr : bool
}.

(** A manifest entry. *)
Record entry := mkEntry {
  entry_doc_id : pystr;
  entry_filename : pystr;
  json_path : pystr
}.

(** What a call does: return a value or raise. *)
Inductive result (E A : Type) : Type :=
| Returned (a : A)
| Raised (e : E).
Arguments Returned {E A} a.
Arguments Raised {E A} e.

(** What a run leaves behind, in order: the calls of [process_pdf], the
    failures given to [logger.exception], and the manifest written to
    [documents_manifest.json]. *)
Inductive event (E : Type) : Type :=
| Processed (pdf : pystr)
| LoggedFailure (pdf : pystr) (e : E)
| WroteManifest (path : pystr) (entries : list entry).
Arguments Processed {E} pdf.
Arguments LoggedFailure {E} pdf e.
Arguments WroteManifest {E} path entries.

Section Driver.

(** Raised objects, and whether one is an instance of [Exception] (what
    [except Exception] catches; [KeyboardInterrupt] and [SystemExit] are
    not). *)
Variable exn : Type.
Variable is_Exception : exn -> bool.

(** The collaborators of the loop: the per-file pipeline with its I/O, the
    sorted directory listing [sorted(input_dir.glob("*.pdf"))], the path
    operations and [str.isalnum]. *)
Variable process_pdf : pystr -> pystr -> result exn ProcessedDocument.
Variable sorted_pdfs : pystr -> list pystr.
Variable stem : pystr -> pystr.
Variable path_join : pystr -> pystr -> pystr.
Variable isalnum : N -> bool.

(** The output directory.  Nothing but [process_pdf] makes it: a call that
    returns has made it ([os.makedirs(output_dir, exist_ok=True)] before
    its JSON is written), a call that raises may have made it before
    ([extract_tables] and [extract_images] make it with their first file).
    [output_dir_exists] tells whether it exists before the run,
    [leaves_dir] whether a call that raises has made it. *)
Variable output_dir_exists : pystr -> bool.
Variable leaves_dir : pystr -> pystr -> bool.

(** The final write: [open(manifest_path, "w")] raises [FileNotFoundError]
    when the directory does not exist; [write_manifest] is what the write
    does in a directory that exists. *)
Variable FileNotFoundError : exn.
Variable write_manifest : pystr -> list entry -> result exn unit.

(** [sanitize_filename(name)]. *)
Definition sanitize_filename (name : pystr) : pystr :=
  firstn 200
    (map (fun c => if isalnum c || existsb (N.eqb c) (lit "._-")
                   then c else 95%N) name).

(** The loop state: [manifest], what has happened so far, whether the
    output directory exists, and the object that has left the loop, if
    any. *)
Record loop_state := mkLoop {
  manifest : list entry;
  trace : list (event exn);
  dir_exists : bool;
  stopped : option exn
}.

(** The [try] body's manifest entry. *)
Definition entry_of (output_dir pdf : pystr) (doc_out : ProcessedDocument)
  : entry :=
  {| entry_doc_id := doc_id doc_out;
     entry_filename := filename doc_out;
     json_path :=
       path_join output_dir (sanitize_filename (stem pdf) ++ lit ".json") |}.

(** One iteration of [for pdf in sorted(...)], with its [try]/[except
    Exception]; a raised object that is not an [Exception] leaves the
    loop. *)
Definition file_step (output_dir : pystr) (s : loop_state) (pdf : pystr)
  : loop_state :=
  match stopped s with
  | Some _ => s
  | None =>
      match process_pdf pdf output_dir with
      | Returned doc_out =>
          {| manifest := manifest s ++ [entry_of output_dir pdf doc_out];
             trace := trace s ++ [Processed pdf];
             dir_exists := true;
             stopped := None |}
      | Raised e =>
          if is_Exception e
          then {| manifest := manifest s;
                  trace := trace s ++ [Processed pdf; LoggedFailure pdf e];
                  dir_exists := dir_exists s || leaves_dir pdf output_dir;
                  stopped := None |}
          else {| manifest := manifest s;
                  trace := trace s ++ [Processed pdf];
                  dir_exists := dir_exists s || leaves_dir pdf output_dir;
                  stopped := Some e |}
      end
  end.

(** A finished run: what it leaves behind, and whether the call returns
    ([None]) or raises. *)
Record batch_run := mkBatchRun {
  left_behind : list (event exn);
  ended : result exn unit
}.

(** [manifest_path]. *)
Definition manifest_path (output_dir : pystr) : pystr :=
  path_join output_dir (lit "documents_manifest.json").

(** The write of [entries] to the manifest file when the output directory
    exists or not. *)
Definition write_outcome (output_dir : pystr) (entries : list entry)
    (dir : bool) : result exn unit :=
  if dir then write_manifest (manifest_path output_dir) entries
  else Raised FileNotFoundError.

(** [batch_process(input_dir, output_dir)]. *)
Definition batch_process (input_dir output_dir : pystr) : batch_run :=
  let s := fold_left (file_step output_dir) (sorted_pdfs input_dir)
                     (mkLoop [] [] (output_dir_exists output_dir) None) in
  match stopped s with
  | Some e => mkBatchRun (trace s) (Raised e)
  | None =>
      match write_outcome output_dir (manifest s) (dir_exists s) with
      | Returned _ =>
          mkBatchRun
            (trace s ++ [WroteManifest (manifest_path output_dir) (manifest s)])
            (Returned tt)
      | Raised e => mkBatchRun (trace s) (Raised e)
      end
  end.

(** The manifest entries a file contributes: one if it was processed,
    none if it failed. *)
Definition entries_for (output_dir pdf : pystr) : list entry :=
  match process_pdf pdf output_dir with
  | Returned doc_out => [entry_of output_dir pdf doc_out]
  | Raised _ => []
  end.

(** The events a file contributes when its failure, if any, is an
    [Exception]. *)
Definition trace_for (output_dir pdf : pystr) : list (event exn) :=
  match process_pdf pdf output_dir with
  | Returned _ => [Processed pdf]
  | Raised e => [Processed pdf; LoggedFailure pdf e]
  end.

(** Whether the call on a file leaves the output directory in
    existence. *)
Definition makes_dir (output_dir pdf : pystr) : bool :=
  match process_pdf pdf output_dir with
  | Returned _ => true
  | Raised _ => leaves_dir pdf output_dir
  end.

(** Whether the output directory exists after the calls on [files]. *)
Definition dir_after (output_dir : pystr) (files : list pystr) : bool :=
  output_dir_exists output_dir || existsb (makes_dir output_dir) files.

(** The calls of [process_pdf] recorded in a trace. *)
Definition processed_of (tr : list (event exn)) : list pystr :=
  flat_map (fun ev => match ev with
                      | Processed pdf => [pdf]
                      | LoggedFailure _ _ => []
                      | WroteManifest _ _ => []
                      end) tr.

End Driver.

End Batch.

(* ------------------------------------------------------------------ *)
(** ** Concrete documents *)

Module Examples.

(** [n] letters [a]. *)
Definition filler (n : nat) : pystr := repeat 97%N n.

(** Six pages of plain text: the first holds two blanks, the others sixty
    letters each. *)
Definition ocr_doc6 : Ocr.PlainDoc :=
  [lit "  "; filler 60; filler 60; filler 60; filler 60; filler 60].


(** A text primitive of two lines and three spans, sized 10, unsized
    and 12. *)
Definition mixed_raw : Layout.RawBlock :=
  Layout.mkRawBlock (Some 0)
    [Layout.mkLine [Layout.mkSpan (Some (lit " Intro")) (Some 10%Q) (Some (lit "Times"))];
     Layout.mkLine [Layout.mkSpan (Some (lit "duction ")) None (Some (lit "Times"));
                    Layout.mkSpan None (Some 12%Q) None]]
    None.

(** A block that carries only text. *)
Definition plain (s : string) : Block.t :=
  Block.mk (lit s) None [] None None [].

(** A block with text and one font size. *)
Definition sized (s : string) (size : Q) : Block.t :=
  Block.mk (lit s) None [size] (Some size) (Some (Float64.mean [size])) [].

(** Seven pages; the line [Draft] stands on pages 1 and 2 only. *)
Definition draft_doc7 : list Page.t :=
  [Page.mk 1 [plain "Draft"; plain "alpha"];
   Page.mk 2 [plain "Draft"; plain "beta"];
   Page.mk 3 [plain "gamma"];
   Page.mk 4 [plain "delta"];
   Page.mk 5 [plain "epsilon"];
   Page.mk 6 [plain "zeta"];
   Page.mk 7 [plain "eta"]].

(** Four pages; the line [Note] stands twice on page 1 and nowhere
    else. *)
Definition note_doc4 : list Page.t :=
  [Page.mk 1 [plain "Note"; plain "alpha"; plain "Note"];
   Page.mk 2 [plain "beta"];
   Page.mk 3 [plain "gamma"];
   Page.mk 4 [plain "delta"]].

(** One page of five blocks whose sizes are 10, 10, 10, 10 and 24. *)
Definition five_blocks : list Page.t :=
  [Page.mk 1 [sized "one" 10; sized "two" 10; sized "three" 10;
              sized "four" 10; sized "Results" 24]].

(** Two pages of text without any font size; the second page has no
    block. *)
Definition unsized_doc : list Page.t :=
  [Page.mk 1 [plain "first"; plain "second"]; Page.mk 2 []].

(** A source file of three pages: a title and a paragraph, then a
    paragraph and a heading, then a paragraph, with a running footer on
    every page. *)
Definition raw_text (s : string) (size : Q) : Layout.RawBlock :=
  Layout.mkRawBlock (Some 0)
    [Layout.mkLine [Layout.mkSpan (Some (lit s)) (Some size) None]] None.

Definition paper : Layout.Document :=
  [Layout.mkRawPage
     [raw_text "A Study" 20; raw_text " It begins." 10; raw_text "ACME" 8] [];
   Layout.mkRawPage
     [raw_text "It goes on." 10; raw_text "References" 20; raw_text "ACME" 8] [];
   Layout.mkRawPage
     [raw_text "[1] Doe." 10; raw_text "[2] Roe. " 10; raw_text "ACME" 8] []].

(** A source file of two pages whose text is set in size 0: two
    primitives on the first page, none on the second. *)
Definition zero_size_doc : Layout.Document :=
  [Layout.mkRawPage [raw_text "faint" 0; raw_text "print" 0] [];
   Layout.mkRawPage [] []].

(** Lower-casing of the ASCII letters, enough for the documents here. *)
Definition ascii_lower (s : pystr) : pystr :=
  map (fun c => if ((65 <=? c) && (c <=? 90))%N then (c + 32)%N else c) s.

(** A batch of three files of which the second is corrupt: [process_pdf]
    raises on it what [fitz.open] raises, an [Exception]. *)
Inductive raised := FileDataError | FileNotFoundError | KeyboardInterrupt.

Definition raised_is_Exception (e : raised) : bool :=
  match e with
  | FileDataError | FileNotFoundError => true
  | KeyboardInterrupt => false
  end.

(** An output directory that does not exist before the run and that no
    failing call makes. *)
Definition no_dir (output_dir : pystr) : bool := false.
Definition leaves_nothing (pdf output_dir : pystr) : bool := false.

Definition three_pdfs (input_dir : pystr) : list pystr :=
  [lit "a.pdf"; lit "b.pdf"; lit "c.pdf"].

Definition doc_named (name : string) : Batch.ProcessedDocument :=
  Batch.mkDoc (lit "id-" ++ lit name) (lit name) [] [] [] false.

Definition process_three (pdf output_dir : pystr)
  : Batch.result raised Batch.ProcessedDocument :=
  if eqb pdf (lit "b.pdf") then Batch.Raised FileDataError
  else if eqb pdf (lit "a.pdf") then Batch.Returned (doc_named "a.pdf")
  else Batch.Returned (doc_named "c.pdf").

(** [Path(p).stem] for the three names: the name without [.pdf]. *)
Definition stem4 (p : pystr) : pystr := firstn (List.length p - 4) p.

Definition slash_join (a b : pystr) : pystr := a ++ lit "/" ++ b.

Definition ascii_alnum (c : N) : bool :=
  ((48 <=? c) && (c <=? 57) || (65 <=? c) && (c <=? 90)
   || (97 <=? c) && (c <=? 122))%N.

Definition write_ok (path : pystr) (m : list Batch.entry)
  : Batch.result raised unit := Batch.Returned tt.

End Examples.

(* ------------------------------------------------------------------ *)
(** ** File names *)

Module FileName.

(** The test of the generator in [sanitize_filename]:
    [c.isalnum() or c in "._-"]. *)
Definition kept (isalnum : N -> bool) (c : N) : bool :=
  isalnum c || existsb (N.eqb c) (lit "._-").

(** Two PDFs of one input directory whose names differ only in a blank and
    an underscore. *)
Definition blank_pdf : pystr := lit "a b.pdf".
Definition underscore_pdf : pystr := lit "a_b.pdf".

End FileName.

(* ------------------------------------------------------------------ *)
(** ** What the block normalizer reads of a primitive *)

Module Spans.
Import Layout Normalizer.

(** [span.get("text", "")] and [span.get("font", "")]. *)
Definition span_text_or_empty (sp : Span) : pystr := opt_get (span_text sp) [].
Definition span_font_or_empty (sp : Span) : pystr := opt_get (span_font sp) [].

(** The texts of the spans of a primitive, concatenated in reading
    order. *)
Definition collected_text (b : RawBlock) : pystr :=
  List.concat (map span_text_or_empty (all_spans b)).

(** The page numbers [1 .. n]. *)
Definition page_numbers (n : nat) : list Z := map Z.of_nat (seq 1 n).

End Spans.

(* ------------------------------------------------------------------ *)
(** ** Sections as page ranges *)

Module Reading.

(** The section a heading block leaves behind when the next block is a
    heading too, or the document ends: its own text as the heading, no
    body, and its page as both ends of the range. *)
Definition bare_section (it : Segmenter.item) : Sec.t :=
  {| Sec.heading := strip (Segmenter.item_text it);
     Sec.text := [];
     Sec.start_page := Some (fst it);
     Sec.end_page := Some (fst it) |}.

(** The two ends of the page range of a section, when both are set. *)
Definition page_marks (s : Sec.t) : list Z :=
  match Sec.start_page s, Sec.end_page s with
  | Some a, Some b => [a; b]
  | _, _ => []
  end.

(** How many of the sizes are larger than [m]. *)
Definition larger (m : Q) (sizes : list Q) : Z :=
  len_nat (filter (Qltb m) sizes).

(** How many of the sizes are at most [x]. *)
Definition count_le (x : Q) (sizes : list Q) : nat :=
  List.length (filter (fun y => Qle_bool y x) sizes).

(** What [current] holds right after a heading block. *)
Definition opened_by (it : Segmenter.item) : Segmenter.current :=
  Segmenter.mkCurrent (Some (strip (Segmenter.item_text it))) []
                      (Some (fst it)) (Some (fst it)).

(** One page: a title in size 24 over eleven paragraphs in size 10. *)
Definition rare_heading_doc : list Page.t :=
  [Page.mk 1 (Examples.sized "Title" 24
              :: repeat (Examples.sized "Body text." 10) 11)].

(** One page: a blank line set in size 12 over a paragraph without any
    font size. *)
Definition blank_heading_doc : list Page.t :=
  [Page.mk 1 [Examples.sized " " 12; Examples.plain "text"]].

(** Two pages of three blocks in one font size. *)
Definition uniform_doc : list Page.t :=
  [Page.mk 1 [Examples.sized "Title" 12; Examples.sized "First paragraph." 12];
   Page.mk 2 [Examples.sized "Second paragraph." 12]].

End Reading.

(* ------------------------------------------------------------------ *)
(** ** The per-file pipeline: what [process_pdf] assembles *)

Module Pipeline.

(** [fitz_doc.metadata]: [None] or a dict of strings. *)
Definition MetadataDict := option (list (pystr * pystr)).

(** [d.get(key, default)] on a dict given by its items. *)
Fixpoint dict_get (d : list (pystr * pystr)) (key default : pystr) : pystr :=
  match d with
  | [] => default
  | (k, v) :: r => if eqb k key then v else dict_get r key default
  end.

(** [extract_metadata(fitz_doc)["title"]]: [md.get("title", "").strip()]
    with [md = fitz_doc.metadata or {}]. *)
Definition metadata_title (metadata : MetadataDict) : pystr :=
  strip (match metadata with
         | Some md => dict_get md (lit "title") []
         | None => []
         end).

(** The fields of [out] computed from the text of the file; [doc_id] is a
    fresh [uuid4], [tables] and [figures] come from the two extractors
    below. *)
Record Output := mkOutput {
  title : pystr;
  sections : list Sec.t;
  references : pystr;
  raw_text : pystr;
  needs_ocr : bool
}.

(** [b["text"] for p in pages_blocks for b in p["blocks"]]. *)
Definition block_texts (pages_blocks : list Page.t) : list pystr :=
  flat_map (fun p => map Block.text (Page.blocks p)) pages_blocks.

(** [full_text]. *)
Definition full_text (pages_blocks : list Page.t) : pystr :=
  join nl2 (block_texts pages_blocks).

(** [metadata.get("title") or
     (sections[0]["heading"] if sections else Path(path).stem)]. *)
Definition title_of (metadata_title : pystr) (sections : list Sec.t)
    (stem : pystr) : pystr :=
  if truthy metadata_title then metadata_title
  else match sections with
       | s :: _ => Sec.heading s
       | [] => stem
       end.

Section Process.

Variable lower : pystr -> pystr.

(** The text side of [process_pdf] on an opened file with metadata
    [metadata] and file stem [stem]; [None] stands for the exception of a
    page count beyond binary64. *)
Definition process_document (metadata : MetadataDict) (stem : pystr)
    (doc : Layout.Document) : option Output :=
  match Headers.filtered_pages doc with
  | Some pages_blocks =>
      let sections := Segmenter.detect_headings_and_sections pages_blocks in
      Some {| title := title_of (metadata_title metadata) sections stem;
              sections := sections;
              references := References.find_references lower pages_blocks;
              raw_text := full_text pages_blocks;
              needs_ocr := Ocr.needs_ocr_check (plain_texts doc) 3 |}
  | None => None
  end.

End Process.

(** A metadata dict whose title is blank. *)
Definition blank_title : MetadataDict :=
  Some [(lit "format", lit "PDF 1.7"); (lit "title", lit "  ")].

End Pipeline.

(* ------------------------------------------------------------------ *)
(** ** Table and image extractors *)

Module Artifacts.
Import Batch.

(** A table as [page.extract_tables()] returns it: rows of cells, a cell
    a string or [None]. *)
Definition Table := list (list (option pystr)).

(** An entry of [tables_meta]; [table_id] is a fresh [uuid4]. *)
Record TableMeta := mkTableMeta {
  table_page : Z;
  csv_path : pystr;
  rows : Z;
  cols : Z;
  raw : Table
}.

(** What [doc.extract_image(xref)] returns, as far as it is read. *)
Record BaseImage := mkBaseImage {
  image : list Byte.byte;
  image_ext : option pystr;
  width : option Z;
  height : option Z
}.

(** An entry of [images_meta]; [image_id] is a fresh [uuid4]. *)
Record ImageMeta := mkImageMeta {
  image_page : Z;
  image_path : pystr;
  ext : pystr;
  meta_width : option Z;
  meta_height : option Z
}.

(** [enumerate(xs, start)]. *)
Fixpoint enumerate {A} (start : Z) (xs : list A) : list (Z * A) :=
  match xs with
  | [] => []
  | x :: r => (start, x) :: enumerate (start + 1) r
  end.

(** A decimal digit. *)
Definition is_digit (c : N) : bool := ((48 <=? c) && (c <=? 57))%N.

Section Extractors.

Variable exn : Type.
Variable is_Exception : exn -> bool.

(** [str.isalnum] and [os.path.join]; the writes of the CSV and image
    files are taken to succeed. *)
Variable isalnum : N -> bool.
Variable path_join : pystr -> pystr -> pystr.

(** The f-string of the CSV file name; [stem] is [Path(path).stem]. *)
Definition table_fname (stem : pystr) (i tidx : Z) : pystr :=
  sanitize_filename isalnum stem ++ lit "_p" ++ str_of_int i
  ++ lit "_table" ++ str_of_int tidx ++ lit ".csv".

(** The f-string of the image file name. *)
Definition image_fname (stem : pystr) (page img_index : Z) (ext : pystr)
  : pystr :=
  sanitize_filename isalnum stem ++ lit "_p" ++ str_of_int page
  ++ lit "_img" ++ str_of_int img_index ++ lit "." ++ ext.

(** Body of [for tidx, table in enumerate(page_tables, start=1)]. *)
Definition table_entry (stem output_dir : pystr) (i : Z) (it : Z * Table)
  : TableMeta :=
  {| table_page := i;
     csv_path := path_join (path_join output_dir (lit "tables"))
                           (table_fname stem i (fst it));
     rows := len_nat (snd it);
     cols := match snd it with
             | [] => 0
             | row :: _ => len_nat row
             end;
     raw := snd it |}.

(** The [try] around [page.extract_tables()]: an [Exception] is logged and
    the page counts as a page without tables. *)
Definition page_tables (outcome : result exn (list Table))
  : result exn (list Table) :=
  match outcome with
  | Returned ts => Returned ts
  | Raised e => if is_Exception e then Returned [] else Raised e
  end.

(** One iteration of [for i, page in enumerate(pdf.pages, start=1)]. *)
Definition tables_page_step (stem output_dir : pystr)
    (st : result exn (list TableMeta))
    (ip : Z * result exn (list Table)) : result exn (list TableMeta) :=
  match st with
  | Raised e => Raised e
  | Returned tables_meta =>
      match page_tables (snd ip) with
      | Returned ts =>
          Returned (tables_meta
                    ++ map (table_entry stem output_dir (fst ip))
                           (enumerate 1 ts))
      | Raised e => Raised e
      end
  end.

(** [extract_tables(path, output_dir)] on the opened file: per page, what
    [page.extract_tables()] does. *)
Definition extract_tables (stem output_dir : pystr)
    (pages : list (result exn (list Table)))
  : result exn (list TableMeta) :=
  fold_left (tables_page_step stem output_dir) (enumerate 1 pages)
            (Returned []).

(** Body of [for img_index, img in enumerate(image_list, start=1)];
    [pageno] counts from 0. *)
Definition image_step (stem output_dir : pystr) (pageno : Z)
    (st : result exn (list ImageMeta))
    (it : Z * result exn BaseImage) : result exn (list ImageMeta) :=
  match st with
  | Raised e => Raised e
  | Returned images_meta =>
      match snd it with
      | Returned base_image =>
          let ext := Normalizer.opt_get (image_ext base_image) (lit "png") in
          Returned
            (images_meta
             ++ [{| image_page := pageno + 1;
                    image_path :=
                      path_join (path_join output_dir (lit "images"))
                                (image_fname stem (pageno + 1) (fst it) ext);
                    ext := ext;
                    meta_width := width base_image;
                    meta_height := height base_image |}])
      | Raised e => Raised e
      end
  end.

(** One iteration of [for pageno in range(doc.page_count)]; the page is
    given by what [doc.extract_image] does on each image of its list. *)
Definition images_page_step (stem output_dir : pystr)
    (st : result exn (list ImageMeta))
    (ip : Z * list (result exn BaseImage)) : result exn (list ImageMeta) :=
  fold_left (image_step stem output_dir (fst ip)) (enumerate 1 (snd ip)) st.

(** [extract_images(path, output_dir)]. *)
Definition extract_images (stem output_dir : pystr)
    (pages : list (list (result exn BaseImage)))
  : result exn (list ImageMeta) :=
  fold_left (images_page_step stem output_dir) (enumerate 0 pages)
            (Returned []).

(** The tables of a page with their page number, none for a page whose
    extraction failed. *)
Definition tables_of_page (ip : Z * result exn (list Table))
  : list (Z * Table) :=
  match snd ip with
  | Returned ts => map (pair (fst ip)) ts
  | Raised _ => []
  end.

End Extractors.

(** A call that returned. *)
Definition returned {E A} (o : result E A) : bool :=
  match o with
  | Returned _ => true
  | Raised _ => false
  end.

(** Three pages: one table, a page on which pdfplumber fails, two
    tables. *)
Definition cell (s : string) : option pystr := Some (lit s).

Definition three_pages
  : list (result Examples.raised (list Table)) :=
  [Returned [[[cell "a"; cell "b"]]];
   Raised Examples.FileDataError;
   Returned [[[cell "c"]]; [[cell "d"]; [None]]]].

(** Two pages of images; the second image of the second page cannot be
    extracted. *)
Definition png : BaseImage := mkBaseImage [] (Some (lit "png")) None None.

Definition two_image_pages
  : list (list (result Examples.raised BaseImage)) :=
  [[Returned png];
   [Returned png; Raised Examples.FileDataError; Returned png]].

End Artifacts.

(* ------------------------------------------------------------------ *)
(** ** Uploaded files: [process_uploaded_pdfs] of pdf_ingest.py *)

Module Upload.
Import Batch.

(** A Streamlit [UploadedFile]: [file.name] and [file.getbuffer()]. *)
Record UploadedFile := mkUpload {
  name : pystr;
  buffer : list Byte.byte
}.

Definition DATA_DIR : pystr := lit "Data/processed".

Section Uploads.

Variable exn : Type.

(** [process_pdf] on the file just written: it reads the bytes saved under
    [pdf_path]; and [os.path.join].  The write of the upload itself is
    taken to succeed. *)
Variable process_pdf :
  list Byte.byte -> pystr -> pystr -> result exn ProcessedDocument.
Variable path_join : pystr -> pystr -> pystr.

(** What a run leaves on disk, and what it returns. *)
Record run := mkRun {
  saved : list (pystr * list Byte.byte);
  outcome : result exn (list ProcessedDocument)
}.

(** Body of [for file in uploaded_files]: nothing catches what
    [process_pdf] raises. *)
Definition upload_step (st : run) (file : UploadedFile) : run :=
  match outcome st with
  | Raised e => st
  | Returned outputs =>
      let pdf_path := path_join DATA_DIR (name file) in
      let saved' := saved st ++ [(pdf_path, buffer file)] in
      match process_pdf (buffer file) pdf_path DATA_DIR with
      | Returned out => mkRun saved' (Returned (outputs ++ [out]))
      | Raised e => mkRun saved' (Raised e)
      end
  end.

(** [process_uploaded_pdfs(uploaded_files)]. *)
Definition process_uploaded_pdfs (uploaded_files : list UploadedFile) : run :=
  fold_left upload_step uploaded_files (mkRun [] (Returned [])).

(** The file an upload is saved as. *)
Definition saved_as (file : UploadedFile) : pystr * list Byte.byte :=
  (path_join DATA_DIR (name file), buffer file).

End Uploads.

(** Three uploads of which the second is not a PDF. *)
Definition upload (s : string) (bytes : list Byte.byte) : UploadedFile :=
  mkUpload (lit s) bytes.

Definition three_uploads : list UploadedFile :=
  [upload "a.pdf" [Byte.x25]; upload "b.pdf" []; upload "c.pdf" [Byte.x25]].

Definition process_bytes (bytes : list Byte.byte) (pdf_path output_dir : pystr)
  : result Examples.raised ProcessedDocument :=
  match bytes with
  | [] => Raised Examples.FileDataError
  | _ => Returned (mkDoc (lit "id") pdf_path [] [] [] false)
  end.

(** A batch of three files during whose second the run is interrupted. *)
Definition process_interrupted (pdf output_dir : pystr)
  : result Examples.raised ProcessedDocument :=
  if eqb pdf (lit "b.pdf") then Raised Examples.KeyboardInterrupt
  else Returned (mkDoc (lit "id") pdf [] [] [] false).

End Upload.

(* ------------------------------------------------------------------ *)
(** ** Text chunker: [chunk_text] of index_documents.py *)

Module Chunker.

(** The separator [". "]. *)
Definition dot_space : pystr := lit ". ".

(** [text.split(". ")]: the pieces between the occurrences of the
    separator, found from the left and not overlapping. *)
Fixpoint split_sentences (text : pystr) : list pystr :=
  match text with
  | [] => [[]]
  | c :: r =>
      match r with
      | d :: r' =>
          if ((c =? 46) && (d =? 32))%N then [] :: split_sentences r'
          else match split_sentences r with
               | h :: t => (c :: h) :: t
               | [] => [[c]]
               end
      | [] => [[c]]
      end
  end.

(** Loop state: [chunks] and [current]. *)
Definition state : Type := list pystr * pystr.

(** [chunks, current = [], ""]. *)
Definition state0 : state := (@nil pystr, @nil N : pystr).

(** Body of [for sent in sentences]. *)
Definition chunk_step (max_tokens : Z) (st : state) (sent : pystr) : state :=
  let '(chunks, current) := st in
  if len current + len sent <? max_tokens
  then (chunks, current ++ (sent ++ dot_space))
  else (chunks ++ [strip current], sent ++ dot_space).

(** [chunk_text(text, max_tokens)]. *)
Definition chunk_text (text : pystr) (max_tokens : Z) : list pystr :=
  let '(chunks, current) :=
    fold_left (chunk_step max_tokens) (split_sentences text) state0 in
  if truthy current then chunks ++ [strip current] else chunks.

(** A text of three sentences, the first of thirty characters. *)
Definition three_sentences : pystr :=
  Examples.filler 30 ++ lit ". Second one. Third".

End Chunker.

(* ================================================================== *)
(** * Properties *)

(* ------------------------------------------------------------------ *)
(** ** Scanned-document heuristic *)

Section OcrFacts.
Import Ocr.

Lemma count_page_fold (pages : list pystr) (a : Z) :
  fold_left count_page pages a = a + len_nat (filter near_empty pages).
Proof.
  revert a; induction pages as [|t r IH]; intros a; simpl.
  - unfold len_nat; simpl; lia.
  - rewrite IH. unfold count_page, near_empty.
    destruct (len (strip t) <? 50); unfold len_nat; simpl List.length; lia.
Qed.

Lemma sample_of_three (doc : PlainDoc) :
  firstn (Z.to_nat (Z.min 3 (len_nat doc))) doc = firstn 3 doc.
Proof.
  unfold len_nat.
  destruct doc as [|a [|b [|c r]]]; try reflexivity.
  replace (Z.to_nat _) with 3%nat; [reflexivity|].
  simpl List.length. lia.
Qed.

Lemma sample_threshold_is_one (n : Z) :
  1 <= n -> Z.max 1 (Z.min 3 n / 2) = 1.
Proof.
  intros Hn.
  assert (H : Z.min 3 n = 1 \/ Z.min 3 n = 2 \/ Z.min 3 n = 3) by lia.
  destruct H as [-> | [-> | ->]]; reflexivity.
Qed.

(** C10: a document without pages is never flagged, whatever the sample
    count: nothing is sampled, the count of empty pages is 0 and the
    threshold is at least 1. *)
Theorem needs_ocr_check_no_pages :
  forall page_sample_count : Z,
    needs_ocr_check [] page_sample_count = false.
Proof.
  intros k. unfold needs_ocr_check.
  rewrite firstn_nil. simpl fold_left.
  apply Z.leb_gt. lia.
Qed.

(** C1, as the code has it: with [sample = min(3, page_count)] and a page
    counted as empty when its trimmed text is shorter than 50 characters,
    the flag is raised exactly when the count of empty sampled pages is at
    least [max(1, sample // 2)]; that threshold is 1 for every non-empty
    document, so the flag is raised exactly when at least one sampled page
    is near-empty, as it is for six pages with one near-empty page among
    the three sampled. *)
Theorem needs_ocr_check_threshold :
  forall doc : PlainDoc,
    let sample := Z.min 3 (len_nat doc) in
    let sampled := firstn (Z.to_nat sample) doc in
    let empties := len_nat (filter near_empty sampled) in
    sampled = firstn 3 doc /\
    (needs_ocr_check doc 3 = true <-> Z.max 1 (sample / 2) <= empties) /\
    (needs_ocr_check doc 3 = true <-> 1 <= empties) /\
    (List.length doc = 6%nat -> empties = 1 ->
     needs_ocr_check doc 3 = true).
Proof.
  intros doc sample sampled empties.
  assert (Hcheck : needs_ocr_check doc 3 = (Z.max 1 (sample / 2) <=? empties)).
  { unfold needs_ocr_check. fold (len_nat doc). fold sample. fold sampled.
    rewrite count_page_fold. reflexivity. }
  split; [apply sample_of_three|].
  assert (Hone : needs_ocr_check doc 3 = true <-> 1 <= empties).
  { rewrite Hcheck, Z.leb_le.
    destruct doc as [|t r].
    - subst empties sampled sample. unfold len_nat. simpl. lia.
    - assert (H1 : Z.max 1 (sample / 2) = 1).
      { apply sample_threshold_is_one. unfold len_nat. simpl List.length. lia. }
      rewrite H1. reflexivity. }
  split; [rewrite Hcheck; apply Z.leb_le|].
  split; [exact Hone|].
  intros _ H1. apply Hone. lia.
Qed.

(** C1, the spec's instance refuted: six pages, exactly one of the three
    sampled pages near-empty, and the document is flagged. *)
Lemma needs_ocr_one_of_three_flagged :
  List.length Examples.ocr_doc6 = 6%nat /\
  map near_empty (firstn 3 Examples.ocr_doc6) = [true; false; false] /\
  needs_ocr_check Examples.ocr_doc6 3 = true.
Proof.
  repeat split; vm_compute; reflexivity.
Qed.

End OcrFacts.

(* ------------------------------------------------------------------ *)
(** ** Trimming *)

Section StripFacts.

Lemma lstrip_idem (s : pystr) : lstrip (lstrip s) = lstrip s.
Proof.
  induction s as [|c r IH]; simpl; [reflexivity|].
  destruct (isspace c) eqn:E; [exact IH|].
  simpl. rewrite E. reflexivity.
Qed.

Lemma lstrip_snoc (s : pystr) (c : N) :
  isspace c = false -> lstrip (s ++ [c]) = lstrip s ++ [c].
Proof.
  intros Hc. induction s as [|d r IH]; simpl.
  - rewrite Hc. reflexivity.
  - destruct (isspace d); [exact IH | reflexivity].
Qed.

Lemma lstrip_fixed_cases (s : pystr) :
  lstrip s = s -> s = [] \/ exists c r, s = c :: r /\ isspace c = false.
Proof.
  destruct s as [|c r]; [now left|]. intros H. right.
  exists c, r. split; [reflexivity|].
  destruct (isspace c) eqn:E; [|reflexivity].
  simpl in H. rewrite E in H.
  assert (Hlen : forall t, (List.length (lstrip t) <= List.length t)%nat).
  { induction t as [|d t' IHt]; simpl; [lia|].
    destruct (isspace d); simpl; lia. }
  specialize (Hlen r). rewrite H in Hlen. simpl in Hlen. lia.
Qed.

Lemma lstrip_head (c : N) (r : pystr) :
  isspace c = false -> lstrip (c :: r) = c :: r.
Proof. intros H. simpl. rewrite H. reflexivity. Qed.

Lemma strip_trimmed (s : pystr) : trimmed (strip s).
Proof.
  unfold trimmed, strip, rstrip. split.
  - pose proof (lstrip_idem s) as Hi.
    destruct (lstrip_fixed_cases _ Hi) as [-> | (c & r & Hs & Hc)];
      [reflexivity|].
    rewrite Hs. simpl rev. rewrite lstrip_snoc by exact Hc.
    rewrite rev_app_distr. simpl. rewrite Hc. reflexivity.
  - rewrite rev_involutive. apply lstrip_idem.
Qed.

Lemma strip_of_trimmed (s : pystr) : trimmed s -> strip s = s.
Proof.
  intros [H1 H2]. unfold strip, rstrip.
  rewrite H1, H2. apply rev_involutive.
Qed.

Lemma strip_idem (s : pystr) : strip (strip s) = strip s.
Proof. apply strip_of_trimmed, strip_trimmed. Qed.

Lemma trimmed_nil : trimmed [].
Proof. split; reflexivity. Qed.

(** Gluing two non-empty trimmed strings around anything gives a trimmed
    string. *)
Lemma trimmed_app (a m b : pystr) :
  trimmed a -> a <> [] -> trimmed b -> b <> [] -> trimmed (a ++ m ++ b).
Proof.
  intros [Ha _] Hane [_ Hb] Hbne. split.
  - destruct (lstrip_fixed_cases _ Ha) as [-> | (c & r & -> & Hc)];
      [contradiction|].
    simpl. rewrite Hc. reflexivity.
  - assert (Hrb : rev b <> []).
    { intros E. apply Hbne. rewrite <- (rev_involutive b), E. reflexivity. }
    destruct (lstrip_fixed_cases _ Hb) as [E | (c & r & E & Hc)];
      [contradiction|].
    rewrite !rev_app_distr, E. simpl. rewrite Hc. reflexivity.
Qed.

Lemma join_trimmed (xs : list pystr) :
  Forall (fun x => trimmed x /\ x <> []) xs ->
  trimmed (join nl2 xs) /\ (xs <> [] -> join nl2 xs <> []).
Proof.
  induction 1 as [|x r [Hx Hne] Hr IH].
  - split; [apply trimmed_nil | congruence].
  - destruct r as [|y r'].
    + simpl. split; [exact Hx | intros _; exact Hne].
    + destruct IH as [IH1 IH2].
      assert (Hj : join nl2 (y :: r') <> []) by (apply IH2; congruence).
      split.
      * change (join nl2 (x :: y :: r')) with (x ++ nl2 ++ join nl2 (y :: r')).
        apply trimmed_app; assumption.
      * intros _.
        change (join nl2 (x :: y :: r')) with (x ++ nl2 ++ join nl2 (y :: r')).
        destruct x; [contradiction | discriminate].
Qed.

End StripFacts.

(* ------------------------------------------------------------------ *)
(** ** Block normalizer *)

Section NormalizerFacts.
Import Layout Normalizer.


Lemma span_fold_text (sps : list Span) (a : acc) :
  block_text (fold_left span_step sps a)
  = block_text a ++ List.concat (map (fun sp => opt_get (span_text sp) []) sps).
Proof.
  revert a; induction sps as [|sp r IH]; intros a; simpl.
  - now rewrite app_nil_r.
  - rewrite IH. simpl. now rewrite <- app_assoc.
Qed.

Lemma line_fold_spans (ls : list Line) (a : acc) :
  fold_left line_step ls a = fold_left span_step (flat_map spans ls) a.
Proof.
  revert a; induction ls as [|l r IH]; intros a; simpl; [reflexivity|].
  rewrite fold_left_app. apply IH.
Qed.


Lemma scan_block_text (b : RawBlock) :
  block_text (scan_block b)
  = List.concat (map (fun sp => opt_get (span_text sp) []) (all_spans b)).
Proof.
  unfold scan_block, all_spans.
  rewrite line_fold_spans, span_fold_text. reflexivity.
Qed.



(** What [normalize_block] keeps has trimmed, non-empty text. *)
Lemma normalize_block_text (b : RawBlock) (blk : Block.t) :
  normalize_block b = Some blk ->
  trimmed (Block.text blk) /\ Block.text blk <> [].
Proof.
  unfold normalize_block.
  destruct (type b) as [[| |]|]; try discriminate.
  destruct (truthy (strip (block_text (scan_block b)))) eqn:E; [|discriminate].
  intros H; injection H as <-. simpl. split; [apply strip_trimmed|].
  intros H0. rewrite H0 in E. discriminate.
Qed.

Lemma normalize_blocks_In (bs : list RawBlock) (blk : Block.t) :
  In blk (normalize_blocks bs) ->
  exists b, In b bs /\ normalize_block b = Some blk.
Proof.
  induction bs as [|b r IH]; simpl; [contradiction|].
  destruct (normalize_block b) as [k|] eqn:E.
  - intros [<- | H]; [exists b; auto|].
    destruct (IH H) as (b' & Hin & Hb'). exists b'; auto.
  - intros H. destruct (IH H) as (b' & Hin & Hb'). exists b'; auto.
Qed.




End NormalizerFacts.

(* ------------------------------------------------------------------ *)
(** ** The binary64 product [0.3 * n] *)

Section Binary64Facts.
Import Headers.

(** [iter_pos f p] applies [f] the number [p] of times. *)
Lemma iter_pos_nat {A} (f : A -> A) (p : positive) (x : A) :
  iter_pos f p x = Nat.iter (Pos.to_nat p) f x.
Proof.
  revert x; induction p as [p IH | p IH |]; intros x; cbn [iter_pos].
  - rewrite !IH, Pos2Nat.inj_xI, <- Nat.iter_succ_r, <- Nat.iter_add.
    f_equal. lia.
  - rewrite !IH, Pos2Nat.inj_xO, <- Nat.iter_add. f_equal. lia.
  - reflexivity.
Qed.

(** One shift to the right: the mantissa is halved, the bit that falls
    out becomes the round bit, the old round bit joins the sticky bit. *)
Lemma shr_1_spec (m : Z) (r s : bool) :
  0 <= m ->
  exists a c, shr_1 (Build_shr_record m r s) = Build_shr_record a c (r || s)
              /\ m = 2 * a + b2z c /\ 0 <= a.
Proof.
  intros Hm. destruct m as [|p|p]; [| |lia].
  - exists 0, false. repeat split; simpl; lia.
  - destruct p as [p|p|].
    + exists (Zpos p), true. repeat split; simpl; lia.
    + exists (Zpos p), false. repeat split; simpl; lia.
    + exists 0, true. repeat split; simpl; lia.
Qed.

(** After [k] shifts of [m]: the quotient by [2^k], the round bit of
    weight [2^(k-1)], and below it a rest that is non-zero exactly when
    the sticky bit is set. *)
Lemma shr_iter_spec (m : Z) (k : nat) :
  0 <= m ->
  let rec := Nat.iter k shr_1 (Build_shr_record m false false) in
  exists low,
    2 * m = shr_m rec * 2 ^ (Z.of_nat k + 1)
            + b2z (shr_r rec) * 2 ^ Z.of_nat k + low /\
    0 <= low < 2 ^ Z.of_nat k /\
    (shr_s rec = true <-> low <> 0) /\
    0 <= shr_m rec.
Proof.
  intros Hm. induction k as [|k IH].
  - cbn [Nat.iter nat_rect shr_m shr_r shr_s b2z Z.of_nat].
    change (2 ^ (0 + 1)) with 2. change (2 ^ 0) with 1.
    exists 0. split; [lia|]. split; [lia|]. split; [|lia].
    split; [discriminate | congruence].
  - cbv zeta in *. destruct IH as (low & Heq & Hlow & Hs & Ha).
    rewrite Nat.iter_succ.
    destruct (Nat.iter k shr_1 _) as [a r s]. cbn [shr_m shr_r shr_s] in *.
    destruct (shr_1_spec a r s Ha) as (a' & c & -> & Hac & Ha').
    cbn [shr_m shr_r shr_s]. exists (b2z r * 2 ^ Z.of_nat k + low).
    replace (Z.of_nat (S k) + 1) with (Z.of_nat k + 1 + 1) by lia.
    replace (Z.of_nat (S k)) with (Z.of_nat k + 1) by lia.
    rewrite !Z.pow_add_r by lia. rewrite !Z.pow_add_r in Heq by lia.
    change (2 ^ 1) with 2 in *.
    assert (Hp : 0 < 2 ^ Z.of_nat k) by (apply Z.pow_pos_nonneg; lia).
    split; [rewrite Heq, Hac; ring|].
    split; [destruct r; unfold b2z; lia|].
    split; [|lia].
    destruct r, s; unfold b2z, orb; split; intros H; try reflexivity; try lia.
Qed.

(** [digits2_pos] is the bit length. *)
Lemma digits2_log2 (p : positive) :
  Zpos (digits2_pos p) = Z.log2 (Zpos p) + 1.
Proof.
  assert (Hsize : forall q, digits2_pos q = Pos.size q).
  { induction q; simpl; congruence. }
  destruct p; simpl; rewrite ?Hsize; lia.
Qed.

Lemma digits2_bounds (p : positive) :
  2 ^ (Zpos (digits2_pos p) - 1) <= Zpos p < 2 ^ Zpos (digits2_pos p).
Proof.
  rewrite digits2_log2.
  replace (Z.log2 (Z.pos p) + 1 - 1) with (Z.log2 (Zpos p)) by lia.
  apply Z.log2_spec. lia.
Qed.

Lemma digits2_unique (p : positive) (d : Z) :
  2 ^ (d - 1) <= Zpos p < 2 ^ d -> 1 <= d -> Zpos (digits2_pos p) = d.
Proof.
  intros H Hd. rewrite digits2_log2.
  rewrite (Z.log2_unique (Zpos p) (d - 1)); [lia | lia|].
  now replace (Z.succ (d - 1)) with d by lia.
Qed.

(** Rounding the exact value [P * 2^e], [P] of more than 53 bits, to
    binary64 and truncating the result to an integer: [P] loses its low
    [s] bits, the 53-bit quotient [a] is kept or incremented as the lost
    part [rho] is below or above the half, and [int] divides what remains
    by [2^-(e+s)]. *)
Lemma round_then_truncate (P : positive) (e : Z) :
  let s := Zpos (digits2_pos P) - 53 in
  1 <= s -> -1074 <= e + s -> e + s < 0 ->
  exists a rho m,
    2 * Zpos P = a * 2 ^ (s + 1) + rho /\
    0 <= rho < 2 ^ (s + 1) /\
    (m = a \/ m = a + 1) /\
    (m = a + 1 -> 2 ^ s <= rho) /\
    (2 ^ s < rho -> m = a + 1) /\
    2 ^ 52 <= a < 2 ^ 53 /\
    int_of_float (binary_round_aux prec emax false (Zpos P) e loc_Exact)
    = Some (m / 2 ^ (- (e + s))).
Proof.
  intros s Hs Hlo Hhi.
  pose proof (digits2_bounds P) as HD.
  set (D := Zpos (digits2_pos P)) in *.
  unfold binary_round_aux, shr_fexp.
  cbn [Zdigits2 shr_record_of_loc]. fold D.
  assert (Hfexp : fexp prec emax (D + e) - e = s).
  { unfold fexp, emin, prec, emax. subst s. lia. }
  rewrite Hfexp.
  destruct s as [|ps|ps] eqn:Es; [lia| |lia].
  cbn [shr]. rewrite iter_pos_nat.
  destruct (shr_iter_spec (Zpos P) (Pos.to_nat ps) ltac:(lia))
    as (low & Heq & Hlow & Hst & Ha).
  rewrite positive_nat_Z in *.
  destruct (Nat.iter (Pos.to_nat ps) shr_1 _) as [a r st].
  cbn [shr_m shr_r shr_s] in *.
  set (X := 2 ^ Zpos ps) in *.
  assert (HX : 0 < X) by (apply Z.pow_pos_nonneg; lia).
  assert (HXX : 2 ^ (Zpos ps + 1) = 2 * X).
  { unfold X. rewrite Z.pow_add_r by lia. change (2 ^ 1) with 2. lia. }
  rewrite HXX in *.
  assert (HDs : D = Zpos ps + 53) by lia.
  assert (HP : 2 ^ 52 * X <= Zpos P < 2 ^ 53 * X).
  { replace (D - 1) with (52 + Zpos ps) in HD by lia.
    rewrite HDs in HD. rewrite (Z.add_comm (Zpos ps) 53) in HD.
    rewrite !Z.pow_add_r in HD by lia. exact HD. }
  assert (Harange : 2 ^ 52 <= a < 2 ^ 53).
  { change (2 ^ 52) with 4503599627370496 in *.
    change (2 ^ 53) with 9007199254740992 in *.
    destruct r; unfold b2z in Heq; nia. }
  set (m := round_nearest_even a (loc_of_shr_record (Build_shr_record a r st))).
  assert (Hm : (m = a \/ m = a + 1) /\ (m = a + 1 -> r = true) /\
               (r = true -> st = true -> m = a + 1)).
  { unfold m, loc_of_shr_record, round_nearest_even.
    destruct r, st; try destruct (Z.even a); repeat split; intros; auto; lia. }
  destruct Hm as (Hm1 & Hm2 & Hm3).
  exists a, (b2z r * X + low), m.
  split; [lia|]. split; [destruct r; unfold b2z; lia|].
  split; [exact Hm1|].
  split; [intros H; rewrite (Hm2 H); unfold b2z; lia|].
  split.
  { intros H. destruct r; [|unfold b2z in H; lia].
    apply Hm3; [reflexivity|]. apply Hst. unfold b2z in H. lia. }
  split; [exact Harange|].
  cbv iota beta zeta. fold m.
  assert (Hmr : 2 ^ 52 <= m <= 2 ^ 53) by lia.
  clearbody m. clear Hm1 Hm2 Hm3.
  set (e' := e + Zpos ps) in *.
  destruct (Z.eq_dec m (2 ^ 53)) as [-> | Hne].
  - (* the mantissa overflowed to 2^53: one more shift *)
    change (Zdigits2 (2 ^ 53)) with 54.
    replace (fexp prec emax (54 + e') - e') with 1
      by (unfold fexp, emin, prec, emax; lia).
    cbn [shr iter_pos]. change (shr_1 _) with (Build_shr_record (2 ^ 52) false false).
    cbn [shr_m]. change (2 ^ 52) with (Zpos (2 ^ 52)).
    cbv iota.
    replace (e' + 1 <=? emax - prec) with true
      by (symmetry; apply Z.leb_le; unfold emax, prec; lia).
    unfold int_of_float, cond_Zopp. f_equal.
    destruct (0 <=? e' + 1) eqn:E.
    + apply Z.leb_le in E. replace e' with (-1) by lia. reflexivity.
    + apply Z.leb_gt in E.
      replace (- e') with (1 + - (e' + 1)) by lia.
      rewrite Z.pow_add_r by lia. change (2 ^ 1) with 2.
      change (2 ^ 53) with (2 * 2 ^ 52).
      rewrite Z.div_mul_cancel_l; [reflexivity| |lia].
      apply Z.pow_nonzero; lia.
  - destruct m as [|pm|pm]; [lia| |lia].
    assert (Hd : Zpos (digits2_pos pm) = 53)
      by (apply digits2_unique; [change (53 - 1) with 52|]; lia).
    cbn [Zdigits2]. rewrite Hd.
    replace (fexp prec emax (53 + e') - e') with 0
      by (unfold fexp, emin, prec, emax; lia).
    cbn [shr shr_m]. cbv iota.
    replace (e' <=? emax - prec) with true
      by (symmetry; apply Z.leb_le; unfold emax, prec; lia).
    unfold int_of_float, cond_Zopp.
    replace (0 <=? e') with false by (symmetry; apply Z.leb_gt; lia).
    reflexivity.
Qed.

(** The arithmetic of the truncation, on the scaled quantities
    [n' = n * A], [K' = k * A], [R' = r * A] and [W = k * Q] where
    [3 n = 10 k + r]: since [10 * M03 = 3 * 2^54 - 2], the rounded
    mantissa [m] lies in [[W, W + Q)]. *)
Lemma truncation_window (S n' K' R' A Q W a rho m : Z) :
  S = 2 ^ 52 \/ S = 2 ^ 53 ->
  3 * n' = 10 * K' + R' ->
  R' = 0 \/ (A <= R' <= 9 * A) ->
  K' * 2 ^ 54 = S * W ->
  A * 2 ^ 54 = S * Q ->
  2 * (M03 * n') = a * (2 * S) + rho ->
  0 <= rho < 2 * S ->
  (m = a \/ m = a + 1) ->
  (m = a + 1 -> S <= rho) ->
  (S < rho -> m = a + 1) ->
  A <= n' < 2 ^ 53 -> 1 <= A -> 32 <= Q ->
  W <= m < W + Q.
Proof.
  unfold M03.
  change (2 ^ 52) with 4503599627370496.
  change (2 ^ 53) with 9007199254740992.
  change (2 ^ 54) with 18014398509481984.
  intros [-> | ->] H1 H2 H3 H4 H5 H6 H7 H8 H9 H10 H11 H12.
  - lia.
  - lia.
Qed.

(** [shl_align] shifts the mantissa to the left. *)
Lemma iter_xO (p k : positive) :
  Zpos (Pos.iter xO p k) = Zpos p * 2 ^ Zpos k.
Proof.
  induction k as [|k IH] using Pos.peano_ind.
  - simpl. lia.
  - rewrite Pos.iter_succ, Pos2Z.inj_xO, IH, Pos2Z.inj_succ.
    rewrite Z.pow_succ_r by lia. ring.
Qed.

(** A 53-bit mantissa is rounded to itself. *)
Lemma round_53_bits (m : positive) (e : Z) :
  Zpos (digits2_pos m) = 53 -> -1074 <= e <= 971 ->
  binary_round_aux prec emax false (Zpos m) e loc_Exact
  = S754_finite false m e.
Proof.
  intros Hd He. unfold binary_round_aux, shr_fexp.
  cbn [Zdigits2 shr_record_of_loc]. rewrite Hd.
  replace (fexp prec emax (53 + e) - e) with 0
    by (unfold fexp, emin, prec, emax; lia).
  cbn [shr shr_m loc_of_shr_record round_nearest_even Zdigits2
       shr_record_of_loc].
  rewrite Hd.
  replace (fexp prec emax (53 + e) - e) with 0
    by (unfold fexp, emin, prec, emax; lia).
  cbn [shr shr_m].
  replace (e <=? emax - prec) with true
    by (symmetry; apply Z.leb_le; unfold emax, prec; lia).
  reflexivity.
Qed.

(** [float(n)] of a positive integer of fewer than 53 bits: the integer
    itself, with its mantissa normalised to 53 bits. *)
Lemma float_of_int_pos (p : positive) :
  let d := Zpos (digits2_pos p) in
  d < 53 ->
  exists N, float_of_int (Zpos p) = S754_finite false N (d - 53) /\
            Zpos N = Zpos p * 2 ^ (53 - d) /\
            2 ^ 52 <= Zpos N < 2 ^ 53.
Proof.
  intros d Hd. pose proof (digits2_bounds p) as Hb. fold d in Hb.
  unfold float_of_int, binary_normalize, binary_round, shl_align.
  replace (fexp prec emax (Zpos (digits2_pos p) + 0)) with (d - 53)
    by (unfold fexp, emin, prec, emax; fold d; lia).
  assert (Hd1 : 1 <= d) by (unfold d; lia).
  destruct (d - 53 - 0) as [|k|k] eqn:Ek; [lia | lia |].
  exists (Pos.iter xO p k).
  assert (Hk : Zpos k = 53 - d) by lia.
  assert (HN : Zpos (Pos.iter xO p k) = Zpos p * 2 ^ (53 - d))
    by (rewrite iter_xO, Hk; reflexivity).
  assert (Hr : 2 ^ 52 <= Zpos (Pos.iter xO p k) < 2 ^ 53).
  { rewrite HN.
    assert (H52 : 2 ^ 52 = 2 ^ (d - 1) * 2 ^ (53 - d))
      by (rewrite <- Z.pow_add_r by lia; f_equal; lia).
    assert (H53 : 2 ^ 53 = 2 ^ d * 2 ^ (53 - d))
      by (rewrite <- Z.pow_add_r by lia; f_equal; lia).
    rewrite H52, H53.
    assert (0 < 2 ^ (53 - d)) by (apply Z.pow_pos_nonneg; lia).
    split; [apply Z.mul_le_mono_nonneg_r | apply Z.mul_lt_mono_pos_r]; lia. }
  split; [|split; assumption].
  apply round_53_bits; [|lia].
  apply digits2_unique; [exact Hr | lia].
Qed.

(** [int(0.3 * n)] in binary64 is the exact [floor(3 n / 10)] for every
    page count below 2^49. *)
Lemma int_03_floor (n : Z) :
  0 <= n < 2 ^ 49 ->
  int_of_float (SFmul prec emax f03 (float_of_int n)) = Some (3 * n / 10).
Proof.
  intros Hn. destruct n as [|p|p]; [reflexivity | | lia].
  pose proof (digits2_bounds p) as Hb.
  set (d := Zpos (digits2_pos p)) in *.
  assert (Hd : 1 <= d <= 49).
  { split; [unfold d; lia|].
    destruct (Z_le_gt_dec d 49) as [H | H]; [exact H|].
    assert (2 ^ 49 <= 2 ^ (d - 1)) by (apply Z.pow_le_mono_r; lia). lia. }
  destruct (float_of_int_pos p ltac:(fold d; lia)) as (N & -> & HN & HNr).
  fold d in HN |- *.
  unfold f03. cbn [SFmul xorb].
  set (P := (5404319552844595 * N)%positive).
  pose proof (digits2_bounds P) as HPb.
  set (D := Zpos (digits2_pos P)) in *.
  assert (HP : 2 ^ 104 <= Zpos P < 2 ^ 106).
  { unfold P. rewrite Pos2Z.inj_mul.
    change (2 ^ 52) with 4503599627370496 in HNr.
    change (2 ^ 53) with 9007199254740992 in HNr.
    change (2 ^ 104) with 20282409603651670423947251286016.
    change (2 ^ 106) with 81129638414606681695789005144064. lia. }
  assert (HD : D = 105 \/ D = 106).
  { assert (1 <= D) by (unfold D; lia).
    destruct (Z_le_gt_dec D 104) as [H1 | H1].
    - assert (2 ^ D <= 2 ^ 104) by (apply Z.pow_le_mono_r; lia). lia.
    - destruct (Z_le_gt_dec 107 D) as [H2 | H2]; [|lia].
      assert (2 ^ 106 <= 2 ^ (D - 1)) by (apply Z.pow_le_mono_r; lia). lia. }
  destruct (round_then_truncate P (-54 + (d - 53))) as
    (a & rho & m & Heq & Hrho & Hm1 & Hm2 & Hm3 & Ha & Hint);
    fold D; try lia.
  fold D in Heq, Hrho, Hm2, Hm3, Hint.
  rewrite Hint. f_equal.
  set (q := - (-54 + (d - 53) + (D - 53))) in *.
  set (s := D - 53) in *.
  assert (Hq : 5 <= q) by (unfold q; lia).
  assert (Hpow : 2 ^ (53 - d) * 2 ^ 54 = 2 ^ s * 2 ^ q).
  { rewrite <- !Z.pow_add_r by lia. f_equal. unfold q, s. lia. }
  assert (HQ : 32 <= 2 ^ q).
  { change 32 with (2 ^ 5). apply Z.pow_le_mono_r; lia. }
  assert (HA : 1 <= 2 ^ (53 - d)).
  { assert (0 < 2 ^ (53 - d)) by (apply Z.pow_pos_nonneg; lia). lia. }
  assert (Hs2 : 2 ^ (s + 1) = 2 * 2 ^ s).
  { rewrite Z.pow_add_r by (unfold s; lia). change (2 ^ 1) with 2. lia. }
  rewrite Hs2 in *.
  pose proof (Z.div_mod (3 * Zpos p) 10 ltac:(lia)) as Hdm.
  pose proof (Z.mod_pos_bound (3 * Zpos p) 10 ltac:(lia)) as Hr.
  set (k := 3 * Zpos p / 10) in *. set (r := (3 * Zpos p) mod 10) in *.
  set (A := 2 ^ (53 - d)) in *. set (Q := 2 ^ q) in *.
  assert (Hbound : k * Q <= m < k * Q + Q).
  { apply (truncation_window (2 ^ s) (Zpos p * A) (k * A) (r * A) A Q (k * Q) a rho m).
    - unfold s. destruct HD as [-> | ->]; [left | right]; reflexivity.
    - replace (3 * (Zpos p * A)) with ((3 * Zpos p) * A) by ring.
      rewrite Hdm. ring.
    - destruct (Z.eq_dec r 0) as [-> | Hr0]; [left; ring | right].
      split; [|apply Z.mul_le_mono_nonneg_r; lia].
      rewrite <- (Z.mul_1_l A) at 1. apply Z.mul_le_mono_nonneg_r; lia.
    - replace (k * A * 2 ^ 54) with (k * (A * 2 ^ 54)) by ring.
      rewrite Hpow. ring.
    - exact Hpow.
    - unfold M03. rewrite <- HN. unfold P in Heq.
      rewrite Pos2Z.inj_mul in Heq. exact Heq.
    - exact Hrho.
    - exact Hm1.
    - exact Hm2.
    - exact Hm3.
    - split; [|rewrite <- HN; lia].
      rewrite <- (Z.mul_1_l A) at 1. apply Z.mul_le_mono_nonneg_r; lia.
    - exact HA.
    - exact HQ. }
  symmetry. apply (Z.div_unique m Q k (m - k * Q)); [lia | ring].
Qed.

(** [int(0.3 * n)] is [floor(3 n / 10)]: the threshold of the detector as
    an integer formula. *)
Lemma header_threshold_floor (n : Z) :
  0 <= n < 2 ^ 49 -> header_threshold n = Some (Z.max 2 (3 * n / 10)).
Proof.
  intros Hn. unfold header_threshold. now rewrite int_03_floor.
Qed.

End Binary64Facts.

(* ------------------------------------------------------------------ *)
(** ** Header/footer repetition detector *)

Section HeaderFacts.
Import Headers.

Lemma eqb_eq (s t : pystr) : eqb s t = true <-> s = t.
Proof.
  unfold eqb. destruct (list_eq_dec N.eq_dec s t); split; congruence.
Qed.

Lemma eqb_refl (s : pystr) : eqb s s = true.
Proof. now apply eqb_eq. Qed.

Lemma eqb_neq (s t : pystr) : eqb s t = false <-> s <> t.
Proof.
  unfold eqb. destruct (list_eq_dec N.eq_dec s t); split; congruence.
Qed.

Lemma mem_In (s : pystr) (xs : list pystr) : mem s xs = true <-> In s xs.
Proof.
  unfold mem. rewrite existsb_exists. split.
  - intros (x & Hin & He). apply eqb_eq in He. now subst.
  - intros H. exists s. split; [exact H | apply eqb_refl].
Qed.

(** [counter[k] += 1] adds one to the count of [k] and to no other. *)
Lemma count_of_incr (k t : pystr) (c : Counter) :
  count_of t (incr k c) = if eqb k t then count_of t c + 1 else count_of t c.
Proof.
  induction c as [|[k' n] r IH]; simpl.
  - destruct (eqb k t); reflexivity.
  - destruct (eqb k' k) eqn:E1; simpl.
    + apply eqb_eq in E1. subst k'.
      destruct (eqb k t); reflexivity.
    + destruct (eqb k' t) eqn:E2; [|exact IH].
      apply eqb_eq in E2. subst k'.
      apply eqb_neq in E1.
      destruct (eqb k t) eqn:E3; [|reflexivity].
      apply eqb_eq in E3. congruence.
Qed.

Lemma incr_keys (k : pystr) (c : Counter) (x : pystr) :
  In x (map fst (incr k c)) <-> x = k \/ In x (map fst c).
Proof.
  induction c as [|[k' n] r IH]; simpl.
  - intuition congruence.
  - destruct (eqb k' k) eqn:E; simpl.
    + apply eqb_eq in E. subst. intuition congruence.
    + rewrite IH. intuition congruence.
Qed.

Lemma incr_well_formed (k : pystr) (c : Counter) :
  well_formed c -> well_formed (incr k c).
Proof.
  intros [Hnd Hpos]. induction c as [|[k' n] r IH]; simpl.
  - split; repeat constructor; simpl; auto; lia.
  - inversion Hnd as [|? ? Hnotin Hnd']; subst.
    inversion Hpos as [|? ? Hn Hpos']; subst. simpl in Hn.
    destruct (eqb k' k) eqn:E.
    + split; [exact Hnd|]. constructor; [simpl; lia | exact Hpos'].
    + destruct (IH Hnd' Hpos') as [IH1 IH2]. split.
      * simpl. constructor; [|exact IH1].
        rewrite incr_keys. intros [-> | H]; [|contradiction].
        rewrite eqb_refl in E. discriminate.
      * constructor; [exact Hn | exact IH2].
Qed.

Lemma In_count_of (t : pystr) (n : Z) (c : Counter) :
  well_formed c -> (In (t, n) c <-> count_of t c = n /\ 1 <= n).
Proof.
  intros [Hnd Hpos]. induction c as [|[k' m] r IH]; simpl.
  - split; [contradiction | lia].
  - inversion Hnd as [|? ? Hnotin Hnd']; subst.
    inversion Hpos as [|? ? Hm Hpos']; subst. simpl in Hm.
    destruct (eqb k' t) eqn:E.
    + apply eqb_eq in E. subst k'. split.
      * intros [H | H]; [injection H as ->; lia|].
        exfalso. apply Hnotin. apply in_map_iff. now exists (t, n).
      * intros [-> _]. now left.
    + apply eqb_neq in E. rewrite <- (IH Hnd' Hpos'). split.
      * intros [H | H]; [congruence | exact H].
      * intros H. now right.
Qed.

Lemma block_fold_well_formed (bs : list Block.t) (c : Counter) :
  well_formed c -> well_formed (fold_left block_step bs c).
Proof.
  revert c; induction bs as [|b r IH]; intros c Hc; simpl; [exact Hc|].
  apply IH. unfold block_step.
  destruct (len (strip (Block.text b)) <? 120);
    [apply incr_well_formed|]; exact Hc.
Qed.

Lemma page_fold_blocks (ps : list Page.t) (c : Counter) :
  fold_left page_step ps c = fold_left block_step (flat_map Page.blocks ps) c.
Proof.
  revert c; induction ps as [|p r IH]; intros c; simpl; [reflexivity|].
  rewrite fold_left_app. apply IH.
Qed.

Lemma block_fold_count (t : pystr) (bs : list Block.t) (c : Counter) :
  count_of t (fold_left block_step bs c)
  = count_of t c
    + len_nat (filter (fun b => eqb (strip (Block.text b)) t
                                && (len (strip (Block.text b)) <? 120)) bs).
Proof.
  revert c; induction bs as [|b r IH]; intros c; simpl.
  - unfold len_nat; simpl; lia.
  - rewrite IH. unfold block_step.
    destruct (len (strip (Block.text b)) <? 120) eqn:E.
    + rewrite count_of_incr, andb_true_r.
      destruct (eqb (strip (Block.text b)) t);
        unfold len_nat; simpl List.length; lia.
    + rewrite andb_false_r. reflexivity.
Qed.

(** The counter counts blocks: the count of a text is the number of blocks
    of the whole document that read it, several on one page included. *)
Lemma phrase_counter_counts_blocks (t : pystr) (pages_blocks : list Page.t) :
  count_of t (phrase_counter pages_blocks) = occurrences t pages_blocks.
Proof.
  unfold phrase_counter, occurrences.
  rewrite page_fold_blocks, block_fold_count. reflexivity.
Qed.

Lemma phrase_counter_well_formed (pages_blocks : list Page.t) :
  well_formed (phrase_counter pages_blocks).
Proof.
  unfold phrase_counter. rewrite page_fold_blocks.
  apply block_fold_well_formed. split; constructor.
Qed.

Lemma select_In (threshold : Z) (c : Counter) (t : pystr) :
  well_formed c -> 1 <= threshold ->
  (In t (select threshold c) <-> threshold <= count_of t c).
Proof.
  intros Hc Ht. unfold select. rewrite in_map_iff. split.
  - intros ([k n] & Hk & Hin). simpl in Hk. subst k.
    apply filter_In in Hin. destruct Hin as [Hin Hle]. simpl in Hle.
    apply (In_count_of _ _ _ Hc) in Hin. destruct Hin as [-> _].
    now apply Z.leb_le.
  - intros Hle. exists (t, count_of t c). split; [reflexivity|].
    apply filter_In. split.
    + apply (In_count_of _ _ _ Hc). split; [reflexivity | lia].
    + simpl. now apply Z.leb_le.
Qed.

Lemma header_threshold_ge_2 (n k : Z) : header_threshold n = Some k -> 2 <= k.
Proof.
  unfold header_threshold.
  destruct (int_of_float _); [|discriminate].
  intros H; injection H as <-. lia.
Qed.



(** Removal keeps the pages and, on each, exactly the blocks whose trimmed
    text is not one of the repeated texts. *)
Lemma remove_repeated_blocks (pages_blocks : list Page.t) (repeated : list pystr) :
  Forall2 (fun p p' =>
             Page.page_number p' = Page.page_number p /\
             forall b, In b (Page.blocks p') <->
                       In b (Page.blocks p) /\
                       ~ In (strip (Block.text b)) repeated)
          pages_blocks
          (remove_repeated_headers_from_blocks pages_blocks repeated).
Proof.
  unfold remove_repeated_headers_from_blocks.
  destruct repeated as [|t ts].
  - induction pages_blocks as [|p r IH]; constructor; [|exact IH].
    split; [reflexivity|]. intros b. simpl. tauto.
  - induction pages_blocks as [|p r IH]; cbn [map]; constructor; [|exact IH].
    unfold filter_page. cbn [Page.blocks Page.page_number].
    split; [reflexivity|]. intros b.
    rewrite filter_In, negb_true_iff, <- not_true_iff_false, mem_In.
    reflexivity.
Qed.


(** C3 at four pages: [Note] stands in two blocks of page 1 and on no other
    page; the counter holds 2 for it, not 1, which reaches the threshold
    2, so a line present on a single page is reported as repeated. *)
Theorem note_twice_on_one_page_counted_twice :
  len_nat Examples.note_doc4 = 4 /\
  pages_with (lit "Note") Examples.note_doc4 = 1 /\
  count_of (lit "Note") (phrase_counter Examples.note_doc4) = 2 /\
  header_threshold 4 = Some 2 /\
  detect_repeated_headers Examples.note_doc4 = Some [lit "Note"] /\
  map (fun p => map Block.text (Page.blocks p))
      (remove_repeated_headers_from_blocks Examples.note_doc4 [lit "Note"])
  = [[lit "alpha"]; [lit "beta"]; [lit "gamma"]; [lit "delta"]].
Proof.
  repeat split; vm_compute; reflexivity.
Qed.

End HeaderFacts.

(* ------------------------------------------------------------------ *)
(** ** Heading and section segmenter *)

Section SegmenterFacts.
Import Segmenter.

Lemma all_font_sizes_flat (pages_blocks : list Page.t) :
  all_font_sizes pages_blocks
  = block_sizes (flat_map Page.blocks pages_blocks).
Proof.
  unfold all_font_sizes, block_sizes.
  induction pages_blocks as [|p r IH]; simpl; [reflexivity|].
  rewrite flat_map_app. now rewrite IH.
Qed.

Lemma block_sizes_by_size (bs : list Block.t) :
  block_sizes bs = flat_map size_entry (map Block.max_font_size bs).
Proof.
  unfold block_sizes. induction bs as [|b r IH]; simpl; [reflexivity|].
  rewrite IH. f_equal.
  unfold has_font_size, size_entry.
  destruct (Block.max_font_size b) as [q|]; reflexivity.
Qed.

Lemma is_heading_by_size (threshold : Q) (b : Block.t) :
  is_heading threshold b = heading_size threshold (Block.max_font_size b).
Proof.
  unfold is_heading, has_font_size, heading_size.
  destruct (Block.max_font_size b); reflexivity.
Qed.

(** Without a truthy [max_font_size] anywhere the first loop collects
    nothing. *)
Lemma all_font_sizes_nil (pages_blocks : list Page.t) :
  Forall (fun p => Forall (fun b => has_font_size b = false) (Page.blocks p))
         pages_blocks ->
  all_font_sizes pages_blocks = [].
Proof.
  unfold all_font_sizes, block_sizes.
  induction 1 as [|p r Hp _ IH]; simpl; [reflexivity|].
  rewrite IH, app_nil_r.
  induction Hp as [|b bs Hb _ IHb]; simpl; [reflexivity|].
  rewrite Hb. exact IHb.
Qed.

(** A [max_font_size] that is missing or zero is falsy. *)
Lemma falsy_font_size (b : Block.t) :
  Block.max_font_size b = None \/
  (exists q, Block.max_font_size b = Some q /\ (q == 0)%Q) ->
  has_font_size b = false.
Proof.
  unfold has_font_size, Qnonzero.
  intros [-> | (q & -> & Hq)]; [reflexivity|].
  apply Qeq_bool_iff in Hq. now rewrite Hq.
Qed.

(** C6: when no block carries font-size data, that is, when the
    [max_font_size] of every block is falsy (missing, or zero), the
    segmenter returns one section per page, in page order: the section of
    page number [n] is headed [Page n], its text is the page's block texts
    joined by blank lines, and it starts and ends on page [n]. *)
Theorem no_font_size_one_section_per_page :
  forall pages_blocks : list Page.t,
    Forall (fun p =>
              Forall (fun b =>
                        Block.max_font_size b = None \/
                        exists q, Block.max_font_size b = Some q /\ (q == 0)%Q)
                     (Page.blocks p)) pages_blocks ->
    let sections := detect_headings_and_sections pages_blocks in
    List.length sections = List.length pages_blocks /\
    Forall2 (fun p s =>
               Sec.heading s = lit "Page " ++ str_of_int (Page.page_number p) /\
               Sec.text s = join nl2 (map Block.text (Page.blocks p)) /\
               Sec.start_page s = Some (Page.page_number p) /\
               Sec.end_page s = Some (Page.page_number p))
            pages_blocks sections.
Proof.
  intros pages_blocks Hnone sections.
  assert (Hs : sections = map page_section pages_blocks).
  { unfold sections, detect_headings_and_sections.
    rewrite all_font_sizes_nil; [reflexivity|].
    eapply Forall_impl; [|exact Hnone]. intros p Hp.
    eapply Forall_impl; [|exact Hp]. intros b Hb.
    now apply falsy_font_size. }
  rewrite Hs. split; [apply length_map|].
  clear. induction pages_blocks as [|p r IH]; simpl; constructor.
  - repeat split.
  - exact IH.
Qed.

(** The theorem above at the pages the normalizer makes of a source file
    set in size 0: its two blocks carry the size 0, its second page has no
    block. *)
Lemma no_font_size_one_section_per_page_witness :
  map Block.max_font_size
      (flat_map Page.blocks
                (Normalizer.extract_text_blocks Examples.zero_size_doc))
  = [Some 0%Q; Some 0%Q] /\
  List.length (detect_headings_and_sections
                 (Normalizer.extract_text_blocks Examples.zero_size_doc))
  = 2%nat /\
  map (fun s => (Sec.heading s, Sec.text s))
      (detect_headings_and_sections
         (Normalizer.extract_text_blocks Examples.zero_size_doc))
  = [(lit "Page 1", lit "faint" ++ nl2 ++ lit "print"); (lit "Page 2", [])].
Proof.
  split; [reflexivity|].
  assert (Hnone : Forall (fun p =>
                            Forall (fun b =>
                                      Block.max_font_size b = None \/
                                      exists q, Block.max_font_size b = Some q
                                                /\ (q == 0)%Q)
                                   (Page.blocks p))
                         (Normalizer.extract_text_blocks Examples.zero_size_doc)).
  { apply Forall_forall. intros p Hp. apply Forall_forall. intros b Hb.
    right. exists 0%Q. split; [|reflexivity].
    vm_compute in Hp. destruct Hp as [<- | [<- | []]]; vm_compute in Hb.
    - destruct Hb as [<- | [<- | []]]; reflexivity.
    - destruct Hb. }
  pose proof (no_font_size_one_section_per_page
                (Normalizer.extract_text_blocks Examples.zero_size_doc) Hnone)
    as H.
  cbv zeta in H. destruct H as [H _].
  split; [exact H | reflexivity].
Defined.

(** *** The main loop *)

Lemma run_last (threshold : Q) (l : list item) (x : item) :
  run threshold (l ++ [x]) = item_step threshold (run threshold l) x.
Proof. unfold run. now rewrite fold_left_app. Qed.

Lemma page_fold_stream (threshold : Q) (ps : list Page.t) (st : state) :
  fold_left (page_step threshold) ps st
  = fold_left (item_step threshold) (stream ps) st.
Proof.
  revert st; induction ps as [|p r IH]; intros st; simpl; [reflexivity|].
  rewrite fold_left_app, <- IH. f_equal.
  unfold page_step. generalize (Page.blocks p) st.
  induction l as [|b bs IHb]; intros st0; simpl; [reflexivity|].
  apply IHb.
Qed.

Lemma body_text_snoc (body : list item) (x : item) :
  body_text (body ++ [x]) = body_text body ++ (nl2 ++ strip (item_text x)).
Proof.
  unfold body_text. rewrite map_app, concat_app. simpl.
  now rewrite app_nil_r.
Qed.

Lemma body_text_join (body : list item) :
  Forall clean_item body -> body <> [] ->
  body_text body = nl2 ++ join nl2 (map item_text body).
Proof.
  induction 1 as [|x r [Hx _] _ IH]; [congruence|]. intros _.
  unfold body_text in *. cbn [map List.concat].
  change (Block.text (snd x)) with (item_text x) in Hx.
  rewrite (strip_of_trimmed _ Hx).
  destruct r as [|y r'].
  - cbn [map List.concat join]. now rewrite !app_nil_r.
  - rewrite IH by discriminate.
    change (map item_text (x :: y :: r'))
      with (item_text x :: map item_text (y :: r')).
    change (join nl2 (item_text x :: map item_text (y :: r')))
      with (item_text x ++ nl2 ++ join nl2 (map item_text (y :: r'))).
    now rewrite <- !app_assoc.
Qed.

(** Trimming the accumulated text gives the block texts joined by blank
    lines. *)
Lemma strip_body_text (body : list item) :
  Forall clean_item body ->
  strip (body_text body) = join nl2 (map item_text body).
Proof.
  intros Hc. destruct body as [|x r]; [reflexivity|].
  rewrite body_text_join by (assumption || discriminate).
  assert (Hj : trimmed (join nl2 (map item_text (x :: r)))).
  { apply join_trimmed. apply Forall_map.
    eapply Forall_impl; [|exact Hc]. intros it Hit. exact Hit. }
  unfold strip. change (lstrip (nl2 ++ ?j)) with (lstrip j).
  destruct Hj as [H1 H2]. rewrite H1. unfold rstrip.
  rewrite H2. apply rev_involutive.
Qed.

Lemma tracks_nonempty (g : list item) (cur : current) :
  tracks g cur -> Forall clean_item g ->
  nonempty_current cur = match g with [] => false | _ => true end.
Proof.
  destruct g as [|it0 r]; simpl.
  - intros -> _. reflexivity.
  - intros (_ & _ & hd & body & Hg & Htext & Hhd) Hc.
    unfold nonempty_current.
    destruct Hhd as [(-> & Hb & ->) | (h & -> & ->)].
    + rewrite Htext. destruct body as [|x b]; [congruence|]. reflexivity.
    + assert (Hh : clean_item h).
      { rewrite Hg in Hc. now inversion Hc. }
      destruct Hh as [Ht Hne]. unfold item_text.
      rewrite (strip_of_trimmed _ Ht).
      destruct (Block.text (snd h)); [congruence|].
      reflexivity.
Qed.

Lemma finalize_covers (default : pystr) (g : list item) (cur : current) :
  tracks g cur -> g <> [] -> Forall clean_item g ->
  covers g (finalize default cur).
Proof.
  destruct g as [|it0 r]; [congruence|]. intros Ht _ Hc.
  destruct Ht as (Hs & He & hd & body & Hg & Htext & Hhd).
  exists hd, body. split; [exact Hg|].
  assert (Hcb : Forall clean_item body).
  { rewrite Hg in Hc. apply Forall_app in Hc. tauto. }
  assert (Hch : Forall clean_item hd).
  { rewrite Hg in Hc. apply Forall_app in Hc. tauto. }
  split; [|split; [|split]].
  - destruct Hhd as [(-> & _) | (h & -> & _)]; simpl; lia.
  - intros it Hin. destruct Hhd as [(-> & _) | (h & -> & Hhead)];
      [contradiction|].
    destruct Hin as [<- | []]. simpl. rewrite Hhead.
    inversion Hch as [|? ? [Htr Hne] _]; subst.
    unfold item_text in *. rewrite (strip_of_trimmed _ Htr).
    destruct (Block.text (snd h)); [congruence|].
    reflexivity.
  - simpl. rewrite Htext. now apply strip_body_text.
  - intros it rest E. injection E as <- <-. simpl Sec.start_page.
    simpl Sec.end_page. split; assumption.
Qed.

Lemma loop_inv_step (threshold : Q) (pre : list item) (st : state) (x : item) :
  loop_inv pre st -> Forall clean_item pre ->
  loop_inv (pre ++ [x]) (item_step threshold st x).
Proof.
  destruct st as [sections cur].
  intros (groups & g & Hpre & Hne & Hcov & Htr) Hclean. simpl in Hcov, Htr.
  assert (Hcg : Forall clean_item g).
  { rewrite <- Hpre in Hclean. apply Forall_app in Hclean. tauto. }
  pose proof (tracks_nonempty g cur Htr Hcg) as Hnon.
  unfold item_step, block_step.
  destruct (is_heading threshold (snd x)) eqn:E.
  - (* a heading closes the run [g] and opens the run [x] *)
    assert (Hnew : tracks [x]
              {| cur_heading := Some (strip (Block.text (snd x)));
                 cur_text := [];
                 cur_start_page := Some (fst x);
                 cur_end_page := Some (fst x) |}).
    { simpl. split; [reflexivity|]. split; [reflexivity|].
      exists [x], []. split; [reflexivity|]. split; [reflexivity|].
      right. exists x. split; reflexivity. }
    rewrite Hnon. destruct g as [|it0 r].
    + exists groups, [x]. simpl fst. simpl snd.
      split; [now rewrite <- Hpre, app_nil_r|].
      split; [exact Hne|]. split; [exact Hcov | exact Hnew].
    + exists (groups ++ [it0 :: r]), [x]. simpl fst. simpl snd.
      split; [|split; [|split]].
      * rewrite concat_app. simpl. now rewrite app_nil_r, <- Hpre.
      * apply Forall_app. split; [exact Hne|]. constructor; [discriminate|].
        constructor.
      * apply Forall2_app; [exact Hcov|]. constructor; [|constructor].
        apply finalize_covers; [exact Htr | discriminate | exact Hcg].
      * exact Hnew.
  - (* any other block extends the run [g] *)
    exists groups, (g ++ [x]). simpl fst. simpl snd.
    split; [now rewrite app_assoc, Hpre|].
    split; [exact Hne|]. split; [exact Hcov|].
    destruct g as [|it0 r].
    + simpl in Htr. subst cur. simpl.
      split; [reflexivity|]. split; [reflexivity|].
      exists [], [x]. split; [reflexivity|].
      split; [unfold body_text, item_text; simpl; now rewrite app_nil_r|].
      left. split; [reflexivity|]. split; [discriminate | reflexivity].
    + destruct Htr as (Hs & He & hd & body & Hg & Htext & Hhd).
      change ((it0 :: r) ++ [x]) with (it0 :: (r ++ [x])).
      cbn [tracks cur_start_page cur_end_page cur_text cur_heading].
      rewrite Hs. split; [reflexivity|]. split.
      * change (it0 :: (r ++ [x])) with ((it0 :: r) ++ [x]).
        now rewrite last_last.
      * exists hd, (body ++ [x]).
        split; [change (it0 :: (r ++ [x])) with ((it0 :: r) ++ [x]);
                now rewrite Hg, app_assoc|].
        split; [now rewrite Htext, body_text_snoc|].
        destruct Hhd as [(-> & Hb & Hh) | Hh]; [left | right; exact Hh].
        split; [reflexivity|]. split; [|exact Hh].
        destruct body; discriminate.
Qed.

Lemma loop_inv_run (threshold : Q) (l : list item) :
  Forall clean_item l -> loop_inv l (run threshold l).
Proof.
  induction l as [|x l IH] using rev_ind; intros Hc.
  - exists [], []. repeat split; constructor.
  - apply Forall_app in Hc. destruct Hc as [Hl _].
    rewrite run_last. apply loop_inv_step; auto.
Qed.

(** After the last push the sections consume the whole stream, each a
    non-empty run of it. *)
Lemma push_last_covers (l : list item) (st : state) :
  loop_inv l st -> Forall clean_item l ->
  exists groups,
    List.concat groups = l /\
    Forall (fun g => g <> []) groups /\
    Forall2 covers groups (push_last st).
Proof.
  destruct st as [sections cur].
  intros (groups & g & Hpre & Hne & Hcov & Htr) Hclean. simpl in Hcov, Htr.
  assert (Hcg : Forall clean_item g).
  { rewrite <- Hpre in Hclean. apply Forall_app in Hclean. tauto. }
  unfold push_last. rewrite (tracks_nonempty g cur Htr Hcg).
  destruct g as [|it0 r].
  - exists groups. rewrite app_nil_r in Hpre. auto.
  - exists (groups ++ [it0 :: r]). split; [|split].
    + rewrite concat_app. simpl. now rewrite app_nil_r.
    + apply Forall_app. split; [exact Hne|]. constructor; [discriminate|].
      constructor.
    + apply Forall2_app; [exact Hcov|]. constructor; [|constructor].
      apply finalize_covers; [exact Htr | discriminate | exact Hcg].
Qed.

(** *** Page ranges *)

Lemma StronglySorted_app_inv (l1 l2 : list Z) :
  StronglySorted Z.le (l1 ++ l2) ->
  StronglySorted Z.le l1 /\ StronglySorted Z.le l2.
Proof.
  induction l1 as [|a l1 IH]; simpl; intros H.
  - split; [constructor | exact H].
  - apply StronglySorted_inv in H. destruct H as [Hs Ha].
    destruct (IH Hs) as [H1 H2]. split; [|exact H2].
    constructor; [exact H1|]. apply Forall_app in Ha. tauto.
Qed.

Lemma StronglySorted_app (l1 l2 : list Z) :
  StronglySorted Z.le l1 -> StronglySorted Z.le l2 ->
  (forall x y, In x l1 -> In y l2 -> x <= y) ->
  StronglySorted Z.le (l1 ++ l2).
Proof.
  intros H1 H2 H. induction H1 as [|a l Hl IH Ha]; simpl; [exact H2|].
  constructor.
  - apply IH. intros x y Hx Hy. apply H; [now right | exact Hy].
  - apply Forall_app. split; [exact Ha|].
    apply Forall_forall. intros y Hy. apply H; [now left | exact Hy].
Qed.

Lemma stream_pages (ps : list Page.t) (x : Z) :
  In x (map fst (stream ps)) -> In x (map Page.page_number ps).
Proof.
  unfold stream. induction ps as [|p r IH]; simpl; [tauto|].
  rewrite map_app, in_app_iff, map_map. simpl.
  intros [H | H]; [left | right; now apply IH].
  apply in_map_iff in H. destruct H as (b & <- & _). reflexivity.
Qed.

Lemma stream_sorted (ps : list Page.t) :
  StronglySorted Z.le (map Page.page_number ps) ->
  StronglySorted Z.le (map fst (stream ps)).
Proof.
  unfold stream. induction ps as [|p r IH]; simpl; intros H; [constructor|].
  apply StronglySorted_inv in H. destruct H as [Hs Hp].
  rewrite map_app, map_map. simpl. apply StronglySorted_app.
  - induction (Page.blocks p) as [|b bs IHb]; simpl; constructor;
      [exact IHb|].
    apply Forall_forall. intros y Hy. apply in_map_iff in Hy.
    destruct Hy as (? & <- & _). lia.
  - now apply IH.
  - intros x y Hx Hy. apply in_map_iff in Hx. destruct Hx as (? & <- & _).
    apply stream_pages in Hy. rewrite Forall_forall in Hp. now apply Hp.
Qed.

Lemma last_In (g : list item) (d : item) : g <> [] -> In (last g d) g.
Proof.
  induction g as [|a r IH]; [congruence|]. intros _.
  destruct r as [|b r']; [now left|].
  right. apply IH. discriminate.
Qed.

(** In a stream sorted by page, a run starts no later than it ends. *)
Lemma run_pages_in_order (groups : list (list item)) :
  StronglySorted Z.le (map fst (List.concat groups)) ->
  Forall (fun g => forall it rest, g = it :: rest ->
                                   fst it <= fst (last g it)) groups.
Proof.
  induction groups as [|g gs IH]; simpl; intros H; constructor.
  - rewrite map_app in H. apply StronglySorted_app_inv in H.
    destruct H as [Hg _]. intros it rest ->.
    simpl in Hg. apply StronglySorted_inv in Hg. destruct Hg as [_ Hle].
    assert (Hin : In (last (it :: rest) it) (it :: rest))
      by (apply last_In; discriminate).
    destruct Hin as [<- | Hin]; [lia|].
    rewrite Forall_forall in Hle. apply Hle. now apply in_map.
  - apply IH. rewrite map_app in H. apply StronglySorted_app_inv in H. tauto.
Qed.

Lemma covers_pages_in_order (groups : list (list item)) (sections : list Sec.t) :
  Forall2 covers groups sections ->
  Forall (fun g => g <> []) groups ->
  StronglySorted Z.le (map fst (List.concat groups)) ->
  Forall pages_in_order sections.
Proof.
  intros Hcov Hne Hs. apply run_pages_in_order in Hs.
  induction Hcov as [|g s gs ss Hgs _ IH]; [constructor|].
  inversion Hne as [|? ? Hg Hne']; subst.
  inversion Hs as [|? ? Hle Hs']; subst.
  constructor; [|now apply IH].
  destruct g as [|it rest]; [congruence|].
  destruct Hgs as (hd & body & _ & _ & _ & _ & Hp).
  destruct (Hp it rest eq_refl) as [H1 H2].
  exists (fst it), (fst (last (it :: rest) it)).
  split; [exact H1|]. split; [exact H2|]. now apply (Hle it rest).
Qed.

(** *** Both branches *)

Lemma fallback_covers (ps : list Page.t) :
  List.concat (map (fun p => map (pair (Page.page_number p)) (Page.blocks p)) ps)
  = stream ps /\
  Forall2 covers
    (map (fun p => map (pair (Page.page_number p)) (Page.blocks p)) ps)
    (map page_section ps) /\
  Forall pages_in_order (map page_section ps).
Proof.
  split; [unfold stream; now rewrite flat_map_concat_map|].
  split.
  - induction ps as [|p r IH]; simpl; constructor; [|exact IH].
    exists [], (map (pair (Page.page_number p)) (Page.blocks p)).
    split; [reflexivity|]. split; [simpl; lia|].
    split; [intros it []|]. split.
    + simpl. rewrite map_map. reflexivity.
    + intros it rest E. simpl Sec.start_page. simpl Sec.end_page.
      assert (Hall : forall x,
                 In x (map (pair (Page.page_number p)) (Page.blocks p)) ->
                 fst x = Page.page_number p).
      { intros x Hx. apply in_map_iff in Hx. now destruct Hx as (? & <- & _). }
      split; f_equal; symmetry; apply Hall.
      * rewrite E. now left.
      * apply last_In. rewrite E. discriminate.
  - induction ps as [|p r IH]; simpl; constructor; [|exact IH].
    exists (Page.page_number p), (Page.page_number p). simpl.
    repeat split; lia.
Qed.

(** The coverage of clean pages: every section's page range is in order,
    and the sections consume consecutive runs of the block stream that
    together are the whole stream. *)
Lemma clean_pages_sections (pages_blocks : list Page.t) :
  clean_pages pages_blocks ->
  Forall pages_in_order (detect_headings_and_sections pages_blocks) /\
  exists groups,
    List.concat groups = stream pages_blocks /\
    Forall2 covers groups (detect_headings_and_sections pages_blocks).
Proof.
  intros [Hclean Hsorted]. unfold detect_headings_and_sections.
  destruct (all_font_sizes pages_blocks) as [|q qs].
  - destruct (fallback_covers pages_blocks) as (H1 & H2 & H3).
    split; [exact H3|]. eexists. split; [exact H1 | exact H2].
  - rewrite page_fold_stream.
    set (threshold := heading_threshold pages_blocks).
    fold (run threshold (stream pages_blocks)).
    assert (Hc : Forall clean_item (stream pages_blocks)).
    { unfold stream. apply Forall_flat_map.
      eapply Forall_impl; [|exact Hclean]. intros p Hp.
      apply Forall_map. exact Hp. }
    destruct (push_last_covers _ _ (loop_inv_run threshold _ Hc) Hc)
      as (groups & Hcat & Hne & Hcov).
    split.
    + apply (covers_pages_in_order groups); [exact Hcov | exact Hne|].
      rewrite Hcat. now apply stream_sorted.
    + exists groups. split; assumption.
Qed.

(** *** The pages the segmenter is given *)

Lemma normalize_blocks_clean (bs : list Layout.RawBlock) :
  Forall clean_block (Normalizer.normalize_blocks bs).
Proof.
  apply Forall_forall. intros blk Hin.
  apply normalize_blocks_In in Hin. destruct Hin as (b & _ & Hb).
  exact (normalize_block_text b blk Hb).
Qed.

Lemma pages_from_numbers (doc : Layout.Document) (p : Z) :
  Forall (fun n => p < n) (map Page.page_number (Normalizer.pages_from p doc)) /\
  StronglySorted Z.le (map Page.page_number (Normalizer.pages_from p doc)).
Proof.
  revert p; induction doc as [|page r IH]; intros p; simpl.
  - split; constructor.
  - destruct (IH (p + 1)) as [H1 H2]. split.
    + constructor; [lia|]. eapply Forall_impl; [|exact H1].
      intros n Hn. simpl in Hn. lia.
    + constructor; [exact H2|]. eapply Forall_impl; [|exact H1].
      intros n Hn. simpl in Hn. lia.
Qed.

Lemma extract_text_blocks_clean (doc : Layout.Document) :
  clean_pages (Normalizer.extract_text_blocks doc).
Proof.
  unfold Normalizer.extract_text_blocks. split.
  - generalize 0. induction doc as [|page r IH]; intros p; simpl;
      constructor; [apply normalize_blocks_clean | apply IH].
  - apply pages_from_numbers.
Qed.

Lemma remove_repeated_clean (pages_blocks : list Page.t) (repeated : list pystr) :
  clean_pages pages_blocks ->
  clean_pages (Headers.remove_repeated_headers_from_blocks pages_blocks repeated).
Proof.
  intros [Hc Hs]. unfold Headers.remove_repeated_headers_from_blocks.
  destruct repeated as [|t ts]; [split; assumption|].
  split.
  - apply Forall_map. eapply Forall_impl; [|exact Hc].
    intros p Hp. simpl. apply Forall_forall. intros b Hb.
    apply filter_In in Hb. rewrite Forall_forall in Hp. now apply Hp.
  - rewrite map_map. simpl. rewrite map_ext with (g := Page.page_number);
      [exact Hs | reflexivity].
Qed.

(** What [process_pdf] hands to the segmenter and the reference locator:
    the normalized pages with the detected texts removed. *)
Lemma filtered_pages_shape (doc : Layout.Document) (pages_blocks : list Page.t) :
  Headers.filtered_pages doc = Some pages_blocks ->
  exists repeated,
    Headers.detect_repeated_headers (Normalizer.extract_text_blocks doc)
    = Some repeated /\
    pages_blocks
    = Headers.remove_repeated_headers_from_blocks
        (Normalizer.extract_text_blocks doc) repeated.
Proof.
  unfold Headers.filtered_pages.
  destruct (Headers.detect_repeated_headers _) as [repeated|]; [|discriminate].
  intros H; injection H as <-. exists repeated. split; [reflexivity|].
  destruct repeated; reflexivity.
Qed.

Lemma pages_from_length (doc : Layout.Document) (p : Z) :
  List.length (Normalizer.pages_from p doc) = List.length doc.
Proof.
  revert p; induction doc as [|page r IH]; intros p; simpl; [reflexivity|].
  now rewrite IH.
Qed.

(** [process_pdf] gets through the detector on every document of fewer
    than 2^49 pages. *)
Lemma filtered_pages_returns (doc : Layout.Document) :
  len_nat doc < 2 ^ 49 ->
  exists pages_blocks, Headers.filtered_pages doc = Some pages_blocks.
Proof.
  intros Hlen. unfold Headers.filtered_pages, Headers.detect_repeated_headers.
  unfold len_nat, Normalizer.extract_text_blocks in *.
  rewrite pages_from_length.
  rewrite header_threshold_floor by lia. eexists. reflexivity.
Qed.

(** The three pages of [paper]: the footer goes, the title and
    [References] open the two sections. *)
Example paper_sections :
  option_map (fun ps => map (fun s => (Sec.heading s, Sec.text s,
                                       Sec.start_page s, Sec.end_page s))
                            (detect_headings_and_sections ps))
             (Headers.filtered_pages Examples.paper)
  = Some [(lit "A Study", lit "It begins." ++ nl2 ++ lit "It goes on.",
           Some 1, Some 2);
          (lit "References", lit "[1] Doe." ++ nl2 ++ lit "[2] Roe.",
           Some 2, Some 3)].
Proof. vm_compute. reflexivity. Qed.

(** C4: for every source document, and whatever texts the repetition
    detector had removed, every section has its page range set with
    [start_page <= end_page], and the sections consume consecutive runs of
    the filtered block stream that together are the whole stream: each
    block is the heading of one section or one of the texts joined into
    its text, none twice and none left out. *)
Theorem sections_consume_filtered_stream :
  forall (doc : Layout.Document) (repeated : list pystr),
    let pages_blocks :=
      Headers.remove_repeated_headers_from_blocks
        (Normalizer.extract_text_blocks doc) repeated in
    let sections := detect_headings_and_sections pages_blocks in
    Forall pages_in_order sections /\
    exists groups,
      List.concat groups = stream pages_blocks /\
      Forall2 covers groups sections.
Proof.
  intros doc repeated pages_blocks sections.
  apply clean_pages_sections.
  apply remove_repeated_clean, extract_text_blocks_clean.
Qed.

End SegmenterFacts.

(* ------------------------------------------------------------------ *)
(** ** Reference locator *)

Section ReferenceFacts.
Import References.

Variable lower : pystr -> pystr.

Let trimmed_text (b : Block.t) : pystr := strip (Block.text b).

Lemma page_fold_flat (ps : list Page.t) (st : state) :
  fold_left (page_step lower) ps st
  = fold_left (block_step lower) (flat_map Page.blocks ps) st.
Proof.
  revert st; induction ps as [|p r IH]; intros st; simpl; [reflexivity|].
  rewrite fold_left_app. apply IH.
Qed.

(** Once the marker is found every block is collected. *)
Lemma collect_found (bs : list Block.t) (acc : list pystr) :
  fold_left (block_step lower) bs (true, acc)
  = (true, acc ++ map trimmed_text bs).
Proof.
  revert acc; induction bs as [|b r IH]; intros acc; simpl.
  - now rewrite app_nil_r.
  - rewrite IH. now rewrite <- app_assoc.
Qed.

Lemma block_step_not_found (acc : list pystr) (b : Block.t) :
  block_step lower (false, acc) b
  = if is_marker lower b then (true, acc) else (false, acc).
Proof. reflexivity. Qed.

(** Before the marker nothing is collected; the marker itself is
    skipped. *)
Lemma collect_not_found (bs : list Block.t) (acc : list pystr) :
  snd (fold_left (block_step lower) bs (false, acc))
  = acc ++ map trimmed_text (after_marker lower bs).
Proof.
  revert acc; induction bs as [|b r IH]; intros acc.
  - simpl. now rewrite app_nil_r.
  - cbn [fold_left after_marker]. rewrite block_step_not_found.
    destruct (is_marker lower b).
    + now rewrite collect_found.
    + apply IH.
Qed.

Lemma find_references_flat (pages_blocks : list Page.t) :
  find_references lower pages_blocks
  = strip (join nl2 (map trimmed_text
                         (after_marker lower
                            (flat_map Page.blocks pages_blocks)))).
Proof.
  unfold find_references. now rewrite page_fold_flat, collect_not_found.
Qed.

(** [after_marker] is the part strictly after the first marker block. *)
Lemma after_marker_split (bs : list Block.t) :
  (exists pre m,
      bs = pre ++ m :: after_marker lower bs /\
      is_marker lower m = true /\
      forallb (fun b => negb (is_marker lower b)) pre = true)
  \/ (forallb (fun b => negb (is_marker lower b)) bs = true /\
      after_marker lower bs = []).
Proof.
  induction bs as [|b r IH]; simpl.
  - right. split; reflexivity.
  - destruct (is_marker lower b) eqn:E.
    + left. exists [], b. repeat split. exact E.
    + destruct IH as [(pre & m & Hr & Hm & Hpre) | [Hall Hnil]].
      * left. exists (b :: pre), m. split; [simpl; now rewrite <- Hr|].
        split; [exact Hm|]. simpl. now rewrite E.
      * right. split; assumption.
Qed.

Lemma after_marker_incl (bs : list Block.t) (b : Block.t) :
  In b (after_marker lower bs) -> In b bs.
Proof.
  induction bs as [|a r IH]; simpl; [tauto|].
  destruct (is_marker lower a); auto.
Qed.

(** On clean blocks the two trimmings of [find_references] change
    nothing. *)
Lemma find_references_clean (pages_blocks : list Page.t) :
  Segmenter.clean_pages pages_blocks ->
  find_references lower pages_blocks
  = join nl2 (map Block.text
                  (after_marker lower (flat_map Page.blocks pages_blocks))).
Proof.
  intros [Hc _]. rewrite find_references_flat.
  assert (Hall : Forall Segmenter.clean_block
                   (after_marker lower (flat_map Page.blocks pages_blocks))).
  { apply Forall_forall. intros b Hb. apply after_marker_incl in Hb.
    apply in_flat_map in Hb. destruct Hb as (p & Hp & Hb).
    rewrite Forall_forall in Hc. specialize (Hc p Hp).
    rewrite Forall_forall in Hc. now apply Hc. }
  rewrite map_ext_in with (g := Block.text).
  - apply strip_of_trimmed. apply join_trimmed.
    apply Forall_map. exact Hall.
  - intros b Hb. rewrite Forall_forall in Hall.
    apply strip_of_trimmed. now apply Hall.
Qed.

End ReferenceFacts.

(** The references of [paper]: the two blocks after [References]. *)
Example paper_references :
  option_map (References.find_references Examples.ascii_lower)
             (Headers.filtered_pages Examples.paper)
  = Some (lit "[1] Doe." ++ nl2 ++ lit "[2] Roe.").
Proof. vm_compute. reflexivity. Qed.

(** C8: for every source document, whatever [str.lower] does and whatever
    texts the repetition detector had removed, [find_references] returns
    the texts of the blocks strictly after the first marker block, joined
    by blank lines, the marker block left out; without a marker block it
    returns the empty string. *)
Theorem find_references_after_first_marker :
  forall (lower : pystr -> pystr) (doc : Layout.Document)
         (repeated : list pystr),
    let pages_blocks :=
      Headers.remove_repeated_headers_from_blocks
        (Normalizer.extract_text_blocks doc) repeated in
    let bs := flat_map Page.blocks pages_blocks in
    let after := References.after_marker lower bs in
    References.find_references lower pages_blocks
    = join nl2 (map Block.text after) /\
    ((exists pre m,
         bs = pre ++ m :: after /\
         In (lower (strip (Block.text m))) References.markers /\
         Forall (fun b => ~ In (lower (strip (Block.text b)))
                            References.markers) pre)
     \/ (Forall (fun b => ~ In (lower (strip (Block.text b)))
                            References.markers) bs /\
         References.find_references lower pages_blocks = [])).
Proof.
  intros lower doc repeated pages_blocks bs after.
  assert (Hfind : References.find_references lower pages_blocks
                  = join nl2 (map Block.text after)).
  { apply find_references_clean.
    apply remove_repeated_clean, extract_text_blocks_clean. }
  assert (Hno : forall l,
             forallb (fun b => negb (References.is_marker lower b)) l = true ->
             Forall (fun b => ~ In (lower (strip (Block.text b)))
                                References.markers) l).
  { intros l Hl. rewrite forallb_forall in Hl. apply Forall_forall.
    intros b Hb Hin. specialize (Hl b Hb).
    apply mem_In in Hin. unfold References.is_marker in Hl.
    rewrite Hin in Hl. discriminate. }
  split; [exact Hfind|].
  destruct (after_marker_split lower bs) as [(pre & m & Hbs & Hm & Hpre) | [Hall Hnil]].
  - left. exists pre, m. split; [exact Hbs|].
    split; [now apply mem_In | now apply Hno].
  - right. split; [now apply Hno|].
    rewrite Hfind. unfold after. now rewrite Hnil.
Qed.

(* ------------------------------------------------------------------ *)
(** ** Batch driver *)

Section BatchFacts.
Import Batch.

Variable exn : Type.
Variable is_Exception : exn -> bool.
Variable process_pdf : pystr -> pystr -> result exn ProcessedDocument.
Variable sorted_pdfs : pystr -> list pystr.
Variable stem : pystr -> pystr.
Variable path_join : pystr -> pystr -> pystr.
Variable isalnum : N -> bool.
Variable output_dir_exists : pystr -> bool.
Variable leaves_dir : pystr -> pystr -> bool.
Variable FileNotFoundError : exn.
Variable write_manifest : pystr -> list entry -> result exn unit.

Let step :=
  file_step exn is_Exception process_pdf stem path_join isalnum leaves_dir.
Let entries := entries_for exn process_pdf stem path_join isalnum.
Let events := trace_for exn process_pdf.
Let makes := makes_dir exn process_pdf leaves_dir.

(** One iteration on a file whose failure, if any, is an [Exception]: the
    loop goes on, with an entry more exactly when the file was
    processed. *)
Lemma file_step_caught (output_dir pdf : pystr) (s : loop_state exn) :
  stopped exn s = None ->
  (forall e, process_pdf pdf output_dir = Raised e -> is_Exception e = true) ->
  step output_dir s pdf
  = {| manifest := manifest exn s ++ entries output_dir pdf;
       trace := trace exn s ++ events output_dir pdf;
       dir_exists := dir_exists exn s || makes output_dir pdf;
       stopped := None |}.
Proof.
  intros Hgo Hexc.
  unfold step, entries, events, makes, file_step, entries_for, trace_for,
    makes_dir.
  rewrite Hgo.
  destruct (process_pdf pdf output_dir) as [doc_out | e].
  - now rewrite orb_true_r.
  - rewrite (Hexc e eq_refl). now rewrite app_nil_r.
Qed.

(** The whole loop: it never stops early, and the manifest holds the
    entries of the processed files in order. *)
Lemma loop_caught (output_dir : pystr) (files : list pystr) (s : loop_state exn) :
  stopped exn s = None ->
  (forall pdf e, In pdf files ->
                 process_pdf pdf output_dir = Raised e -> is_Exception e = true) ->
  fold_left (step output_dir) files s
  = {| manifest := manifest exn s ++ flat_map (entries output_dir) files;
       trace := trace exn s ++ flat_map (events output_dir) files;
       dir_exists := dir_exists exn s || existsb (makes output_dir) files;
       stopped := None |}.
Proof.
  revert s; induction files as [|pdf r IH]; intros s Hgo Hexc;
    cbn [fold_left flat_map existsb].
  - rewrite !app_nil_r, orb_false_r. destruct s. cbn in Hgo. now subst.
  - rewrite file_step_caught by (auto; intros e; apply Hexc; now left).
    rewrite IH by (auto; intros f e Hf; apply Hexc; now right).
    cbn [manifest trace dir_exists]. now rewrite <- !app_assoc, orb_assoc.
Qed.

(** Once an object has left the loop, nothing more happens. *)
Lemma loop_stopped (output_dir : pystr) (files : list pystr)
    (s : loop_state exn) (e : exn) :
  stopped exn s = Some e -> fold_left (step output_dir) files s = s.
Proof.
  intros Hs. induction files as [|f r IH]; cbn [fold_left]; [reflexivity|].
  unfold step at 2. unfold file_step. rewrite Hs. exact IH.
Qed.

Lemma processed_of_events (output_dir : pystr) (files : list pystr) :
  processed_of exn (flat_map (events output_dir) files) = files.
Proof.
  unfold processed_of. induction files as [|pdf r IH]; simpl; [reflexivity|].
  rewrite flat_map_app, IH. unfold events, trace_for.
  destruct (process_pdf pdf output_dir); reflexivity.
Qed.

Lemma processed_of_app (tr1 tr2 : list (event exn)) :
  processed_of exn (tr1 ++ tr2) = processed_of exn tr1 ++ processed_of exn tr2.
Proof. unfold processed_of. apply flat_map_app. Qed.

(** A batch whose failures are all caught: the loop visits every file and
    the run ends as the write of the manifest does. *)
Lemma batch_caught (input_dir output_dir : pystr) :
  (forall pdf e, In pdf (sorted_pdfs input_dir) ->
                 process_pdf pdf output_dir = Raised e ->
                 is_Exception e = true) ->
  batch_process exn is_Exception process_pdf sorted_pdfs stem path_join
                isalnum output_dir_exists leaves_dir FileNotFoundError
                write_manifest input_dir output_dir
  = let files := sorted_pdfs input_dir in
    let written := flat_map (entries output_dir) files in
    match write_outcome exn path_join FileNotFoundError write_manifest
            output_dir written
            (dir_after exn process_pdf output_dir_exists leaves_dir
                       output_dir files) with
    | Returned _ =>
        mkBatchRun exn
          (flat_map (events output_dir) files
           ++ [WroteManifest (manifest_path path_join output_dir) written])
          (Returned tt)
    | Raised e => mkBatchRun exn (flat_map (events output_dir) files) (Raised e)
    end.
Proof.
  intros Hexc. unfold batch_process. fold step. cbv zeta.
  rewrite loop_caught by (auto; exact Hexc).
  cbn [manifest trace dir_exists stopped app].
  reflexivity.
Qed.

(** C5: when every failure of [process_pdf] on the files of the batch is
    an [Exception], the loop catches and logs each of them and goes on:
    every file is processed, in order.  The run then writes the manifest
    once, with one entry per file that was processed, in order, and none
    for a file that failed, and it ends as that write ends: it raises only
    what the write raises, which is [FileNotFoundError] when no call has
    made the output directory.  With three files of which the second
    fails, the first has made the directory, the manifest written holds
    the entries of the first and the third, and, the write into the
    directory succeeding, [batch_process] returns. *)
Theorem batch_process_isolates_failures :
  forall input_dir output_dir : pystr,
    let files := sorted_pdfs input_dir in
    let run := batch_process exn is_Exception process_pdf sorted_pdfs stem
                             path_join isalnum output_dir_exists leaves_dir
                             FileNotFoundError write_manifest
                             input_dir output_dir in
    let written := flat_map (entries output_dir) files in
    let path := path_join output_dir (lit "documents_manifest.json") in
    (forall pdf e, In pdf files ->
                   process_pdf pdf output_dir = Raised e ->
                   is_Exception e = true) ->
    processed_of exn (left_behind exn run) = files /\
    (forall pdf e, In pdf files ->
                   process_pdf pdf output_dir = Raised e ->
                   In (LoggedFailure pdf e) (left_behind exn run) /\
                   entries output_dir pdf = []) /\
    (forall p m, In (WroteManifest p m) (left_behind exn run) ->
                 p = path /\ m = written) /\
    ended exn run
    = (if output_dir_exists output_dir || existsb (makes output_dir) files
       then write_manifest path written
       else Raised FileNotFoundError) /\
    (ended exn run = Returned tt ->
     left_behind exn run
     = flat_map (events output_dir) files ++ [WroteManifest path written]) /\
    (forall f1 f2 f3 d1 d3 e,
        files = [f1; f2; f3] ->
        process_pdf f1 output_dir = Returned d1 ->
        process_pdf f2 output_dir = Raised e ->
        process_pdf f3 output_dir = Returned d3 ->
        let manifest13 := [entry_of stem path_join isalnum output_dir f1 d1;
                           entry_of stem path_join isalnum output_dir f3 d3] in
        write_manifest path manifest13 = Returned tt ->
        run = mkBatchRun exn
                [Processed f1; Processed f2; LoggedFailure f2 e; Processed f3;
                 WroteManifest path manifest13]
                (Returned tt)).
Proof.
  intros input_dir output_dir files run written path Hexc.
  pose proof (batch_caught input_dir output_dir Hexc) as Hrun.
  fold run in Hrun. cbv zeta in Hrun. fold files in Hrun. fold written in Hrun.
  unfold write_outcome, dir_after, manifest_path in Hrun.
  fold makes in Hrun. fold path in Hrun.
  set (outcome := if output_dir_exists output_dir
                     || existsb (makes output_dir) files
                  then write_manifest path written
                  else Raised FileNotFoundError) in *.
  assert (Hin : forall pdf e, In pdf files ->
                  process_pdf pdf output_dir = Raised e ->
                  In (LoggedFailure pdf e) (flat_map (events output_dir) files)).
  { intros pdf e Hpdf Hraise. apply in_flat_map. exists pdf.
    split; [exact Hpdf|]. unfold events, trace_for. rewrite Hraise.
    right. now left. }
  assert (Hnowrite : forall p m,
             ~ In (WroteManifest p m) (flat_map (events output_dir) files)).
  { intros p m H. apply in_flat_map in H as (pdf & _ & H).
    unfold events, trace_for in H.
    destruct (process_pdf pdf output_dir); simpl in H;
      intuition discriminate. }
  assert (Hended : ended exn run = outcome).
  { rewrite Hrun. destruct outcome as [[]|e]; reflexivity. }
  split; [|split; [|split; [|split; [|split]]]].
  - rewrite Hrun. destruct outcome as [[]|e]; cbn [left_behind].
    + rewrite processed_of_app, processed_of_events. apply app_nil_r.
    + apply processed_of_events.
  - intros pdf e Hpdf Hraise. split.
    + rewrite Hrun. destruct outcome as [[]|e']; cbn [left_behind].
      * apply in_or_app. left. now apply Hin.
      * now apply Hin.
    + unfold entries, entries_for. now rewrite Hraise.
  - intros p m H. rewrite Hrun in H.
    destruct outcome as [[]|e']; cbn [left_behind] in H.
    + apply in_app_or in H as [H | [H | []]].
      * now apply Hnowrite in H.
      * injection H as <- <-. now split.
    + now apply Hnowrite in H.
  - exact Hended.
  - intros Hret. rewrite Hended in Hret. rewrite Hrun, Hret. reflexivity.
  - intros f1 f2 f3 d1 d3 e Hfiles H1 H2 H3 manifest13 Hwrite.
    assert (Hwritten : written = manifest13).
    { unfold written. rewrite Hfiles. cbn [flat_map].
      unfold entries, entries_for. now rewrite H1, H2, H3. }
    assert (Hdir : existsb (makes output_dir) files = true).
    { rewrite Hfiles. cbn [existsb]. unfold makes at 1. unfold makes_dir.
      now rewrite H1. }
    rewrite Hrun. unfold outcome.
    rewrite Hdir, orb_true_r, Hwritten, Hwrite, Hfiles.
    cbn [flat_map]. unfold events, trace_for. now rewrite H1, H2, H3.
Qed.

End BatchFacts.

(** The theorem above on three files whose second raises [FileDataError],
    with an output directory that does not exist before the run. *)
Lemma batch_process_isolates_failures_witness :
  Batch.batch_process Examples.raised Examples.raised_is_Exception
    Examples.process_three Examples.three_pdfs Examples.stem4
    Examples.slash_join Examples.ascii_alnum Examples.no_dir
    Examples.leaves_nothing Examples.FileNotFoundError Examples.write_ok
    (lit "in") (lit "out")
  = Batch.mkBatchRun Examples.raised
      [Batch.Processed (lit "a.pdf"); Batch.Processed (lit "b.pdf");
       Batch.LoggedFailure (lit "b.pdf") Examples.FileDataError;
       Batch.Processed (lit "c.pdf");
       Batch.WroteManifest (lit "out/documents_manifest.json")
         [Batch.mkEntry (lit "id-a.pdf") (lit "a.pdf") (lit "out/a.json");
          Batch.mkEntry (lit "id-c.pdf") (lit "c.pdf") (lit "out/c.json")]]
      (Batch.Returned tt).
Proof.
  assert (Hexc : forall pdf e,
             In pdf (Examples.three_pdfs (lit "in")) ->
             Examples.process_three pdf (lit "out") = Batch.Raised e ->
             Examples.raised_is_Exception e = true).
  { intros pdf e [<- | [<- | [<- | []]]] H; vm_compute in H;
      try discriminate. now injection H as <-. }
  destruct (batch_process_isolates_failures
              Examples.raised Examples.raised_is_Exception
              Examples.process_three Examples.three_pdfs Examples.stem4
              Examples.slash_join Examples.ascii_alnum Examples.no_dir
              Examples.leaves_nothing Examples.FileNotFoundError
              Examples.write_ok (lit "in") (lit "out") Hexc)
    as (_ & _ & _ & _ & _ & H3).
  exact (H3 (lit "a.pdf") (lit "b.pdf") (lit "c.pdf")
            (Examples.doc_named "a.pdf") (Examples.doc_named "c.pdf")
            Examples.FileDataError eq_refl eq_refl eq_refl eq_refl eq_refl).
Defined.

(* ------------------------------------------------------------------ *)
(** ** File names *)

Section FileNameFacts.
Import Batch FileName.

Variable isalnum : N -> bool.

Let replace (c : N) : N := if kept isalnum c then c else 95%N.

Lemma sanitize_filename_map (name : pystr) :
  sanitize_filename isalnum name = firstn 200 (map replace name).
Proof. reflexivity. Qed.

Lemma In_firstn {A} (n : nat) (l : list A) (x : A) :
  In x (firstn n l) -> In x l.
Proof.
  revert l; induction n as [|n IH]; intros [|y l]; simpl; try tauto.
  intros [H | H]; [now left | right; now apply IH].
Qed.

Lemma kept_underscore : kept isalnum 95 = true.
Proof. unfold kept. apply orb_true_iff. right. reflexivity. Qed.

Lemma kept_replace (c : N) : kept isalnum (replace c) = true.
Proof.
  unfold replace. destruct (kept isalnum c) eqn:E;
    [exact E | exact kept_underscore].
Qed.

Lemma replace_kept (c : N) : kept isalnum c = true -> replace c = c.
Proof. unfold replace. now intros ->. Qed.

Lemma replace_dropped (c : N) : kept isalnum c = false -> replace c = 95%N.
Proof. unfold replace. now intros ->. Qed.

(** X1 ([sanitize_filename]).  The sanitized name has the length of the
    name, capped at 200; each of its characters passes the test
    [c.isalnum() or c in "._-"]; and position by position it is the
    character of the name, or an underscore where that character fails the
    test. *)
Theorem sanitize_filename_shape :
  forall name : pystr,
    let out := sanitize_filename isalnum name in
    List.length out = Nat.min 200 (List.length name) /\
    Forall (fun c => kept isalnum c = true) out /\
    forall i c, nth_error out i = Some c ->
      exists c0, nth_error name i = Some c0 /\
                 (if kept isalnum c0 then c = c0 else c = 95%N).
Proof.
  intros name out. subst out. rewrite sanitize_filename_map.
  split; [|split].
  - now rewrite length_firstn, length_map.
  - apply Forall_forall. intros c Hc. apply In_firstn in Hc.
    apply in_map_iff in Hc as (c0 & <- & _). apply kept_replace.
  - intros i c Hi. rewrite nth_error_firstn in Hi.
    destruct (i <? 200)%nat; [|discriminate].
    rewrite nth_error_map in Hi.
    destruct (nth_error name i) as [c0|]; [|discriminate].
    injection Hi as <-. exists c0. split; [reflexivity|].
    unfold replace. now destruct (kept isalnum c0).
Qed.

(** X2 ([sanitize_filename]).  Sanitizing is idempotent: a sanitized name
    is left as it is. *)
Theorem sanitize_filename_idempotent :
  forall name : pystr,
    sanitize_filename isalnum (sanitize_filename isalnum name)
    = sanitize_filename isalnum name.
Proof.
  intros name. rewrite !sanitize_filename_map.
  rewrite <- firstn_map, firstn_firstn, Nat.min_id, map_map.
  f_equal. apply map_ext. intros c. apply replace_kept, kept_replace.
Qed.

(** X3 ([sanitize_filename]).  Only the first 200 characters of a name
    count: two names that agree on them are sanitized to the same name. *)
Theorem sanitize_filename_first_200 :
  forall name : pystr,
    sanitize_filename isalnum name
    = sanitize_filename isalnum (firstn 200 name).
Proof.
  intros name. rewrite !sanitize_filename_map.
  now rewrite <- !firstn_map, firstn_firstn, Nat.min_id.
Qed.

Variable stem : pystr -> pystr.
Variable path_join : pystr -> pystr -> pystr.

(** X4 ([sanitize_filename], [batch_process]).  The JSON path is not
    injective in the file name: when the stems of two PDFs differ only in
    one place, where the first has a character that fails the test and the
    second an underscore, their manifest entries carry the same
    [json_path]. *)
Theorem json_path_collision :
  forall (output_dir pdf1 pdf2 pre post : pystr) (c : N)
         (d1 d2 : ProcessedDocument),
    stem pdf1 = pre ++ c :: post ->
    stem pdf2 = pre ++ 95%N :: post ->
    kept isalnum c = false ->
    json_path (entry_of stem path_join isalnum output_dir pdf1 d1)
    = json_path (entry_of stem path_join isalnum output_dir pdf2 d2).
Proof.
  intros output_dir pdf1 pdf2 pre post c d1 d2 H1 H2 Hc.
  unfold entry_of; cbn [json_path]. rewrite H1, H2.
  rewrite !sanitize_filename_map, !map_app. cbn [map].
  now rewrite (replace_dropped c Hc), (replace_kept 95%N kept_underscore).
Qed.

End FileNameFacts.

(** The pair [a b.pdf], [a_b.pdf] of one directory: one JSON path. *)
Lemma json_path_collision_witness :
  FileName.blank_pdf <> FileName.underscore_pdf /\
  Batch.json_path
    (Batch.entry_of Examples.stem4 Examples.slash_join Examples.ascii_alnum
       (lit "out") FileName.blank_pdf (Examples.doc_named "a b.pdf"))
  = Batch.json_path
      (Batch.entry_of Examples.stem4 Examples.slash_join Examples.ascii_alnum
         (lit "out") FileName.underscore_pdf (Examples.doc_named "a_b.pdf")).
Proof.
  split; [discriminate|].
  apply (json_path_collision Examples.ascii_alnum Examples.stem4
           Examples.slash_join (lit "out")
           FileName.blank_pdf FileName.underscore_pdf
           (lit "a") (lit "b") 32%N);
    reflexivity.
Defined.

(* ------------------------------------------------------------------ *)
(** ** Scanned-document heuristic: the sample *)

Section OcrSampleFacts.
Import Ocr.

Lemma filter_all {A} (f : A -> bool) (l : list A) :
  Forall (fun x => f x = true) l -> filter f l = l.
Proof.
  induction 1 as [|x l Hx _ IH]; simpl; [reflexivity|].
  now rewrite Hx, IH.
Qed.

(** X5 ([needs_ocr_check]).  The verdict depends on the first
    [page_sample_count] pages only: the pages after them are never read. *)
Theorem needs_ocr_check_reads_sample_only :
  forall (doc : PlainDoc) (page_sample_count : Z),
    needs_ocr_check (firstn (Z.to_nat page_sample_count) doc) page_sample_count
    = needs_ocr_check doc page_sample_count.
Proof.
  intros doc k. unfold needs_ocr_check.
  rewrite length_firstn.
  assert (Hs : Z.min k (Z.of_nat (Nat.min (Z.to_nat k) (List.length doc)))
               = Z.min k (Z.of_nat (List.length doc))) by lia.
  rewrite Hs. cbv zeta.
  rewrite firstn_firstn.
  replace (Nat.min (Z.to_nat (Z.min k (Z.of_nat (List.length doc))))
                   (Z.to_nat k))
    with (Z.to_nat (Z.min k (Z.of_nat (List.length doc)))) by lia.
  reflexivity.
Qed.

(** X6 ([needs_ocr_check]).  With a sample count of zero or less no page
    is read and the document is never flagged, whatever it holds. *)
Theorem needs_ocr_check_nonpositive_sample :
  forall (doc : PlainDoc) (page_sample_count : Z),
    page_sample_count <= 0 ->
    needs_ocr_check doc page_sample_count = false.
Proof.
  intros doc k Hk. unfold needs_ocr_check.
  replace (Z.to_nat (Z.min k (Z.of_nat (List.length doc)))) with 0%nat by lia.
  cbn [firstn fold_left]. apply Z.leb_gt. lia.
Qed.

Lemma needs_ocr_check_nonpositive_sample_witness :
  needs_ocr_check [lit "  "; lit ""] 0 = false.
Proof.
  apply (needs_ocr_check_nonpositive_sample [lit "  "; lit ""] 0). lia.
Defined.

(** X7 ([needs_ocr_check]).  A document with at least one page whose
    sampled pages are all near-empty is flagged, for every positive sample
    count. *)
Theorem needs_ocr_check_blank_document :
  forall (doc : PlainDoc) (page_sample_count : Z),
    doc <> [] -> 1 <= page_sample_count ->
    Forall (fun raw => near_empty raw = true)
           (firstn (Z.to_nat page_sample_count) doc) ->
    needs_ocr_check doc page_sample_count = true.
Proof.
  intros doc k Hdoc Hk Hall. unfold needs_ocr_check. cbv zeta.
  set (sample := Z.min k (Z.of_nat (List.length doc))).
  assert (Hlen : 1 <= Z.of_nat (List.length doc)).
  { destruct doc; [congruence | simpl List.length; lia]. }
  assert (Hpre : firstn (Z.to_nat sample) doc
                 = firstn (Z.to_nat sample) (firstn (Z.to_nat k) doc)).
  { rewrite firstn_firstn. f_equal. lia. }
  rewrite count_page_fold, Hpre, filter_all.
  - unfold len_nat. rewrite !length_firstn. apply Z.leb_le.
    assert (sample / 2 <= sample) by (apply Z.div_le_upper_bound; lia).
    lia.
  - apply Forall_forall. intros x Hx. apply In_firstn in Hx.
    revert x Hx. apply Forall_forall. exact Hall.
Qed.

Lemma needs_ocr_check_blank_document_witness :
  needs_ocr_check [lit "  "; lit "page 2"] 5 = true.
Proof.
  apply (needs_ocr_check_blank_document [lit "  "; lit "page 2"] 5).
  - discriminate.
  - lia.
  - repeat constructor.
Defined.

End OcrSampleFacts.

(* ------------------------------------------------------------------ *)
(** ** Block normalizer: what is kept and what is dropped *)

Section NormalizerMoreFacts.
Import Layout Normalizer Spans.

Lemma truthy_false (s : pystr) : truthy s = false <-> s = [].
Proof. destruct s; simpl; split; congruence. Qed.

(** X8 ([extract_text_blocks]).  A primitive is dropped exactly when it is
    not a text primitive (its [type] is missing or not 0) or the text of
    its spans is blank; a primitive that is kept carries that text,
    trimmed, and its [bbox]. *)
Theorem normalize_block_drops_blank_and_non_text :
  forall b : RawBlock,
    (normalize_block b = None <->
     type b <> Some 0 \/ strip (collected_text b) = []) /\
    (forall blk, normalize_block b = Some blk ->
       Block.text blk = strip (collected_text b) /\
       Block.bbox blk = raw_bbox b).
Proof.
  intros b. unfold normalize_block, collected_text, span_text_or_empty.
  rewrite scan_block_text.
  set (t := strip _).
  destruct (type b) as [[|p|p]|]; cbv zeta.
  - destruct (truthy t) eqn:Ht.
    + split.
      * split; [discriminate|]. intros [H | H]; [congruence|].
        apply truthy_false in H. congruence.
      * intros blk [= <-]. cbn [Block.text Block.bbox]. now split.
    + split; [|discriminate]. split; [|reflexivity].
      intros _. right. now apply truthy_false.
  - split; [|discriminate]. split; [|reflexivity]. intros _. left. discriminate.
  - split; [|discriminate]. split; [|reflexivity]. intros _. left. discriminate.
  - split; [|discriminate]. split; [|reflexivity]. intros _. left. discriminate.
Qed.

Lemma set_add_In (f x : pystr) (fonts : list pystr) :
  In x (set_add f fonts) <-> x = f \/ In x fonts.
Proof.
  unfold set_add. destruct (mem f fonts) eqn:E.
  - apply mem_In in E. split; [tauto|]. intros [-> | H]; assumption.
  - rewrite in_app_iff. simpl. split; intros H; [|].
    + destruct H as [H | [H | []]]; [now right | now left].
    + destruct H as [H | H]; [right; left; congruence | now left].
Qed.

Lemma set_add_NoDup (f : pystr) (fonts : list pystr) :
  NoDup fonts -> NoDup (set_add f fonts).
Proof.
  intros H. unfold set_add. destruct (mem f fonts) eqn:E; [exact H|].
  assert (Hf : ~ In f fonts).
  { intros Hin. apply mem_In in Hin. congruence. }
  clear E. induction H as [|y l Hy _ IH]; simpl.
  - constructor; [tauto | constructor].
  - constructor.
    + rewrite in_app_iff. simpl. intros [H | [H | []]]; [tauto|].
      apply Hf. now left.
    + apply IH. intros Hin. apply Hf. now right.
Qed.

Lemma span_fold_fonts (sps : list Span) (a : acc) :
  NoDup (acc_fonts a) ->
  NoDup (acc_fonts (fold_left span_step sps a)) /\
  forall f, In f (acc_fonts (fold_left span_step sps a)) <->
            In f (acc_fonts a) \/ In f (map span_font_or_empty sps).
Proof.
  revert a; induction sps as [|sp r IH]; intros a Ha; cbn [fold_left map].
  - split; [exact Ha|]. intros f. simpl. tauto.
  - destruct (IH (span_step a sp)) as [Hnd Hin].
    { cbn [span_step acc_fonts]. now apply set_add_NoDup. }
    split; [exact Hnd|]. intros f. rewrite Hin.
    cbn [span_step acc_fonts]. rewrite set_add_In.
    unfold span_font_or_empty. simpl. intuition congruence.
Qed.

(** X9 ([extract_text_blocks]).  The [fonts] of a kept block hold no font
    twice, and hold exactly the fonts of the spans of the primitive, where a
    span without a font counts as the font with the empty name. *)
Theorem normalized_fonts_are_the_span_fonts :
  forall (b : RawBlock) (blk : Block.t),
    normalize_block b = Some blk ->
    NoDup (Block.fonts blk) /\
    forall f, In f (Block.fonts blk) <->
              In f (map span_font_or_empty (all_spans b)).
Proof.
  intros b blk H. unfold normalize_block in H.
  destruct (type b) as [[|p|p]|]; try discriminate. cbv zeta in H.
  destruct (truthy _); [|discriminate]. injection H as <-.
  cbn [Block.fonts]. unfold scan_block. rewrite line_fold_spans.
  destruct (span_fold_fonts (flat_map spans (lines b)) (mkAcc [] [] []))
    as [Hnd Hin]; [constructor|].
  split; [exact Hnd|]. intros f. rewrite Hin. cbn [acc_fonts].
  unfold all_spans. simpl. tauto.
Qed.

Lemma normalized_fonts_are_the_span_fonts_witness :
  exists blk,
    normalize_block Examples.mixed_raw = Some blk /\
    NoDup (Block.fonts blk) /\
    forall f, In f (Block.fonts blk) <->
              In f [lit "Times"; lit "Times"; []].
Proof.
  destruct (normalize_block Examples.mixed_raw) as [blk|] eqn:E;
    [|vm_compute in E; discriminate].
  exists blk. split; [reflexivity|].
  exact (normalized_fonts_are_the_span_fonts Examples.mixed_raw blk E).
Defined.

Lemma pages_from_shape (doc : Document) (p : nat) :
  map Page.page_number (pages_from (Z.of_nat p) doc)
  = map Z.of_nat (seq (S p) (List.length doc)) /\
  map Page.blocks (pages_from (Z.of_nat p) doc)
  = map (fun page => normalize_blocks (page_dict_blocks page)) doc.
Proof.
  revert p; induction doc as [|page r IH]; intros p;
    cbn [pages_from map seq List.length].
  - now split.
  - replace (Z.of_nat p + 1) with (Z.of_nat (S p)) by lia.
    destruct (IH (S p)) as [H1 H2]. cbn [Page.page_number Page.blocks].
    rewrite H1, H2. now split.
Qed.

(** X10 ([extract_text_blocks]).  The result has one page per page of the
    source, in order and numbered from 1, a page without text included; the
    blocks of a page are the kept primitives of that page, in order. *)
Theorem extract_text_blocks_pages :
  forall doc : Document,
    let pages := extract_text_blocks doc in
    map Page.page_number pages = page_numbers (List.length doc) /\
    map Page.blocks pages
    = map (fun page => normalize_blocks (page_dict_blocks page)) doc /\
    forall page blk,
      In blk (normalize_blocks (page_dict_blocks page)) <->
      exists b, In b (page_dict_blocks page) /\ normalize_block b = Some blk.
Proof.
  intros doc pages. subst pages. unfold extract_text_blocks, page_numbers.
  destruct (pages_from_shape doc 0) as [H1 H2]. cbn [Z.of_nat] in H1, H2.
  split; [exact H1|]. split; [exact H2|].
  intros page blk. split; [apply normalize_blocks_In|].
  intros (b & Hb & Hn). induction (page_dict_blocks page) as [|b0 r IH];
    [destruct Hb|]. cbn [normalize_blocks].
  destruct Hb as [-> | Hb].
  - rewrite Hn. now left.
  - destruct (normalize_block b0); [right|]; now apply IH.
Qed.

End NormalizerMoreFacts.

(* ------------------------------------------------------------------ *)
(** ** Header/footer repetition detector: after the removal *)

Section HeaderRemovalFacts.
Import Headers.

Let counted (t : pystr) (b : Block.t) : bool :=
  eqb (strip (Block.text b)) t && (len (strip (Block.text b)) <? 120).

Let kept_by (repeated : list pystr) (b : Block.t) : bool :=
  negb (mem (strip (Block.text b)) repeated).

Lemma filter_filter {A} (f g : A -> bool) (l : list A) :
  filter f (filter g l) = filter (fun x => f x && g x) l.
Proof.
  induction l as [|x l IH]; simpl; [reflexivity|].
  destruct (g x); simpl; rewrite ?IH, ?andb_false_r, ?andb_true_r;
    reflexivity.
Qed.

Lemma filter_none {A} (f : A -> bool) (l : list A) :
  (forall x, In x l -> f x = false) -> filter f l = [].
Proof.
  induction l as [|x l IH]; simpl; intros H; [reflexivity|].
  rewrite (H x (or_introl eq_refl)). apply IH. intros y Hy. apply H. now right.
Qed.

Lemma filter_page_blocks (repeated : list pystr) (ps : list Page.t) :
  flat_map Page.blocks (map (filter_page repeated) ps)
  = filter (kept_by repeated) (flat_map Page.blocks ps).
Proof.
  induction ps as [|p r IH]; cbn [map flat_map]; [reflexivity|].
  rewrite filter_app, IH. reflexivity.
Qed.

Lemma occurrences_after_removal (t : pystr) (ps : list Page.t)
    (repeated : list pystr) :
  occurrences t (remove_repeated_headers_from_blocks ps repeated)
  = if mem t repeated then 0 else occurrences t ps.
Proof.
  destruct repeated as [|r0 rs]; [reflexivity|].
  set (repeated := r0 :: rs).
  change (remove_repeated_headers_from_blocks ps repeated)
    with (map (filter_page repeated) ps).
  unfold occurrences. fold (counted t).
  rewrite filter_page_blocks, filter_filter.
  destruct (mem t repeated) eqn:E.
  - rewrite filter_none; [reflexivity|]. intros b _.
    unfold counted, kept_by.
    destruct (eqb (strip (Block.text b)) t) eqn:Eb; [|reflexivity].
    apply eqb_eq in Eb. rewrite Eb, E. now rewrite andb_false_r.
  - f_equal. apply filter_ext. intros b. unfold counted, kept_by.
    destruct (eqb (strip (Block.text b)) t) eqn:Eb; [|reflexivity].
    apply eqb_eq in Eb. rewrite Eb, E. now rewrite andb_true_r.
Qed.

Lemma removal_keeps_page_count (ps : list Page.t) (repeated : list pystr) :
  len_nat (remove_repeated_headers_from_blocks ps repeated) = len_nat ps.
Proof.
  unfold len_nat. destruct repeated; [reflexivity|].
  cbn [remove_repeated_headers_from_blocks]. now rewrite length_map.
Qed.

(** X11 ([detect_repeated_headers],
    [remove_repeated_headers_from_blocks]).  One pass is enough: on the
    pages left by the removal of the detected texts, the detector finds no
    repeated text any more. *)
Theorem no_repeated_header_after_removal :
  forall (pages_blocks : list Page.t) (repeated : list pystr),
    detect_repeated_headers pages_blocks = Some repeated ->
    detect_repeated_headers
      (remove_repeated_headers_from_blocks pages_blocks repeated)
    = Some [].
Proof.
  intros ps repeated H. unfold detect_repeated_headers in *.
  rewrite removal_keeps_page_count.
  destruct (header_threshold (len_nat ps)) as [th|] eqn:Hth; [|discriminate].
  injection H as H. f_equal.
  assert (Hth2 : 2 <= th) by (eapply header_threshold_ge_2; eassumption).
  set (ps' := remove_repeated_headers_from_blocks ps repeated).
  destruct (select th (phrase_counter ps')) as [|t l] eqn:E; [reflexivity|].
  exfalso.
  assert (Hin : In t (select th (phrase_counter ps')))
    by (rewrite E; now left).
  apply select_In in Hin; [|apply phrase_counter_well_formed | lia].
  rewrite phrase_counter_counts_blocks in Hin. subst ps'.
  rewrite occurrences_after_removal in Hin.
  destruct (mem t repeated) eqn:Em; [lia|].
  assert (Hrep : In t repeated).
  { rewrite <- H. apply select_In;
      [apply phrase_counter_well_formed | lia |].
    now rewrite phrase_counter_counts_blocks. }
  apply mem_In in Hrep. congruence.
Qed.

Lemma no_repeated_header_after_removal_witness :
  detect_repeated_headers
    (remove_repeated_headers_from_blocks Examples.draft_doc7 [lit "Draft"])
  = Some [].
Proof.
  apply (no_repeated_header_after_removal Examples.draft_doc7 [lit "Draft"]).
  vm_compute. reflexivity.
Defined.

Lemma NoDup_keys_filter {A B} (f : A * B -> bool) (c : list (A * B)) :
  NoDup (map fst c) -> NoDup (map fst (filter f c)).
Proof.
  induction c as [|x c IH]; simpl; intros H; [constructor|].
  inversion H as [|? ? Hx Hc]; subst.
  destruct (f x); simpl; [|now apply IH].
  constructor; [|now apply IH].
  intros Hin. apply Hx. apply in_map_iff in Hin as (y & Hy & Hin).
  apply filter_In in Hin as [Hin _]. apply in_map_iff. now exists y.
Qed.

(** X12 ([detect_repeated_headers]).  The detected list names no text
    twice, and each text it names is trimmed and is the text of at least
    two blocks of the document. *)
Theorem detected_headers_distinct_and_repeated :
  forall (pages_blocks : list Page.t) (repeated : list pystr),
    detect_repeated_headers pages_blocks = Some repeated ->
    NoDup repeated /\
    forall t, In t repeated ->
      trimmed t /\ 2 <= occurrences t pages_blocks.
Proof.
  intros ps repeated H. unfold detect_repeated_headers in H.
  destruct (header_threshold (len_nat ps)) as [th|] eqn:Hth; [|discriminate].
  injection H as <-.
  assert (Hth2 : 2 <= th) by (eapply header_threshold_ge_2; eassumption).
  split.
  - apply NoDup_keys_filter. apply phrase_counter_well_formed.
  - intros t Ht.
    apply select_In in Ht; [|apply phrase_counter_well_formed | lia].
    rewrite phrase_counter_counts_blocks in Ht. split; [|lia].
    unfold occurrences in Ht.
    destruct (filter _ (flat_map Page.blocks ps)) as [|b l] eqn:E.
    + unfold len_nat in Ht. simpl in Ht. lia.
    + assert (Hb : In b (b :: l)) by now left.
      rewrite <- E in Hb. apply filter_In in Hb as [_ Hb].
      apply andb_true_iff in Hb as [Hb _]. apply eqb_eq in Hb.
      rewrite <- Hb. apply strip_trimmed.
Qed.

Lemma detected_headers_distinct_and_repeated_witness :
  NoDup [lit "Draft"] /\
  forall t, In t [lit "Draft"] ->
    trimmed t /\ 2 <= occurrences t Examples.draft_doc7.
Proof.
  apply (detected_headers_distinct_and_repeated Examples.draft_doc7).
  vm_compute. reflexivity.
Defined.

(** *** The detector in terms of the document *)








End HeaderRemovalFacts.

(* ------------------------------------------------------------------ *)
(** ** Heading and section segmenter: headings and order *)

Section SegmenterHeadingFacts.
Import Segmenter Reading.

Let named (s : Sec.t) : Prop := Sec.heading s <> [].

Lemma finalize_named (default : pystr) (c : current) :
  default <> [] -> named (finalize default c).
Proof.
  intros Hd. unfold named, finalize; cbn [Sec.heading].
  destruct (cur_heading c) as [[|x h]|]; simpl; try exact Hd. discriminate.
Qed.

Lemma block_step_named (threshold : Q) (pn : Z) (st : state) (b : Block.t) :
  Forall named (fst st) -> Forall named (fst (block_step threshold pn st b)).
Proof.
  destruct st as [sections cur]. unfold block_step. cbn [fst]. intros H.
  destruct (is_heading threshold b); cbn [fst]; [|exact H].
  destruct (nonempty_current cur); [|exact H].
  apply Forall_app. split; [exact H|]. constructor; [|constructor].
  apply finalize_named. discriminate.
Qed.

Lemma item_fold_named (threshold : Q) (l : list item) (st : state) :
  Forall named (fst st) ->
  Forall named (fst (fold_left (item_step threshold) l st)).
Proof.
  revert st; induction l as [|x l IH]; intros st H; cbn [fold_left];
    [exact H|].
  apply IH. unfold item_step. now apply block_step_named.
Qed.

Lemma push_last_named (st : state) :
  Forall named (fst st) -> Forall named (push_last st).
Proof.
  destruct st as [sections cur]. unfold push_last. cbn [fst]. intros H.
  destruct (nonempty_current cur); [|exact H].
  apply Forall_app. split; [exact H|]. constructor; [|constructor].
  apply finalize_named. discriminate.
Qed.

Lemma sections_all_named (pages_blocks : list Page.t) :
  Forall (fun s => Sec.heading s <> [])
         (detect_headings_and_sections pages_blocks).
Proof.
  unfold detect_headings_and_sections.
  destruct (all_font_sizes pages_blocks) as [|q0 qs].
  - apply Forall_forall. intros s H. apply in_map_iff in H as (p & <- & _).
    unfold page_section; cbn [Sec.heading]. discriminate.
  - cbv zeta. rewrite page_fold_stream.
    apply push_last_named, item_fold_named. constructor.
Qed.

(** X13 ([detect_headings_and_sections]).  No section has an empty
    heading, whatever the pages hold: a section opened by no heading block,
    or by one whose text is blank, is named [Untitled] or [Introduction],
    and a fallback section is named after its page. *)
Theorem section_headings_nonempty :
  forall (pages_blocks : list Page.t) (s : Sec.t),
    In s (detect_headings_and_sections pages_blocks) ->
    Sec.heading s <> [].
Proof.
  intros ps s. unfold detect_headings_and_sections.
  destruct (all_font_sizes ps) as [|q0 qs].
  - intros H. apply in_map_iff in H as (p & <- & _).
    unfold page_section; cbn [Sec.heading]. discriminate.
  - cbv zeta. rewrite page_fold_stream. revert s.
    apply Forall_forall. apply push_last_named, item_fold_named.
    constructor.
Qed.

(** The section opened by a blank heading block is named
    [Introduction]. *)
Lemma section_headings_nonempty_witness :
  exists s,
    In s (detect_headings_and_sections blank_heading_doc) /\
    Sec.text s = lit "text" /\
    Sec.heading s <> [].
Proof.
  exists (Sec.mk (lit "Introduction") (lit "text") (Some 1) (Some 1)).
  assert (H : In (Sec.mk (lit "Introduction") (lit "text") (Some 1) (Some 1))
                 (detect_headings_and_sections blank_heading_doc))
    by (vm_compute; left; reflexivity).
  split; [exact H|]. split; [reflexivity|].
  exact (section_headings_nonempty blank_heading_doc _ H).
Defined.

(** *** The 90th percentile never exceeds the largest size *)

Lemma insert_sorted_In (x y : Q) (l : list Q) :
  In x (insert_sorted y l) <-> x = y \/ In x l.
Proof.
  induction l as [|z l IH]; simpl; [intuition congruence|].
  destruct (Qle_bool y z); simpl; [intuition congruence|].
  rewrite IH. tauto.
Qed.

Lemma sort_In (x : Q) (l : list Q) : In x (sort l) <-> In x l.
Proof.
  induction l as [|y l IH]; simpl; [tauto|].
  rewrite insert_sorted_In, IH. intuition congruence.
Qed.

Lemma insert_sorted_length (y : Q) (l : list Q) :
  List.length (insert_sorted y l) = S (List.length l).
Proof.
  induction l as [|z l IH]; simpl; [reflexivity|].
  destruct (Qle_bool y z); simpl; [reflexivity | now rewrite IH].
Qed.

Lemma sort_length (l : list Q) : List.length (sort l) = List.length l.
Proof.
  induction l as [|y l IH]; simpl; [reflexivity|].
  now rewrite insert_sorted_length, IH.
Qed.

(** The two order statistics the interpolation reads exist, and the weight
    lies in the unit interval. *)
Lemma percentile_90_indices (n : Z) :
  1 <= n ->
  let virtual := (inject_Z (n - 1) * (90 / 100))%Q in
  let lo := Qfloor virtual in
  0 <= lo <= n - 1 /\
  0 <= Z.min (lo + 1) (n - 1) <= n - 1 /\
  (0 <= virtual - inject_Z lo)%Q /\ (virtual - inject_Z lo <= 1)%Q.
Proof.
  intros Hn virtual lo.
  assert (H0 : (0 <= inject_Z (n - 1))%Q).
  { change 0%Q with (inject_Z 0). rewrite <- Zle_Qle. lia. }
  assert (Hv : (0 <= virtual)%Q /\ (virtual <= inject_Z (n - 1))%Q).
  { subst virtual. set (k := inject_Z (n - 1)) in *. clearbody k.
    assert (E : (90 / 100 == 9 # 10)%Q) by reflexivity.
    rewrite E. split; lra. }
  destruct Hv as [Hv0 Hv1].
  assert (Hlo0 : 0 <= lo).
  { subst lo. rewrite <- (Qfloor_Z 0). now apply Qfloor_resp_le. }
  assert (Hlo1 : lo <= n - 1).
  { subst lo. rewrite <- (Qfloor_Z (n - 1)). now apply Qfloor_resp_le. }
  split; [lia|]. split; [lia|].
  pose proof (Qfloor_le virtual) as Hf.
  pose proof (Qlt_floor virtual) as Hc. fold lo in Hf, Hc.
  rewrite inject_Z_plus in Hc. change (inject_Z 1) with 1%Q in Hc.
  set (l := inject_Z lo) in *. clearbody virtual l.
  split; lra.
Qed.

Lemma nth_sort_In (a : list Q) (i : Z) :
  0 <= i <= len_nat a - 1 -> In (nth (Z.to_nat i) (sort a) 0%Q) a.
Proof.
  intros Hi. apply sort_In. apply nth_In. rewrite sort_length.
  unfold len_nat in Hi. lia.
Qed.

Lemma percentile_90_le_max (a : list Q) (m : Q) :
  a <> [] -> (forall x, In x a -> (x <= m)%Q) ->
  (percentile a 90 <= m)%Q.
Proof.
  intros Ha Hm. unfold percentile. cbv zeta.
  assert (Hn : 1 <= len_nat (sort a)).
  { unfold len_nat. rewrite sort_length. destruct a; [congruence|].
    simpl List.length. lia. }
  destruct (percentile_90_indices _ Hn) as (Hlo & Hhi & Hg0 & Hg1).
  assert (Hlen : len_nat (sort a) = len_nat a)
    by (unfold len_nat; now rewrite sort_length).
  rewrite Hlen in Hlo, Hhi.
  pose proof (Hm _ (nth_sort_In a _ Hlo)) as Hx.
  pose proof (Hm _ (nth_sort_In a _ Hhi)) as Hy.
  rewrite Hlen in *.
  set (x := nth _ (sort a) 0%Q) in *.
  set (y := nth _ (sort a) 0%Q) in Hy |- *.
  set (g := (_ - inject_Z _)%Q) in *.
  clearbody x y g. nra.
Qed.

Lemma block_size_counted (ps : list Page.t) (p : Page.t) (b : Block.t) (m : Q) :
  In p ps -> In b (Page.blocks p) ->
  Block.max_font_size b = Some m -> Qnonzero m = true ->
  In m (all_font_sizes ps).
Proof.
  intros Hp Hb Hm Hnz. unfold all_font_sizes. apply in_flat_map.
  exists p. split; [exact Hp|]. unfold block_sizes. apply in_flat_map.
  exists b. split; [exact Hb|]. unfold has_font_size. rewrite Hm, Hnz.
  now left.
Qed.

(** X14 ([detect_headings_and_sections]).  The threshold never exceeds the
    largest font size of the document, so a block of the largest size is
    always taken for a heading: a document with any font size has at least
    one heading block. *)
Theorem largest_font_block_is_heading :
  forall (pages_blocks : list Page.t) (p : Page.t) (b : Block.t) (m : Q),
    In p pages_blocks -> In b (Page.blocks p) ->
    Block.max_font_size b = Some m -> Qnonzero m = true ->
    (forall q, In q (all_font_sizes pages_blocks) -> (q <= m)%Q) ->
    (heading_threshold pages_blocks <= m)%Q /\
    is_heading (heading_threshold pages_blocks) b = true.
Proof.
  intros ps p b m Hp Hb Hm Hnz Hmax.
  assert (Hin : In m (all_font_sizes ps))
    by (eapply block_size_counted; eassumption).
  assert (Hth : (heading_threshold ps <= m)%Q).
  { unfold heading_threshold. apply percentile_90_le_max; [|exact Hmax].
    intros E. rewrite E in Hin. destruct Hin. }
  split; [exact Hth|].
  unfold is_heading, has_font_size. rewrite Hm, Hnz. cbn [andb Normalizer.opt_get].
  now apply Qle_bool_iff.
Qed.

Lemma largest_font_block_is_heading_witness :
  (heading_threshold Examples.five_blocks <= 24)%Q /\
  is_heading (heading_threshold Examples.five_blocks)
             (Examples.sized "Results" 24) = true.
Proof.
  apply (largest_font_block_is_heading Examples.five_blocks
           (Page.mk 1 [Examples.sized "one" 10; Examples.sized "two" 10;
                       Examples.sized "three" 10; Examples.sized "four" 10;
                       Examples.sized "Results" 24])
           (Examples.sized "Results" 24) 24%Q).
  - now left.
  - cbn [Page.blocks]. do 4 right. now left.
  - reflexivity.
  - reflexivity.
  - intros q Hq. vm_compute in Hq.
    destruct Hq as [<- | [<- | [<- | [<- | [<- | []]]]]];
      vm_compute; discriminate.
Defined.

End SegmenterHeadingFacts.

(* ------------------------------------------------------------------ *)
(** ** Heading and section segmenter: a rare large size *)

Section SegmenterThresholdFacts.
Import Segmenter Reading.

Lemma insert_sorted_count (x y : Q) (s : list Q) :
  count_le x (insert_sorted y s) = count_le x (y :: s).
Proof.
  unfold count_le. induction s as [|z s IH]; [reflexivity|].
  cbn [insert_sorted]. destruct (Qle_bool y z); [reflexivity|].
  cbn [filter] in *.
  destruct (Qle_bool z x), (Qle_bool y x); cbn [List.length] in *; lia.
Qed.

Lemma sort_count (x : Q) (a : list Q) : count_le x (sort a) = count_le x a.
Proof.
  induction a as [|y a IH]; [reflexivity|].
  cbn [sort fold_right]. fold (sort a). rewrite insert_sorted_count.
  unfold count_le in *. cbn [filter].
  destruct (Qle_bool y x); cbn [List.length]; now rewrite IH.
Qed.

Lemma insert_sorted_sorted (y : Q) (s : list Q) :
  StronglySorted Qle s -> StronglySorted Qle (insert_sorted y s).
Proof.
  induction 1 as [|z s Hs IH Hz]; cbn [insert_sorted].
  - constructor; constructor.
  - destruct (Qle_bool y z) eqn:E.
    + apply Qle_bool_iff in E. constructor; [now constructor|].
      constructor; [exact E|].
      eapply Forall_impl; [|exact Hz]. intros q Hq. cbv beta in Hq. lra.
    + assert (Hzy : (z <= y)%Q).
      { destruct (Qlt_le_dec z y) as [H | H]; [lra|].
        apply Qle_bool_iff in H. congruence. }
      constructor; [exact IH|].
      apply Forall_forall. intros q Hq. apply insert_sorted_In in Hq.
      destruct Hq as [-> | Hq]; [exact Hzy|].
      revert q Hq. now apply Forall_forall.
Qed.

Lemma sort_sorted (a : list Q) : StronglySorted Qle (sort a).
Proof.
  induction a as [|y a IH]; [constructor|].
  cbn [sort fold_right]. now apply insert_sorted_sorted.
Qed.

(** In an ascending list the order statistic of rank [i] is at most [x]
    as soon as more than [i] elements are. *)
Lemma nth_sorted_le (x : Q) (s : list Q) (i : nat) :
  StronglySorted Qle s -> (i < count_le x s)%nat ->
  (nth i s 0 <= x)%Q.
Proof.
  intros Hs. revert i. induction Hs as [|h t Ht IH Hh]; intros i Hi.
  - unfold count_le in Hi. simpl in Hi. lia.
  - unfold count_le in Hi. cbn [filter] in Hi.
    destruct (Qle_bool h x) eqn:E.
    + destruct i as [|j]; cbn [nth].
      * now apply Qle_bool_iff.
      * apply IH. unfold count_le. cbn [List.length] in Hi. lia.
    + destruct i as [|j]; cbn [nth].
      * destruct (filter (fun y => Qle_bool y x) t) as [|y l] eqn:F;
          [simpl in Hi; lia|].
        assert (Hy : In y (filter (fun y => Qle_bool y x) t))
          by (rewrite F; now left).
        apply filter_In in Hy as [Hy Hyx]. apply Qle_bool_iff in Hyx.
        pose proof (proj1 (Forall_forall _ _) Hh y Hy) as Hhy.
        cbv beta in Hhy.
        lra.
      * apply IH. unfold count_le. lia.
Qed.

Lemma count_le_larger (m : Q) (sizes : list Q) :
  Z.of_nat (count_le m sizes) + larger m sizes = len_nat sizes.
Proof.
  unfold count_le, larger, len_nat, Qltb.
  induction sizes as [|q r IH]; [reflexivity|].
  cbn [filter]. destruct (Qle_bool q m); cbn [negb List.length]; lia.
Qed.

Lemma percentile_90_rare_large (a : list Q) (m : Q) :
  10 * larger m a + 1 < len_nat a ->
  (percentile a 90 <= m)%Q.
Proof.
  intros Hrare. unfold percentile. cbv zeta.
  assert (Hlen : len_nat (sort a) = len_nat a)
    by (unfold len_nat; now rewrite sort_length).
  assert (Hc : 0 <= larger m a) by (unfold larger, len_nat; lia).
  assert (Hn : 1 <= len_nat (sort a)) by lia.
  destruct (percentile_90_indices _ Hn) as (Hlo & Hhi & Hg0 & Hg1).
  rewrite Hlen in *.
  set (n := len_nat a) in *.
  set (virtual := (inject_Z (n - 1) * (90 / 100))%Q) in *.
  set (lo := Qfloor virtual) in *.
  assert (Hlt : lo + 1 < n - larger m a).
  { assert (Hv : (virtual < inject_Z (n - larger m a - 1))%Q).
    { assert (Hq : (inject_Z (10 * larger m a + 1) < inject_Z n)%Q)
        by now rewrite <- Zlt_Qlt.
      rewrite inject_Z_plus, inject_Z_mult in Hq.
      subst virtual. unfold Z.sub. rewrite !inject_Z_plus, !inject_Z_opp.
      change (inject_Z 1) with 1%Q in *. change (inject_Z 10) with 10%Q in *.
      assert (E : (90 / 100 == 9 # 10)%Q) by reflexivity. rewrite E.
      set (N := inject_Z n) in *. set (L := inject_Z (larger m a)) in *.
      clearbody N L. lra. }
    assert (Hf : (inject_Z lo < inject_Z (n - larger m a - 1))%Q).
    { pose proof (Qfloor_le virtual) as Hf. fold lo in Hf.
      set (u := inject_Z lo) in *. set (w := inject_Z _) in Hv |- *.
      clearbody u w virtual. lra. }
    rewrite <- Zlt_Qlt in Hf. lia. }
  pose proof (count_le_larger m a) as Hcnt. fold n in Hcnt.
  assert (Hx : (nth (Z.to_nat lo) (sort a) 0 <= m)%Q).
  { apply nth_sorted_le; [apply sort_sorted|]. rewrite sort_count. lia. }
  assert (Hy : (nth (Z.to_nat (Z.min (lo + 1) (n - 1))) (sort a) 0 <= m)%Q).
  { apply nth_sorted_le; [apply sort_sorted|]. rewrite sort_count. lia. }
  set (x := nth _ (sort a) 0%Q) in Hx |- *.
  set (y := nth _ (sort a) 0%Q) in Hy |- *.
  set (g := (_ - inject_Z _)%Q) in *.
  clearbody x y g. nra.
Qed.

(** X15 ([detect_headings_and_sections]).  When no size is below [m] and
    the sizes larger than [m] are rare, [10 * larger + 1 < n] of the [n]
    sizes, the 90th percentile is no more than [m], and every block that
    has a font size passes the heading test. *)
Theorem rare_large_size_makes_every_block_a_heading :
  forall (pages_blocks : list Page.t) (m : Q),
    let sizes := all_font_sizes pages_blocks in
    (forall q, In q sizes -> (m <= q)%Q) ->
    10 * larger m sizes + 1 < len_nat sizes ->
    (heading_threshold pages_blocks <= m)%Q /\
    forall p b, In p pages_blocks -> In b (Page.blocks p) ->
                has_font_size b = true ->
                is_heading (heading_threshold pages_blocks) b = true.
Proof.
  intros ps m sizes Hmin Hrare.
  assert (Hth : (heading_threshold ps <= m)%Q)
    by (unfold heading_threshold; now apply percentile_90_rare_large).
  split; [exact Hth|]. intros p b Hp Hb Hsz.
  unfold is_heading. rewrite Hsz. cbn [andb].
  unfold has_font_size in Hsz.
  destruct (Block.max_font_size b) as [q|] eqn:Eq; [|discriminate].
  cbn [Normalizer.opt_get]. apply Qle_bool_iff.
  assert (m <= q)%Q.
  { apply Hmin. eapply block_size_counted; eassumption. }
  lra.
Qed.

Lemma rare_large_size_makes_every_block_a_heading_witness :
  (heading_threshold rare_heading_doc <= 10)%Q /\
  forall p b, In p rare_heading_doc -> In b (Page.blocks p) ->
              has_font_size b = true ->
              is_heading (heading_threshold rare_heading_doc) b = true.
Proof.
  apply (rare_large_size_makes_every_block_a_heading rare_heading_doc 10%Q).
  - intros q Hq. vm_compute in Hq.
    repeat (destruct Hq as [<- | Hq]; [vm_compute; discriminate|]).
    destruct Hq.
  - vm_compute. reflexivity.
Defined.

(** *** A run of headings *)

Lemma truthy_nonempty (s : pystr) : s <> [] -> truthy s = true.
Proof. destruct s; [congruence | reflexivity]. Qed.

Lemma finalize_opened (default : pystr) (it : item) :
  strip (item_text it) <> [] ->
  finalize default (opened_by it) = bare_section it.
Proof.
  intros H. unfold finalize, opened_by, bare_section.
  cbn [cur_heading cur_text cur_start_page cur_end_page].
  now rewrite (truthy_nonempty _ H).
Qed.

Lemma nonempty_opened (it : item) :
  strip (item_text it) <> [] -> nonempty_current (opened_by it) = true.
Proof.
  intros H. unfold nonempty_current, opened_by. cbn [cur_heading cur_text].
  now rewrite (truthy_nonempty _ H).
Qed.

Lemma heading_run (threshold : Q) (l : list item) (secs : list Sec.t)
    (x : item) :
  Forall (fun it => is_heading threshold (snd it) = true /\
                    strip (item_text it) <> []) (x :: l) ->
  push_last (fold_left (item_step threshold) l (secs, opened_by x))
  = secs ++ map bare_section (x :: l).
Proof.
  revert secs x; induction l as [|y l IH]; intros secs x H;
    inversion H as [|? ? [Hx Hxt] Hl]; subst.
  - cbn [fold_left push_last map].
    now rewrite (nonempty_opened _ Hxt), (finalize_opened _ _ Hxt).
  - cbn [fold_left]. inversion Hl as [|? ? [Hy Hyt] _]; subst.
    unfold item_step at 2. unfold block_step. rewrite Hy.
    rewrite (nonempty_opened _ Hxt), (finalize_opened _ _ Hxt).
    change (mkCurrent _ _ _ _) with (opened_by y).
    rewrite (IH _ _ Hl), <- app_assoc. reflexivity.
Qed.

Lemma stream_blocks (ps : list Page.t) :
  map snd (stream ps) = flat_map Page.blocks ps.
Proof.
  unfold stream. induction ps as [|p r IH]; cbn [flat_map map];
    [reflexivity|].
  rewrite map_app, IH, map_map. cbn [snd]. now rewrite map_id.
Qed.

(** X16 ([detect_headings_and_sections]).  When every block of a document
    passes the heading test and has text, every block becomes a section of
    its own: its text is the heading, the section text is empty, and the
    page range is its page. *)
Theorem run_of_headings_gives_bare_sections :
  forall pages_blocks : list Page.t,
    stream pages_blocks <> [] ->
    Forall (fun it =>
              is_heading (heading_threshold pages_blocks) (snd it) = true /\
              strip (item_text it) <> [])
           (stream pages_blocks) ->
    detect_headings_and_sections pages_blocks
    = map bare_section (stream pages_blocks).
Proof.
  intros ps Hne Hall. unfold detect_headings_and_sections.
  destruct (stream ps) as [|x l] eqn:Es; [congruence|].
  assert (Hx : is_heading (heading_threshold ps) (snd x) = true).
  { inversion Hall as [|? ? [H _] _]; exact H. }
  assert (Hsz : all_font_sizes ps <> []).
  { rewrite all_font_sizes_flat, <- stream_blocks, Es. cbn [map block_sizes flat_map].
    unfold is_heading in Hx. apply andb_true_iff in Hx as [Hx _].
    rewrite Hx. discriminate. }
  destruct (all_font_sizes ps) as [|q0 qs]; [congruence|]. cbv zeta.
  rewrite page_fold_stream, Es. cbn [fold_left].
  unfold item_step at 2. unfold block_step, current0.
  rewrite Hx. cbn [nonempty_current cur_heading cur_text truthy].
  change (mkCurrent _ _ _ _) with (opened_by x).
  now rewrite (heading_run _ _ _ _ Hall).
Qed.

Lemma run_of_headings_gives_bare_sections_witness :
  map (fun s => (Sec.heading s, Sec.text s))
      (detect_headings_and_sections uniform_doc)
  = [(lit "Title", []); (lit "First paragraph.", []);
     (lit "Second paragraph.", [])].
Proof.
  rewrite (run_of_headings_gives_bare_sections uniform_doc).
  - vm_compute. reflexivity.
  - discriminate.
  - repeat constructor; vm_compute; discriminate.
Defined.

End SegmenterThresholdFacts.

(* ------------------------------------------------------------------ *)
(** ** Heading and section segmenter: four paragraphs and a heading *)

Section SegmenterFiveBlockFacts.
Import Segmenter Reading.

Lemma body_step (threshold : Q) (secs : list Sec.t) (cur : current) (x : item) :
  is_heading threshold (snd x) = false ->
  item_step threshold (secs, cur) x
  = (secs,
     {| cur_heading := cur_heading cur;
        cur_text := cur_text cur ++ (nl2 ++ strip (item_text x));
        cur_start_page := match cur_start_page cur with
                          | None => Some (fst x)
                          | Some s => Some s
                          end;
        cur_end_page := Some (fst x) |}).
Proof. intros H. unfold item_step, block_step. now rewrite H. Qed.

Lemma heading_step (threshold : Q) (secs : list Sec.t) (cur : current)
    (x : item) :
  is_heading threshold (snd x) = true ->
  item_step threshold (secs, cur) x
  = (if nonempty_current cur
     then secs ++ [finalize (lit "Untitled") cur]
     else secs,
     opened_by x).
Proof. intros H. unfold item_step, block_step. now rewrite H. Qed.

(** The main loop on four blocks that fail the heading test and a fifth
    that passes it: the four are the text of one section without a heading
    of its own, the fifth is the heading of a second one. *)
Lemma four_paragraphs_and_a_heading (threshold : Q) (i1 i2 i3 i4 i5 : item) :
  is_heading threshold (snd i1) = false ->
  is_heading threshold (snd i2) = false ->
  is_heading threshold (snd i3) = false ->
  is_heading threshold (snd i4) = false ->
  is_heading threshold (snd i5) = true ->
  Forall clean_item [i1; i2; i3; i4; i5] ->
  push_last (fold_left (item_step threshold) [i1; i2; i3; i4; i5]
                       ([], current0))
  = [Sec.mk (lit "Untitled") (join nl2 (map item_text [i1; i2; i3; i4]))
            (Some (fst i1)) (Some (fst i4));
     Sec.mk (item_text i5) [] (Some (fst i5)) (Some (fst i5))].
Proof.
  intros H1 H2 H3 H4 H5 Hclean.
  assert (Hbody : Forall clean_item [i1; i2; i3; i4]).
  { inversion Hclean as [|? ? C1 Hc1]; subst.
    inversion Hc1 as [|? ? C2 Hc2]; subst.
    inversion Hc2 as [|? ? C3 Hc3]; subst.
    inversion Hc3 as [|? ? C4 _]; subst.
    exact (Forall_cons _ C1 (Forall_cons _ C2 (Forall_cons _ C3
             (Forall_cons _ C4 (Forall_nil _))))). }
  assert (H5clean : clean_item i5).
  { exact (proj1 (Forall_forall _ _) Hclean i5
                 (or_intror (or_intror (or_intror (or_intror
                    (or_introl eq_refl)))))). }
  destruct H5clean as [Htrim Hne].
  assert (Hstrip5 : strip (item_text i5) = item_text i5)
    by (apply strip_of_trimmed; exact Htrim).
  cbn [fold_left].
  rewrite (body_step _ _ _ _ H1), (body_step _ _ _ _ H2),
          (body_step _ _ _ _ H3), (body_step _ _ _ _ H4),
          (heading_step _ _ _ _ H5).
  cbn [cur_heading cur_text cur_start_page cur_end_page current0].
  assert (Htext :
            ((([] ++ (nl2 ++ strip (item_text i1)))
                ++ (nl2 ++ strip (item_text i2)))
               ++ (nl2 ++ strip (item_text i3)))
              ++ (nl2 ++ strip (item_text i4))
            = body_text [i1; i2; i3; i4]).
  { unfold body_text. cbn [map List.concat].
    now rewrite app_nil_r, app_nil_l, <- !app_assoc. }
  rewrite Htext.
  assert (Hnonempty :
            nonempty_current
              {| cur_heading := None;
                 cur_text := body_text [i1; i2; i3; i4];
                 cur_start_page := Some (fst i1);
                 cur_end_page := Some (fst i4) |} = true) by reflexivity.
  rewrite Hnonempty.
  unfold push_last.
  rewrite nonempty_opened by (rewrite Hstrip5; exact Hne).
  rewrite finalize_opened by (rewrite Hstrip5; exact Hne).
  unfold finalize, bare_section.
  cbn [cur_heading cur_text cur_start_page cur_end_page app].
  now rewrite (strip_body_text _ Hbody), Hstrip5.
Qed.

Lemma heading_size_below (threshold q : Q) :
  (q < threshold)%Q -> heading_size threshold (Some q) = false.
Proof.
  intros H. unfold heading_size.
  destruct (Qle_bool threshold q) eqn:E; [|apply andb_false_r].
  apply Qle_bool_iff in E. lra.
Qed.

Lemma heading_size_reached (threshold q : Q) :
  Qnonzero q = true -> (threshold <= q)%Q ->
  heading_size threshold (Some q) = true.
Proof.
  intros Hq H. unfold heading_size. rewrite Hq.
  now apply Qle_bool_iff in H.
Qed.

Lemma clean_stream_blocks (ps : list Page.t) :
  Forall clean_block (flat_map Page.blocks ps) ->
  Forall clean_item (stream ps).
Proof.
  intros H. apply Forall_forall. intros it Hit. unfold clean_item.
  apply (proj1 (Forall_forall _ _) H). rewrite <- stream_blocks.
  now apply in_map.
Qed.

(** C7: when the five blocks of a document carry the sizes 10, 10, 10, 10
    and 24, the 90th percentile lies strictly above 10 and not above 24.
    The segmenter therefore takes the block of size 24, and no other, for
    a heading: it returns the four blocks of size 10 as the text of one
    section without a heading of its own, and the block of size 24 as the
    heading of a second section.  Every threshold in that range gives the
    same sections. *)
Theorem heading_threshold_10_10_10_10_24 :
  forall pages_blocks : list Page.t,
    map Block.max_font_size (flat_map Page.blocks pages_blocks)
    = [Some 10; Some 10; Some 10; Some 10; Some 24]%Q ->
    Forall clean_block (flat_map Page.blocks pages_blocks) ->
    let threshold := heading_threshold pages_blocks in
    (10 < threshold)%Q /\ (threshold <= 24)%Q /\
    map (is_heading threshold) (flat_map Page.blocks pages_blocks)
    = [false; false; false; false; true] /\
    exists i1 i2 i3 i4 i5 : item,
      stream pages_blocks = [i1; i2; i3; i4; i5] /\
      let expected :=
        [Sec.mk (lit "Untitled") (join nl2 (map item_text [i1; i2; i3; i4]))
                (Some (fst i1)) (Some (fst i4));
         Sec.mk (item_text i5) [] (Some (fst i5)) (Some (fst i5))] in
      detect_headings_and_sections pages_blocks = expected /\
      forall T : Q,
        (10 < T)%Q -> (T <= 24)%Q ->
        push_last (fold_left (page_step T) pages_blocks ([], current0))
        = expected.
Proof.
  intros ps Hsizes Hclean threshold.
  assert (Hall : all_font_sizes ps = [10; 10; 10; 10; 24]%Q).
  { rewrite all_font_sizes_flat, block_sizes_by_size, Hsizes. reflexivity. }
  assert (HT : (10 < threshold)%Q /\ (threshold <= 24)%Q).
  { unfold threshold, heading_threshold. rewrite Hall.
    split; vm_compute; congruence. }
  destruct HT as [Hlo Hhi].
  assert (Hmap : forall T,
             map (is_heading T) (flat_map Page.blocks ps)
             = map (heading_size T)
                   (map Block.max_font_size (flat_map Page.blocks ps))).
  { intros T. rewrite map_map. apply map_ext. intros b.
    apply is_heading_by_size. }
  assert (Hverdict : forall T, (10 < T)%Q -> (T <= 24)%Q ->
             map (is_heading T) (flat_map Page.blocks ps)
             = [false; false; false; false; true]).
  { intros T H10 H24. rewrite Hmap, Hsizes. cbn [map].
    rewrite (heading_size_below T 10 H10).
    now rewrite (heading_size_reached T 24 eq_refl H24). }
  split; [exact Hlo|]. split; [exact Hhi|].
  split; [now apply Hverdict|].
  pose proof (stream_blocks ps) as Hsb.
  pose proof (clean_stream_blocks ps Hclean) as Hcs.
  rewrite <- Hsb in Hsizes. revert Hsb Hcs Hsizes.
  destruct (stream ps) as [|i1 [|i2 [|i3 [|i4 [|i5 [|i6 r]]]]]] eqn:Es;
    intros Hsb Hcs Hsizes; cbn [map] in Hsizes; try discriminate Hsizes.
  exists i1, i2, i3, i4, i5. split; [reflexivity|]. cbv zeta.
  assert (Hloop : forall T, (10 < T)%Q -> (T <= 24)%Q ->
             push_last (fold_left (page_step T) ps ([], current0))
             = [Sec.mk (lit "Untitled")
                       (join nl2 (map item_text [i1; i2; i3; i4]))
                       (Some (fst i1)) (Some (fst i4));
                Sec.mk (item_text i5) [] (Some (fst i5)) (Some (fst i5))]).
  { intros T H10 H24. rewrite page_fold_stream, Es.
    pose proof (Hverdict T H10 H24) as Hv.
    rewrite <- Hsb in Hv. cbn [map] in Hv.
    injection Hv as V1 V2 V3 V4 V5.
    now apply four_paragraphs_and_a_heading. }
  split; [|exact Hloop].
  unfold detect_headings_and_sections. rewrite Hall. cbv zeta.
  now apply Hloop.
Qed.

(** The theorem above at a page of five blocks. *)
Lemma heading_threshold_10_10_10_10_24_witness :
  map (fun s => (Sec.heading s, Sec.text s))
      (detect_headings_and_sections Examples.five_blocks)
  = [(lit "Untitled",
      lit "one" ++ nl2 ++ lit "two" ++ nl2 ++ lit "three" ++ nl2 ++ lit "four");
     (lit "Results", [])] /\
  map (is_heading (heading_threshold Examples.five_blocks))
      (flat_map Page.blocks Examples.five_blocks)
  = [false; false; false; false; true].
Proof.
  assert (Hclean : Forall clean_block
                          (flat_map Page.blocks Examples.five_blocks)).
  { repeat constructor; discriminate. }
  pose proof (heading_threshold_10_10_10_10_24 Examples.five_blocks eq_refl
                Hclean) as H.
  cbv zeta in H.
  destruct H as (_ & _ & Hv & i1 & i2 & i3 & i4 & i5 & Hs & Hd & _).
  split; [|exact Hv].
  rewrite Hd. injection Hs as <- <- <- <- <-. reflexivity.
Defined.

End SegmenterFiveBlockFacts.

(* ------------------------------------------------------------------ *)
(** ** Heading and section segmenter: the sections of a source file *)

Section SegmenterOrderFacts.
Import Segmenter Reading.

Lemma clean_stream (ps : list Page.t) :
  clean_pages ps -> Forall clean_item (stream ps).
Proof.
  intros [Hc _]. unfold stream. apply Forall_forall. intros it Hit.
  apply in_flat_map in Hit as (p & Hp & Hit).
  apply in_map_iff in Hit as (b & <- & Hb).
  unfold clean_item. cbn [snd].
  pose proof (proj1 (Forall_forall _ _) Hc p Hp) as Hbs.
  exact (proj1 (Forall_forall _ _) Hbs b Hb).
Qed.

Lemma filtered_clean (doc : Layout.Document) (repeated : list pystr) :
  clean_pages (Headers.remove_repeated_headers_from_blocks
                 (Normalizer.extract_text_blocks doc) repeated).
Proof. apply remove_repeated_clean, extract_text_blocks_clean. Qed.

Lemma filtered_length (doc : Layout.Document) (repeated : list pystr) :
  List.length (Headers.remove_repeated_headers_from_blocks
                 (Normalizer.extract_text_blocks doc) repeated)
  = List.length doc.
Proof.
  pose proof (removal_keeps_page_count
                (Normalizer.extract_text_blocks doc) repeated) as H.
  unfold len_nat in H. apply Nat2Z.inj in H. rewrite H.
  apply pages_from_length.
Qed.

Lemma main_loop_groups (ps : list Page.t) :
  clean_pages ps ->
  exists groups,
    List.concat groups = stream ps /\
    Forall (fun g => g <> []) groups /\
    Forall2 covers groups
      (push_last (fold_left (page_step (heading_threshold ps)) ps
                            ([], current0))).
Proof.
  intros Hc. rewrite page_fold_stream.
  apply push_last_covers; [|now apply clean_stream].
  apply loop_inv_run. now apply clean_stream.
Qed.

Lemma clean_sections_nonempty (ps : list Page.t) :
  clean_pages ps -> ps <> [] -> detect_headings_and_sections ps <> [].
Proof.
  intros Hc Hps. unfold detect_headings_and_sections.
  destruct (all_font_sizes ps) as [|q0 qs] eqn:Es.
  - destruct ps; [congruence | discriminate].
  - cbv zeta. destruct (main_loop_groups ps Hc) as (groups & Hg & _ & Hcov).
    intros H. rewrite H in Hcov. inversion Hcov; subst.
    cbn [List.concat] in Hg.
    rewrite all_font_sizes_flat, <- stream_blocks, <- Hg in Es.
    discriminate.
Qed.

(** X17 ([detect_headings_and_sections], [process_pdf]).  On the filtered
    pages of a source file the segmenter returns no section exactly when
    the file has no page: in [process_pdf] the title falls back to the file
    stem only for a file without pages. *)
Theorem sections_empty_iff_no_pages :
  forall (doc : Layout.Document) (repeated : list pystr),
    let pages_blocks :=
      Headers.remove_repeated_headers_from_blocks
        (Normalizer.extract_text_blocks doc) repeated in
    detect_headings_and_sections pages_blocks = [] <-> doc = [].
Proof.
  intros doc repeated ps.
  pose proof (filtered_clean doc repeated) as Hc.
  pose proof (filtered_length doc repeated) as Hl. fold ps in Hc, Hl.
  split; intros H.
  - destruct doc as [|page r]; [reflexivity|]. exfalso.
    apply (clean_sections_nonempty ps Hc); [|exact H].
    intros E. rewrite E in Hl. discriminate.
  - subst doc. destruct ps; [reflexivity | discriminate].
Qed.

Lemma StronglySorted_app_cross (l1 l2 : list Z) (x y : Z) :
  StronglySorted Z.le (l1 ++ l2) -> In x l1 -> In y l2 -> x <= y.
Proof.
  induction l1 as [|a l1 IH]; cbn [app]; intros Hs Hx Hy; [destruct Hx|].
  inversion Hs as [|? ? Hs' Ha]; subst.
  destruct Hx as [<- | Hx]; [|now apply IH].
  apply (proj1 (Forall_forall _ _) Ha). apply in_or_app. now right.
Qed.

Lemma covered_marks (groups : list (list item)) (sections : list Sec.t) :
  Forall2 covers groups sections ->
  Forall (fun g => g <> []) groups ->
  StronglySorted Z.le (map fst (List.concat groups)) ->
  StronglySorted Z.le (flat_map page_marks sections) /\
  (forall m, In m (flat_map page_marks sections) ->
             In m (map fst (List.concat groups))) /\
  Forall (fun s => List.length (page_marks s) = 2%nat) sections.
Proof.
  induction 1 as [|g s groups sections Hcov _ IH]; intros Hne Hs.
  - split; [constructor|]. split; [intros m []|constructor].
  - inversion Hne as [|? ? Hg Hne']; subst.
    cbn [List.concat] in Hs. rewrite map_app in Hs.
    destruct (StronglySorted_app_inv _ _ Hs) as [Hsg Hsr].
    destruct (IH Hne' Hsr) as (IHs & IHin & IHlen).
    destruct Hcov as (hd & body & _ & _ & _ & _ & Hpages).
    destruct g as [|it rest]; [congruence|].
    destruct (Hpages it rest eq_refl) as [Hst Hen].
    assert (Hmarks : page_marks s = [fst it; fst (last (it :: rest) it)])
      by (unfold page_marks; now rewrite Hst, Hen).
    assert (Hlast : In (fst (last (it :: rest) it)) (map fst (it :: rest))).
    { apply in_map. apply last_In. discriminate. }
    assert (Hfirst : In (fst it) (map fst (it :: rest))) by now left.
    cbn [flat_map List.concat]. rewrite Hmarks, map_app.
    split; [|split].
    + cbn [app]. constructor; [constructor; [exact IHs|]|].
      * apply Forall_forall. intros m Hm.
        eapply StronglySorted_app_cross; [exact Hs | exact Hlast |].
        now apply IHin.
      * constructor.
        -- inversion Hsg as [|? ? _ Hle]; subst.
           cbn [map] in Hlast. destruct Hlast as [<- | Hlast]; [lia|].
           exact (proj1 (Forall_forall _ _) Hle _ Hlast).
        -- apply Forall_forall. intros m Hm.
           eapply StronglySorted_app_cross; [exact Hs | exact Hfirst |].
           now apply IHin.
    + intros m Hm. apply in_or_app. cbn [app] in Hm.
      destruct Hm as [<- | [<- | Hm]];
        [left; exact Hfirst | left; exact Hlast | right; now apply IHin].
    + constructor; [now rewrite Hmarks | exact IHlen].
Qed.

Lemma fallback_marks (ps : list Page.t) :
  StronglySorted Z.le (map Page.page_number ps) ->
  StronglySorted Z.le (flat_map page_marks (map page_section ps)) /\
  (forall m, In m (flat_map page_marks (map page_section ps)) ->
             In m (map Page.page_number ps)) /\
  Forall (fun s => List.length (page_marks s) = 2%nat) (map page_section ps).
Proof.
  induction ps as [|p r IH]; cbn [map flat_map]; intros Hs.
  - split; [constructor|]. split; [intros m []|constructor].
  - inversion Hs as [|? ? Hs' Hp]; subst.
    destruct (IH Hs') as (IHs & IHin & IHlen).
    change (page_marks (page_section p))
      with [Page.page_number p; Page.page_number p].
    cbn [app]. split; [|split].
    + assert (Hall : Forall (Z.le (Page.page_number p))
                            (flat_map page_marks (map page_section r))).
      { apply Forall_forall. intros m Hm.
        exact (proj1 (Forall_forall _ _) Hp _ (IHin _ Hm)). }
      constructor; [constructor; [exact IHs | exact Hall]|].
      constructor; [lia | exact Hall].
    + intros m [<- | [<- | Hm]]; [now left | now left | right; now apply IHin].
    + constructor; [reflexivity | exact IHlen].
Qed.

(** X18 ([detect_headings_and_sections]).  The sections of a source file
    come in reading order: every section has both ends of its page range,
    and the ranges read one after the other, start, end, start, end, never
    go back. *)
Theorem sections_in_reading_order :
  forall (doc : Layout.Document) (repeated : list pystr),
    let pages_blocks :=
      Headers.remove_repeated_headers_from_blocks
        (Normalizer.extract_text_blocks doc) repeated in
    let sections := detect_headings_and_sections pages_blocks in
    Forall (fun s => List.length (page_marks s) = 2%nat) sections /\
    StronglySorted Z.le (flat_map page_marks sections).
Proof.
  intros doc repeated ps sections. subst sections.
  pose proof (filtered_clean doc repeated) as Hc. fold ps in Hc.
  unfold detect_headings_and_sections.
  destruct (all_font_sizes ps) as [|q0 qs].
  - destruct (fallback_marks ps (proj2 Hc)) as (H1 & _ & H2). now split.
  - cbv zeta.
    destruct (main_loop_groups ps Hc) as (groups & Hg & Hne & Hcov).
    destruct (covered_marks _ _ Hcov Hne) as (H1 & _ & H2); [|now split].
    rewrite Hg. apply stream_sorted. exact (proj2 Hc).
Qed.

End SegmenterOrderFacts.

(* ------------------------------------------------------------------ *)
(** ** The per-file pipeline *)

Section PipelineFacts.
Import Pipeline.

Variable lower : pystr -> pystr.

Lemma truthy_true (s : pystr) : truthy s = true <-> s <> [].
Proof. destruct s; simpl; split; congruence. Qed.

(** X19 ([process_pdf], [extract_metadata]).  The title of a processed
    file: the trimmed metadata title when that is not blank; otherwise, for
    a file with at least one page, the heading of its first section, which
    is never empty; the file stem only for a file without pages. *)
Theorem process_document_title :
  forall (metadata : MetadataDict) (stem : pystr) (doc : Layout.Document)
         (out : Output),
    process_document lower metadata stem doc = Some out ->
    (metadata_title metadata <> [] -> title out = metadata_title metadata) /\
    (metadata_title metadata = [] -> doc <> [] ->
     title out <> [] /\
     exists s rest, sections out = s :: rest /\ title out = Sec.heading s) /\
    (metadata_title metadata = [] -> doc = [] -> title out = stem).
Proof.
  intros metadata stem doc out H. unfold process_document in H.
  destruct (Headers.filtered_pages doc) as [ps|] eqn:Ef; [|discriminate].
  injection H as <-. cbn [title sections]. unfold title_of.
  destruct (filtered_pages_shape doc ps Ef) as (repeated & _ & Hps).
  split; [|split].
  - intros Hm. apply truthy_true in Hm. now rewrite Hm.
  - intros Hm Hdoc. rewrite Hm. cbn [truthy].
    pose proof (filtered_clean doc repeated) as Hc.
    pose proof (filtered_length doc repeated) as Hl.
    rewrite <- Hps in Hc, Hl.
    assert (Hne : ps <> []).
    { intros E. rewrite E in Hl. destruct doc; [congruence | discriminate]. }
    pose proof (clean_sections_nonempty ps Hc Hne) as Hsec.
    pose proof (sections_all_named ps) as Hnamed.
    destruct (Segmenter.detect_headings_and_sections ps) as [|s rest];
      [congruence|].
    split; [now inversion Hnamed | now exists s, rest].
  - intros Hm ->. rewrite Hm. cbn [truthy].
    vm_compute in Ef. injection Ef as <-. reflexivity.
Qed.

End PipelineFacts.

(** The three-page paper with a blank metadata title: the title is the
    heading of its first section. *)
Lemma process_document_title_witness :
  exists out,
    Pipeline.process_document Examples.ascii_lower Pipeline.blank_title
      (lit "paper") Examples.paper = Some out /\
    Pipeline.title out = lit "A Study".
Proof.
  destruct (Pipeline.process_document Examples.ascii_lower
              Pipeline.blank_title (lit "paper") Examples.paper)
    as [out|] eqn:E; [|vm_compute in E; discriminate].
  exists out. split; [reflexivity|].
  destruct (process_document_title Examples.ascii_lower Pipeline.blank_title
              (lit "paper") Examples.paper out E) as (_ & H & _).
  destruct H as (_ & s & rest & Hs & Ht); [reflexivity | discriminate |].
  rewrite Ht. vm_compute in E. injection E as <-.
  cbn [Pipeline.sections] in Hs. injection Hs as <- _. reflexivity.
Defined.

(* ------------------------------------------------------------------ *)
(** ** The per-file pipeline: references and raw text *)

Section PipelineTextFacts.
Import Pipeline.

Variable lower : pystr -> pystr.

Lemma join_app (sep : pystr) (xs ys : list pystr) :
  xs <> [] -> ys <> [] ->
  join sep (xs ++ ys) = join sep xs ++ sep ++ join sep ys.
Proof.
  intros Hx Hy. induction xs as [|x xs IH]; [congruence|].
  destruct xs as [|x' xs].
  - cbn [app join]. destruct ys; [congruence | reflexivity].
  - change ((x :: x' :: xs) ++ ys) with (x :: (x' :: xs) ++ ys).
    change (join sep (x :: (x' :: xs) ++ ys))
      with (x ++ sep ++ join sep ((x' :: xs) ++ ys)).
    rewrite IH by discriminate.
    change (join sep (x :: x' :: xs)) with (x ++ sep ++ join sep (x' :: xs)).
    now rewrite <- !app_assoc.
Qed.

Lemma block_texts_flat (ps : list Page.t) :
  block_texts ps = map Block.text (flat_map Page.blocks ps).
Proof.
  unfold block_texts. induction ps as [|p r IH]; cbn [flat_map];
    [reflexivity|].
  now rewrite map_app, IH.
Qed.

(** X20 ([process_pdf], [find_references]).  When the references of a
    processed file are not empty, they are the end of its [raw_text]: the
    raw text is the text of the blocks up to and including the first marker
    block, a blank line, and the references. *)
Theorem references_close_raw_text :
  forall (metadata : MetadataDict) (stem : pystr) (doc : Layout.Document)
         (out : Output),
    process_document lower metadata stem doc = Some out ->
    references out <> [] ->
    exists pre m,
      References.is_marker lower m = true /\
      forallb (fun b => negb (References.is_marker lower b)) pre = true /\
      raw_text out
      = join nl2 (map Block.text (pre ++ [m])) ++ nl2 ++ references out.
Proof.
  intros metadata stem doc out H Href. unfold process_document in H.
  destruct (Headers.filtered_pages doc) as [ps|] eqn:Ef; [|discriminate].
  injection H as <-. cbn [references raw_text] in *.
  destruct (filtered_pages_shape doc ps Ef) as (repeated & _ & Hps).
  pose proof (filtered_clean doc repeated) as Hc. rewrite <- Hps in Hc.
  rewrite (find_references_clean lower ps Hc) in *.
  unfold full_text. rewrite block_texts_flat.
  destruct (after_marker_split lower (flat_map Page.blocks ps))
    as [(pre & m & Hbs & Hm & Hpre) | [_ Hnone]].
  - exists pre, m. split; [exact Hm|]. split; [exact Hpre|].
    set (after := References.after_marker lower (flat_map Page.blocks ps)) in *.
    rewrite Hbs.
    change (pre ++ m :: after) with (pre ++ [m] ++ after).
    rewrite app_assoc, map_app. apply join_app.
    + rewrite map_app. intros E. apply app_eq_nil in E as [_ E]. discriminate.
    + intros E. apply Href. now rewrite E.
  - exfalso. apply Href. now rewrite Hnone.
Qed.

End PipelineTextFacts.

(** The three-page paper: its raw text ends with its two reference
    entries. *)
Lemma references_close_raw_text_witness :
  exists out pre m,
    Pipeline.process_document Examples.ascii_lower None (lit "paper")
      Examples.paper = Some out /\
    Pipeline.references out = lit "[1] Doe." ++ nl2 ++ lit "[2] Roe." /\
    Pipeline.raw_text out
    = join nl2 (map Block.text (pre ++ [m])) ++ nl2 ++ Pipeline.references out.
Proof.
  destruct (Pipeline.process_document Examples.ascii_lower None (lit "paper")
              Examples.paper) as [out|] eqn:E;
    [|vm_compute in E; discriminate].
  assert (Href : Pipeline.references out
                 = lit "[1] Doe." ++ nl2 ++ lit "[2] Roe.").
  { vm_compute in E. injection E as <-. reflexivity. }
  destruct (references_close_raw_text Examples.ascii_lower None (lit "paper")
              Examples.paper out E) as (pre & m & _ & _ & H).
  - rewrite Href. discriminate.
  - exists out, pre, m. split; [reflexivity|]. split; assumption.
Defined.

(* ------------------------------------------------------------------ *)
(** ** Table and image extractors *)

Section ArtifactFacts.
Import Batch Artifacts.

Variable exn : Type.
Variable is_Exception : exn -> bool.
Variable isalnum : N -> bool.
Variable path_join : pystr -> pystr -> pystr.

Let tables_step := tables_page_step exn is_Exception isalnum path_join.

Lemma enumerate_snd {A} (k : Z) (xs : list A) : map snd (enumerate k xs) = xs.
Proof.
  revert k; induction xs as [|x r IH]; intros k; cbn [enumerate map snd];
    [reflexivity|]. now rewrite IH.
Qed.

Lemma enumerate_app {A} (k : Z) (xs ys : list A) :
  enumerate k (xs ++ ys)
  = enumerate k xs ++ enumerate (k + len_nat xs) ys.
Proof.
  revert k; induction xs as [|x r IH]; intros k; cbn [enumerate app].
  - unfold len_nat. cbn [List.length Z.of_nat]. now rewrite Z.add_0_r.
  - rewrite IH. do 3 f_equal. unfold len_nat. cbn [List.length]. lia.
Qed.

Lemma table_entries_from (stem output_dir : pystr) (i k : Z) (ts : list Table) :
  map (fun m => (table_page m, raw m))
      (map (table_entry isalnum path_join stem output_dir i) (enumerate k ts))
  = map (pair i) ts.
Proof.
  revert k; induction ts as [|t r IH]; intros k; cbn [enumerate map];
    [reflexivity|].
  now rewrite IH.
Qed.

Lemma table_entries_shape (stem output_dir : pystr) (i : Z) (ts : list Table) :
  map (fun m => (table_page m, raw m))
      (map (table_entry isalnum path_join stem output_dir i) (enumerate 1 ts))
  = map (pair i) ts.
Proof. apply table_entries_from. Qed.

Lemma tables_fold_caught (stem output_dir : pystr)
    (ips : list (Z * result exn (list Table))) (acc : list TableMeta) :
  (forall i e, In (i, Raised e) ips -> is_Exception e = true) ->
  exists tables_meta,
    fold_left (tables_step stem output_dir) ips (Returned acc)
    = Returned tables_meta /\
    map (fun m => (table_page m, raw m)) tables_meta
    = map (fun m => (table_page m, raw m)) acc
      ++ flat_map (tables_of_page exn) ips.
Proof.
  revert acc; induction ips as [|[i o] r IH]; intros acc Hexc;
    cbn [fold_left flat_map].
  - exists acc. now rewrite app_nil_r.
  - assert (Hr : forall j e, In (j, Raised e) r -> is_Exception e = true).
    { intros j e Hin. apply (Hexc j). now right. }
    unfold tables_step at 2. unfold tables_page_step, page_tables.
    cbn [fst snd]. unfold tables_of_page at 1. cbn [fst snd].
    destruct o as [ts | e].
    + destruct (IH (acc ++ map (table_entry isalnum path_join stem output_dir i)
                                (enumerate 1 ts)) Hr) as (tm & Hf & Hm).
      exists tm. split; [exact Hf|].
      now rewrite Hm, map_app, table_entries_shape, <- app_assoc.
    + rewrite (Hexc i e (or_introl eq_refl)).
      cbn [enumerate map]. rewrite app_nil_r.
      destruct (IH acc Hr) as (tm & Hf & Hm).
      exists tm. split; [exact Hf|]. exact Hm.
Qed.

Lemma enumerate_In {A} (k i : Z) (x : A) (xs : list A) :
  In (i, x) (enumerate k xs) -> In x xs.
Proof.
  intros H. rewrite <- (enumerate_snd k xs). apply in_map_iff.
  now exists (i, x).
Qed.

(** X21 ([extract_tables]).  A page on which [page.extract_tables()]
    raises an [Exception] counts as a page without tables and stops
    nothing: the result lists the tables of the other pages, in page order,
    each with the number its page has in the file, the failed pages
    counted. *)
Theorem extract_tables_skips_failed_pages :
  forall (stem output_dir : pystr) (pages : list (result exn (list Table))),
    (forall e, In (Raised e) pages -> is_Exception e = true) ->
    exists tables_meta,
      extract_tables exn is_Exception isalnum path_join stem output_dir pages
      = Returned tables_meta /\
      map (fun m => (table_page m, raw m)) tables_meta
      = flat_map (tables_of_page exn) (enumerate 1 pages).
Proof.
  intros stem output_dir pages Hexc. unfold extract_tables.
  destruct (tables_fold_caught stem output_dir (enumerate 1 pages) [])
    as (tm & Hf & Hm).
  - intros i e Hin. apply Hexc. eapply enumerate_In; eassumption.
  - exists tm. split; [exact Hf | exact Hm].
Qed.

(** *** File names *)

Let digit (c : N) : Prop := is_digit c = true.

Lemma uint_codes_digits (u : Decimal.uint) : Forall digit (uint_codes u).
Proof.
  induction u; cbn [uint_codes]; constructor; try assumption; reflexivity.
Qed.

Lemma uint_codes_inj (u u' : Decimal.uint) :
  uint_codes u = uint_codes u' -> u = u'.
Proof.
  revert u'; induction u; intros u'; destruct u'; cbn [uint_codes];
    intros H; try discriminate H; try reflexivity;
    injection H as H; f_equal; now apply IHu.
Qed.

Lemma str_of_int_digits (n : Z) : 0 <= n -> Forall digit (str_of_int n).
Proof.
  intros Hn. unfold str_of_int. destruct n as [|p|p]; cbn [Z.to_int]; try lia;
    apply uint_codes_digits.
Qed.

Lemma str_of_int_inj (n n' : Z) :
  0 <= n -> 0 <= n' -> str_of_int n = str_of_int n' -> n = n'.
Proof.
  intros Hn Hn' H. apply DecimalZ.to_int_inj. unfold str_of_int in H.
  destruct n as [|p|p], n' as [|p'|p']; cbn [Z.to_int] in *; try lia;
    apply uint_codes_inj in H; congruence.
Qed.

(** Two strings that begin with digits up to a first other character agree
    on the digits and on the rest. *)
Lemma digits_prefix (a b x y : pystr) (c d : N) :
  Forall digit a -> Forall digit b ->
  is_digit c = false -> is_digit d = false ->
  a ++ c :: x = b ++ d :: y -> a = b /\ c :: x = d :: y.
Proof.
  intros Ha. revert b. induction Ha as [|a0 a Ha0 _ IH]; intros b Hb Hc Hd H.
  - destruct Hb as [|b0 b Hb0 _]; [now split|].
    cbn [app] in H. injection H as H _. unfold digit in Hb0. congruence.
  - destruct Hb as [|b0 b Hb0 Hb].
    + cbn [app] in H. injection H as H _. unfold digit in Ha0. congruence.
    + cbn [app] in H. injection H as H0 H.
      destruct (IH b Hb Hc Hd H) as [-> Ht]. subst b0. now split.
Qed.

(** X22 ([extract_tables]).  The CSV file names of one file are pairwise
    distinct: the name determines the page number and the table index. *)
Theorem table_fname_injective :
  forall (stem : pystr) (i tidx i' tidx' : Z),
    1 <= i -> 1 <= tidx -> 1 <= i' -> 1 <= tidx' ->
    table_fname isalnum stem i tidx = table_fname isalnum stem i' tidx' ->
    i = i' /\ tidx = tidx'.
Proof.
  intros stem i t i' t' Hi Ht Hi' Ht' H. unfold table_fname in H.
  apply app_inv_head in H. apply app_inv_head in H.
  remember (str_of_int t ++ lit ".csv") as tail.
  remember (str_of_int t' ++ lit ".csv") as tail'.
  change (lit "_table" ++ tail) with (95%N :: lit "table" ++ tail) in H.
  change (lit "_table" ++ tail') with (95%N :: lit "table" ++ tail') in H.
  apply digits_prefix in H as [Hpage H];
    [| apply str_of_int_digits; lia | apply str_of_int_digits; lia
     | reflexivity | reflexivity].
  apply str_of_int_inj in Hpage; [|lia|lia]. split; [exact Hpage|].
  injection H as H. subst tail tail'.
  change (lit ".csv") with (46%N :: lit "csv") in H.
  apply digits_prefix in H as [Hidx _];
    [| apply str_of_int_digits; lia | apply str_of_int_digits; lia
     | reflexivity | reflexivity].
  apply str_of_int_inj in Hidx; [exact Hidx | lia | lia].
Qed.

(** X23 ([extract_images]).  The image file names of one file are pairwise
    distinct: the name determines the page number, the image index and the
    extension. *)
Theorem image_fname_injective :
  forall (stem : pystr) (page idx page' idx' : Z) (ext ext' : pystr),
    1 <= page -> 1 <= idx -> 1 <= page' -> 1 <= idx' ->
    image_fname isalnum stem page idx ext
    = image_fname isalnum stem page' idx' ext' ->
    page = page' /\ idx = idx' /\ ext = ext'.
Proof.
  intros stem p i p' i' ext ext' Hp Hi Hp' Hi' H. unfold image_fname in H.
  apply app_inv_head in H. apply app_inv_head in H.
  remember (str_of_int i ++ lit "." ++ ext) as tail.
  remember (str_of_int i' ++ lit "." ++ ext') as tail'.
  change (lit "_img" ++ tail) with (95%N :: lit "img" ++ tail) in H.
  change (lit "_img" ++ tail') with (95%N :: lit "img" ++ tail') in H.
  apply digits_prefix in H as [Hpage H];
    [| apply str_of_int_digits; lia | apply str_of_int_digits; lia
     | reflexivity | reflexivity].
  apply str_of_int_inj in Hpage; [|lia|lia]. split; [exact Hpage|].
  injection H as H. subst tail tail'.
  change (lit "." ++ ext) with (46%N :: ext) in H.
  change (lit "." ++ ext') with (46%N :: ext') in H.
  apply digits_prefix in H as [Hidx Hext];
    [| apply str_of_int_digits; lia | apply str_of_int_digits; lia
     | reflexivity | reflexivity].
  apply str_of_int_inj in Hidx; [|lia|lia].
  split; [exact Hidx|]. now injection Hext.
Qed.

(** *** Images: no isolation *)

Let images_step := images_page_step exn isalnum path_join.

Lemma image_fold_raised (stem output_dir : pystr) (pageno : Z)
    (its : list (Z * result exn BaseImage)) (e : exn) :
  fold_left (image_step exn isalnum path_join stem output_dir pageno) its
            (Raised e)
  = Raised e.
Proof. induction its as [|it r IH]; cbn [fold_left image_step]; auto. Qed.

Lemma images_fold_raised (stem output_dir : pystr)
    (ips : list (Z * list (result exn BaseImage))) (e : exn) :
  fold_left (images_step stem output_dir) ips (Raised e) = Raised e.
Proof.
  induction ips as [|ip r IH]; cbn [fold_left]; [reflexivity|].
  unfold images_step at 2. unfold images_page_step.
  now rewrite image_fold_raised.
Qed.

Lemma image_fold_returned (stem output_dir : pystr) (pageno : Z)
    (its : list (Z * result exn BaseImage)) (acc : list ImageMeta) :
  Forall (fun it => returned (snd it) = true) its ->
  exists acc',
    fold_left (image_step exn isalnum path_join stem output_dir pageno) its
              (Returned acc)
    = Returned acc'.
Proof.
  revert acc; induction its as [|[i o] r IH]; intros acc H; cbn [fold_left].
  - now exists acc.
  - inversion H as [|? ? Ho Hr]; subst. cbn [snd] in Ho.
    destruct o as [b | e]; [|discriminate]. cbn [image_step snd].
    now apply IH.
Qed.

Lemma enumerate_Forall {A} (P : A -> Prop) (k : Z) (xs : list A) :
  Forall P xs -> Forall (fun it => P (snd it)) (enumerate k xs).
Proof.
  intros H. revert k. induction H as [|x r Hx _ IH]; intros k;
    cbn [enumerate]; constructor; [exact Hx | apply IH].
Qed.

Lemma images_fold_returned (stem output_dir : pystr)
    (ips : list (Z * list (result exn BaseImage))) (acc : list ImageMeta) :
  Forall (fun ip => Forall (fun o => returned o = true) (snd ip)) ips ->
  exists acc',
    fold_left (images_step stem output_dir) ips (Returned acc) = Returned acc'.
Proof.
  revert acc; induction ips as [|ip r IH]; intros acc H; cbn [fold_left].
  - now exists acc.
  - inversion H as [|? ? Hp Hr]; subst.
    unfold images_step at 2. unfold images_page_step.
    destruct (image_fold_returned stem output_dir (fst ip)
                (enumerate 1 (snd ip)) acc) as (acc' & ->).
    + now apply (enumerate_Forall (fun o => returned o = true)).
    + now apply IH.
Qed.

(** X24 ([extract_images]).  The image extractor has no isolation: the
    first image that [doc.extract_image] fails on ends the extraction with
    that failure, whatever its class, and no metadata is returned, not even
    for the images read before it. *)
Theorem extract_images_stops_at_first_failure :
  forall (stem output_dir : pystr)
         (before after : list (list (result exn BaseImage)))
         (good rest : list (result exn BaseImage)) (e : exn),
    Forall (Forall (fun o => returned o = true)) before ->
    Forall (fun o => returned o = true) good ->
    extract_images exn isalnum path_join stem output_dir
      (before ++ (good ++ Raised e :: rest) :: after)
    = Raised e.
Proof.
  intros stem output_dir before after good rest e Hb Hg.
  unfold extract_images. rewrite enumerate_app, fold_left_app.
  destruct (images_fold_returned stem output_dir (enumerate 0 before) [])
    as (acc & Hacc).
  { now apply (enumerate_Forall
                 (fun page => Forall (fun o => returned o = true) page)). }
  fold (images_step stem output_dir). rewrite Hacc.
  cbn [enumerate fold_left].
  unfold images_step at 2. unfold images_page_step. cbn [fst snd].
  rewrite enumerate_app, fold_left_app.
  destruct (image_fold_returned stem output_dir (0 + len_nat before)
              (enumerate 1 good) acc) as (acc' & ->).
  { now apply (enumerate_Forall (fun o => returned o = true)). }
  cbn [enumerate fold_left image_step snd].
  rewrite image_fold_raised. apply images_fold_raised.
Qed.

End ArtifactFacts.

(** Three pages of which the second fails: the tables of pages 1 and 3,
    under these numbers. *)
Lemma extract_tables_skips_failed_pages_witness :
  exists tables_meta,
    Artifacts.extract_tables Examples.raised Examples.raised_is_Exception
      Examples.ascii_alnum Examples.slash_join (lit "doc") (lit "out")
      Artifacts.three_pages
    = Batch.Returned tables_meta /\
    map Artifacts.table_page tables_meta = [1; 3; 3] /\
    map Artifacts.rows tables_meta = [1; 1; 2].
Proof.
  destruct (extract_tables_skips_failed_pages
              Examples.raised Examples.raised_is_Exception
              Examples.ascii_alnum Examples.slash_join (lit "doc") (lit "out")
              Artifacts.three_pages) as (tm & Hf & _).
  - intros e [H | [H | [H | []]]]; try discriminate H.
    now injection H as <-.
  - exists tm. split; [exact Hf|].
    vm_compute in Hf. injection Hf as <-. split; reflexivity.
Defined.

Lemma table_fname_injective_witness :
  Artifacts.table_fname Examples.ascii_alnum (lit "my doc") 1 11
  = lit "my_doc_p1_table11.csv" /\
  (1 = 1 /\ 11 = 11).
Proof.
  split; [reflexivity|].
  apply (table_fname_injective Examples.ascii_alnum (lit "my doc") 1 11 1 11);
    try lia; reflexivity.
Defined.

Lemma image_fname_injective_witness :
  Artifacts.image_fname Examples.ascii_alnum (lit "my doc") 2 1 (lit "png")
  = lit "my_doc_p2_img1.png" /\
  (2 = 2 /\ 1 = 1 /\ lit "png" = lit "png").
Proof.
  split; [reflexivity|].
  apply (image_fname_injective Examples.ascii_alnum (lit "my doc")
           2 1 2 1 (lit "png") (lit "png"));
    try lia; reflexivity.
Defined.

Lemma extract_images_stops_at_first_failure_witness :
  Artifacts.extract_images Examples.raised Examples.ascii_alnum
    Examples.slash_join (lit "doc") (lit "out") Artifacts.two_image_pages
  = Batch.Raised Examples.FileDataError.
Proof.
  apply (extract_images_stops_at_first_failure
           Examples.raised Examples.ascii_alnum Examples.slash_join
           (lit "doc") (lit "out")
           [[Batch.Returned Artifacts.png]] []
           [Batch.Returned Artifacts.png] [Batch.Returned Artifacts.png]
           Examples.FileDataError);
    repeat constructor.
Defined.

(* ------------------------------------------------------------------ *)
(** ** Batch driver and uploads: what is not caught *)

Section UncaughtFacts.
Import Batch.

Variable exn : Type.
Variable is_Exception : exn -> bool.
Variable process_pdf : pystr -> pystr -> result exn ProcessedDocument.
Variable sorted_pdfs : pystr -> list pystr.
Variable stem : pystr -> pystr.
Variable path_join : pystr -> pystr -> pystr.
Variable isalnum : N -> bool.
Variable output_dir_exists : pystr -> bool.
Variable leaves_dir : pystr -> pystr -> bool.
Variable FileNotFoundError : exn.
Variable write_manifest : pystr -> list entry -> result exn unit.

(** X25 ([batch_process]).  What is not an [Exception] is not caught: when
    [process_pdf] raises such an object on a file, after files whose
    failures were all caught, the batch ends with it; the files after it
    are not processed and the manifest is not written. *)
Theorem batch_process_reraises_non_exception :
  forall (input_dir output_dir : pystr) (before after : list pystr)
         (pdf : pystr) (e : exn),
    sorted_pdfs input_dir = before ++ pdf :: after ->
    (forall f e', In f before ->
                  process_pdf f output_dir = Raised e' ->
                  is_Exception e' = true) ->
    process_pdf pdf output_dir = Raised e ->
    is_Exception e = false ->
    batch_process exn is_Exception process_pdf sorted_pdfs stem path_join
                  isalnum output_dir_exists leaves_dir FileNotFoundError
                  write_manifest input_dir output_dir
    = mkBatchRun exn
        (flat_map (trace_for exn process_pdf output_dir) before
         ++ [Processed pdf])
        (Raised e).
Proof.
  intros input_dir output_dir before after pdf e Hfiles Hcaught Hpdf He.
  unfold batch_process. rewrite Hfiles, fold_left_app.
  rewrite (loop_caught exn is_Exception process_pdf stem path_join isalnum
             leaves_dir output_dir before
             (mkLoop exn [] [] (output_dir_exists output_dir) None)
             eq_refl Hcaught).
  cbn [fold_left manifest trace dir_exists app].
  match goal with
  | |- context [fold_left ?f after ?s] =>
      assert (Hs : s = {| manifest := manifest exn s;
                          trace := flat_map (trace_for exn process_pdf output_dir)
                                            before ++ [Processed pdf];
                          dir_exists := dir_exists exn s;
                          stopped := Some e |})
        by (unfold file_step; cbn [stopped manifest trace dir_exists];
            rewrite Hpdf, He; reflexivity);
      rewrite Hs;
      rewrite loop_stopped with (e := e) by reflexivity
  end.
  reflexivity.
Qed.

End UncaughtFacts.

Lemma batch_process_reraises_non_exception_witness :
  Batch.batch_process Examples.raised Examples.raised_is_Exception
    Upload.process_interrupted Examples.three_pdfs Examples.stem4
    Examples.slash_join Examples.ascii_alnum Examples.no_dir
    Examples.leaves_nothing Examples.FileNotFoundError Examples.write_ok
    (lit "in") (lit "out")
  = Batch.mkBatchRun Examples.raised
      [Batch.Processed (lit "a.pdf"); Batch.Processed (lit "b.pdf")]
      (Batch.Raised Examples.KeyboardInterrupt).
Proof.
  apply (batch_process_reraises_non_exception
           Examples.raised Examples.raised_is_Exception
           Upload.process_interrupted Examples.three_pdfs Examples.stem4
           Examples.slash_join Examples.ascii_alnum Examples.no_dir
           Examples.leaves_nothing Examples.FileNotFoundError
           Examples.write_ok
           (lit "in") (lit "out") [lit "a.pdf"] [lit "c.pdf"] (lit "b.pdf")).
  - reflexivity.
  - intros f e' [<- | []] H. vm_compute in H. discriminate H.
  - reflexivity.
  - reflexivity.
Defined.

Section UploadFacts.
Import Batch Upload.

Variable exn : Type.
Variable process_pdf :
  list Byte.byte -> pystr -> pystr -> result exn ProcessedDocument.
Variable path_join : pystr -> pystr -> pystr.

Let step := upload_step exn process_pdf path_join.
Let processed (file : UploadedFile) : result exn ProcessedDocument :=
  process_pdf (buffer file) (path_join DATA_DIR (name file)) DATA_DIR.

Lemma uploads_raised (files : list UploadedFile)
    (s : list (pystr * list Byte.byte)) (e : exn) :
  fold_left step files (mkRun exn s (Raised e)) = mkRun exn s (Raised e).
Proof. induction files as [|f r IH]; cbn [fold_left]; auto. Qed.

Lemma uploads_returned (files : list UploadedFile)
    (s : list (pystr * list Byte.byte)) (outs : list ProcessedDocument) :
  Forall (fun f => Artifacts.returned (processed f) = true) files ->
  exists outs',
    fold_left step files (mkRun exn s (Returned outs))
    = mkRun exn (s ++ map (saved_as path_join) files)
            (Returned (outs ++ outs')) /\
    List.length outs' = List.length files.
Proof.
  revert s outs; induction files as [|f r IH]; intros s outs H;
    cbn [fold_left map].
  - exists []. now rewrite !app_nil_r.
  - inversion H as [|? ? Hf Hr]; subst.
    unfold step at 2. unfold upload_step. cbn [outcome saved].
    unfold processed in Hf.
    destruct (process_pdf (buffer f) (path_join DATA_DIR (name f)) DATA_DIR)
      as [out|e]; [|discriminate].
    destruct (IH (s ++ [(path_join DATA_DIR (name f), buffer f)])
                 (outs ++ [out]) Hr) as (outs' & Hfold & Hlen).
    exists (out :: outs'). split.
    + rewrite Hfold. unfold saved_as at 2. now rewrite <- !app_assoc.
    + cbn [List.length]. now rewrite Hlen.
Qed.

(** X26 ([process_uploaded_pdfs]).  The upload path has no isolation: the
    first upload on which [process_pdf] raises ends the run with that
    failure.  The uploads up to and including it have been saved, the ones
    after it are neither saved nor processed, and the outputs of the ones
    before it are not returned. *)
Theorem process_uploaded_pdfs_stops_at_first_failure :
  forall (before after : list UploadedFile) (file : UploadedFile) (e : exn),
    Forall (fun f => Artifacts.returned (processed f) = true) before ->
    processed file = Raised e ->
    process_uploaded_pdfs exn process_pdf path_join (before ++ file :: after)
    = mkRun exn (map (saved_as path_join) (before ++ [file])) (Raised e).
Proof.
  intros before after file e Hb Hf. unfold process_uploaded_pdfs.
  rewrite fold_left_app. fold step.
  destruct (uploads_returned before [] [] Hb) as (outs & -> & _).
  cbn [fold_left app]. unfold step at 2. unfold upload_step.
  cbn [outcome saved]. unfold processed in Hf. rewrite Hf.
  rewrite uploads_raised, map_app. reflexivity.
Qed.

End UploadFacts.

Lemma process_uploaded_pdfs_stops_at_first_failure_witness :
  Upload.process_uploaded_pdfs Examples.raised Upload.process_bytes
    Examples.slash_join Upload.three_uploads
  = Upload.mkRun Examples.raised
      [(lit "Data/processed/a.pdf", [Byte.x25]);
       (lit "Data/processed/b.pdf", [])]
      (Batch.Raised Examples.FileDataError).
Proof.
  apply (process_uploaded_pdfs_stops_at_first_failure
           Examples.raised Upload.process_bytes Examples.slash_join
           [Upload.upload "a.pdf" [Byte.x25]]
           [Upload.upload "c.pdf" [Byte.x25]]
           (Upload.upload "b.pdf" [])).
  - repeat constructor.
  - reflexivity.
Defined.

(* ------------------------------------------------------------------ *)
(** ** Text chunker *)

Section ChunkerFacts.
Import Chunker.

Lemma split_sentences_step (c d : N) (r : pystr) :
  split_sentences (c :: d :: r)
  = if ((c =? 46) && (d =? 32))%N then [] :: split_sentences r
    else match split_sentences (d :: r) with
         | h :: t => (c :: h) :: t
         | [] => [[c]]
         end.
Proof. reflexivity. Qed.

Lemma split_sentences_nonempty (text : pystr) : split_sentences text <> [].
Proof.
  destruct text as [|c [|d r]]; [discriminate | discriminate |].
  rewrite split_sentences_step.
  destruct ((c =? 46) && (d =? 32))%N; [discriminate|].
  destruct (split_sentences (d :: r)); discriminate.
Qed.

(** Joining the pieces with the separator gives the text back; here with
    the separator after every piece. *)
Lemma split_sentences_concat (text : pystr) :
  List.concat (map (fun s => s ++ dot_space) (split_sentences text))
  = text ++ dot_space.
Proof.
  assert (H : forall n text, (List.length text <= n)%nat ->
              List.concat (map (fun s => s ++ dot_space) (split_sentences text))
              = text ++ dot_space).
  { clear text. induction n as [|n IH]; intros text Hn.
    - destruct text; [reflexivity | simpl in Hn; lia].
    - destruct text as [|c [|d r]]; [reflexivity | reflexivity |].
      rewrite split_sentences_step.
      destruct ((c =? 46) && (d =? 32))%N eqn:E.
      + apply andb_true_iff in E as [Ec Ed].
        apply N.eqb_eq in Ec, Ed. subst c d.
        cbn [map List.concat]. rewrite IH by (simpl in Hn; lia).
        reflexivity.
      + pose proof (IH (d :: r)) as Hr.
        destruct (split_sentences (d :: r)) as [|h t] eqn:Es.
        * exfalso. eapply split_sentences_nonempty; eassumption.
        * cbn [map List.concat] in *.
          rewrite <- !app_assoc in *. cbn [app].
          rewrite Hr by (simpl in Hn |- *; lia). reflexivity. }
  apply (H (List.length text)). lia.
Qed.

Lemma chunk_fold_raw (max_tokens : Z) (sents : list pystr)
    (raws : list pystr) (current : pystr) :
  exists raws' current',
    fold_left (chunk_step max_tokens) sents (map strip raws, current)
    = (map strip raws', current') /\
    List.concat raws' ++ current'
    = List.concat raws ++ current
      ++ List.concat (map (fun s => s ++ dot_space) sents).
Proof.
  revert raws current; induction sents as [|s r IH]; intros raws current;
    cbn [fold_left map List.concat].
  - exists raws, current. now rewrite app_nil_r.
  - unfold chunk_step at 2.
    destruct (len current + len s <? max_tokens).
    + destruct (IH raws (current ++ (s ++ dot_space)))
        as (raws' & cur' & Hf & Hc).
      exists raws', cur'. split; [exact Hf|].
      rewrite Hc. now rewrite <- !app_assoc.
    + replace (map strip raws ++ [strip current])
        with (map strip (raws ++ [current]))
        by (now rewrite map_app).
      destruct (IH (raws ++ [current]) (s ++ dot_space))
        as (raws' & cur' & Hf & Hc).
      exists raws', cur'. split; [exact Hf|].
      rewrite Hc, concat_app. cbn [List.concat].
      now rewrite app_nil_r, <- !app_assoc.
Qed.

(** X27 ([chunk_text]).  Nothing of the text is lost or reordered: the
    chunks are the trimmed pieces of a cut of the text followed by one
    separator [". "]. *)
Theorem chunk_text_cuts_the_text :
  forall (text : pystr) (max_tokens : Z),
    exists pieces,
      chunk_text text max_tokens = map strip pieces /\
      List.concat pieces = text ++ dot_space.
Proof.
  intros text max_tokens. unfold chunk_text.
  destruct (chunk_fold_raw max_tokens (split_sentences text) [] [])
    as (raws & cur & Hf & Hc).
  cbn [map] in Hf. unfold state0. rewrite Hf.
  cbn [List.concat app] in Hc. rewrite split_sentences_concat in Hc.
  destruct cur as [|c cur]; cbn [truthy].
  - exists raws. split; [reflexivity|]. now rewrite app_nil_r in Hc.
  - exists (raws ++ [c :: cur]). split; [now rewrite map_app|].
    rewrite concat_app. cbn [List.concat]. now rewrite app_nil_r.
Qed.

Lemma chunk_fold_prefix (max_tokens : Z) (sents : list pystr)
    (chunks : list pystr) (current : pystr) :
  exists more,
    fst (fold_left (chunk_step max_tokens) sents (chunks, current))
    = chunks ++ more.
Proof.
  revert chunks current; induction sents as [|s r IH]; intros chunks current;
    cbn [fold_left].
  - exists []. now rewrite app_nil_r.
  - unfold chunk_step at 2.
    destruct (len current + len s <? max_tokens).
    + apply IH.
    + destruct (IH (chunks ++ [strip current]) (s ++ dot_space)) as (more & Hm).
      exists (strip current :: more). rewrite <- app_assoc in Hm. exact Hm.
Qed.

(** X28 ([chunk_text]).  When the first sentence alone reaches
    [max_tokens] characters, the first chunk is the empty string: the empty
    [current] is flushed before the sentence is taken. *)
Theorem chunk_text_long_first_sentence :
  forall (text : pystr) (max_tokens : Z) (first : pystr) (rest : list pystr),
    split_sentences text = first :: rest ->
    max_tokens <= len first ->
    exists more, chunk_text text max_tokens = [] :: more.
Proof.
  intros text max_tokens first rest Hs Hlong. unfold chunk_text.
  rewrite Hs. unfold state0. cbn [fold_left]. unfold chunk_step at 2.
  replace (len [] + len first <? max_tokens) with false
    by (symmetry; apply Z.ltb_ge; unfold len at 1; simpl; lia).
  destruct (chunk_fold_prefix max_tokens rest ([] ++ [strip []])
              (first ++ dot_space)) as (more & Hm).
  destruct (fold_left _ rest _) as [chunks current]. cbn [fst] in Hm.
  subst chunks. destruct (truthy current).
  - exists (more ++ [strip current]). reflexivity.
  - exists more. reflexivity.
Qed.

Lemma chunk_text_long_first_sentence_witness :
  exists more, chunk_text three_sentences 30 = [] :: more.
Proof.
  apply (chunk_text_long_first_sentence three_sentences 30
           (Examples.filler 30) [lit "Second one"; lit "Third"]).
  - reflexivity.
  - vm_compute. discriminate.
Defined.

Lemma lstrip_length (s : pystr) : (List.length (lstrip s) <= List.length s)%nat.
Proof.
  induction s as [|c r IH]; cbn [lstrip]; [lia|].
  destruct (isspace c); cbn [List.length]; lia.
Qed.

Lemma strip_len (s : pystr) : len (strip s) <= len s.
Proof.
  unfold len, strip, rstrip. rewrite length_rev.
  pose proof (lstrip_length (rev (lstrip s))) as H1.
  pose proof (lstrip_length s) as H2.
  rewrite length_rev in H1. lia.
Qed.

Lemma len_app (a b : pystr) : len (a ++ b) = len a + len b.
Proof. unfold len. rewrite length_app. lia. Qed.

(** A chunk within the bound, or a single sentence. *)
Let sized (max_tokens : Z) (sents : list pystr) (c : pystr) : Prop :=
  len c <= max_tokens + 1 \/
  exists sent, In sent sents /\ c = strip (sent ++ dot_space).

Let open_sized (max_tokens : Z) (sents : list pystr) (current : pystr)
  : Prop :=
  len current <= max_tokens + 1 \/
  exists sent, In sent sents /\ current = sent ++ dot_space.

Lemma open_sized_strip (max_tokens : Z) (sents : list pystr) (current : pystr) :
  open_sized max_tokens sents current -> sized max_tokens sents (strip current).
Proof.
  intros [H | (sent & Hin & ->)].
  - left. pose proof (strip_len current). lia.
  - right. now exists sent.
Qed.

Lemma chunk_fold_sized (max_tokens : Z) (all sents : list pystr)
    (chunks : list pystr) (current : pystr) :
  incl sents all ->
  Forall (sized max_tokens all) chunks -> open_sized max_tokens all current ->
  Forall (sized max_tokens all)
         (fst (fold_left (chunk_step max_tokens) sents (chunks, current))) /\
  open_sized max_tokens all
             (snd (fold_left (chunk_step max_tokens) sents (chunks, current))).
Proof.
  revert chunks current; induction sents as [|s r IH];
    intros chunks current Hincl Hch Hcur; cbn [fold_left].
  - now split.
  - assert (Hr : incl r all) by (intros x Hx; apply Hincl; now right).
    unfold chunk_step at 2 4.
    destruct (len current + len s <? max_tokens) eqn:E.
    + apply IH; [exact Hr | exact Hch|].
      left. apply Z.ltb_lt in E. rewrite !len_app.
      change (len dot_space) with 2. lia.
    + apply IH; [exact Hr | |].
      * apply Forall_app. split; [exact Hch|].
        constructor; [|constructor]. now apply open_sized_strip.
      * right. exists s. split; [apply Hincl; now left | reflexivity].
Qed.

(** X29 ([chunk_text]).  For a non-negative [max_tokens], every chunk has
    at most [max_tokens + 1] characters, unless it is a single sentence of
    the text with its full stop. *)
Theorem chunk_text_sizes :
  forall (text : pystr) (max_tokens : Z),
    0 <= max_tokens ->
    Forall (fun c => len c <= max_tokens + 1 \/
                     exists sent, In sent (split_sentences text) /\
                                  c = strip (sent ++ dot_space))
           (chunk_text text max_tokens).
Proof.
  intros text max_tokens Hm. unfold chunk_text.
  destruct (chunk_fold_sized max_tokens (split_sentences text)
              (split_sentences text) [] []) as [Hch Hcur].
  - apply incl_refl.
  - constructor.
  - left. unfold len. simpl. lia.
  - unfold state0. destruct (fold_left _ (split_sentences text) _) as [chunks current].
    cbn [fst snd] in Hch, Hcur.
    destruct (truthy current); [|exact Hch].
    apply Forall_app. split; [exact Hch|].
    constructor; [|constructor]. now apply open_sized_strip.
Qed.

Lemma chunk_text_sizes_witness :
  Forall (fun c => len c <= 31 \/
                   exists sent, In sent (split_sentences three_sentences) /\
                                c = strip (sent ++ dot_space))
         (chunk_text three_sentences 30).
Proof. apply (chunk_text_sizes three_sentences 30). lia. Defined.

Lemma lstrip_before_dot (a b : pystr) :
  lstrip (a ++ 46%N :: b) = lstrip a ++ 46%N :: b.
Proof.
  induction a as [|c r IH]; [reflexivity|].
  cbn [app lstrip]. destruct (isspace c); [exact IH | reflexivity].
Qed.

Lemma strip_sentence (a : pystr) :
  strip (a ++ dot_space) = lstrip a ++ lit ".".
Proof.
  unfold strip, rstrip. change dot_space with [46%N; 32%N].
  rewrite lstrip_before_dot.
  change (lstrip a ++ [46%N; 32%N]) with (lstrip a ++ [46%N] ++ [32%N]).
  rewrite !rev_app_distr.
  change (rev (rev (lstrip a)) ++ [46%N] = lstrip a ++ lit ".").
  now rewrite !rev_involutive.
Qed.

Lemma chunk_fold_open (max_tokens : Z) (sents : list pystr) (st : state) :
  sents <> [] ->
  exists a, snd (fold_left (chunk_step max_tokens) sents st) = a ++ dot_space.
Proof.
  intros Hs. destruct (exists_last Hs) as (l & s & ->).
  rewrite fold_left_app. cbn [fold_left].
  destruct (fold_left (chunk_step max_tokens) l st) as [chunks current].
  unfold chunk_step.
  destruct (len current + len s <? max_tokens); cbn [snd].
  - exists (current ++ s). now rewrite <- app_assoc.
  - now exists s.
Qed.

(** X30 ([chunk_text]).  The result is never empty, and its last chunk
    ends with a full stop: the text, the empty text included, always leaves
    a last [current] that ends with the separator. *)
Theorem chunk_text_last_chunk :
  forall (text : pystr) (max_tokens : Z),
    exists init body,
      chunk_text text max_tokens = init ++ [body ++ lit "."].
Proof.
  intros text max_tokens. unfold chunk_text.
  destruct (chunk_fold_open max_tokens (split_sentences text) state0
              (split_sentences_nonempty text)) as (a & Ha).
  destruct (fold_left _ (split_sentences text) state0) as [chunks current].
  cbn [snd] in Ha. subst current.
  replace (truthy (a ++ dot_space)) with true
    by (destruct a; reflexivity).
  exists chunks, (lstrip a). now rewrite strip_sentence.
Qed.

End ChunkerFacts.

